(** * Option-chain enrichment and signal engine: a shallow embedding

    The development follows [src/main.py] (functions [generate_alerts],
    [get_next_weekday] and [get_nifty_data], with its nested
    [enrich_contracts]), [src/stock_insiders.py] ([get_corporates_pit]),
    [src/bluck_deal.py] (the three snapshot functions) and [src/news.py]
    ([get_news]).

    Conventions of the embedding.
    - A JSON scalar is a [value]: [None], a number or a string.  Python's
      [int] and [float] are both read as rationals ([Qc]), so that Python's
      numeric [==] is Rocq's [=]; the only non-finite number kept is NaN,
      which is what [pd.to_numeric(..., errors='coerce')] returns on failure.
      Provider payloads hold finite numbers: NaN only comes out of coercion.
    - A Python [dict] with string keys is a [gmap string value].
    - Code that can raise returns a [result].
    - The scalars are those the specification lists for a field: absent,
      null, string, integer, float.  JSON booleans, and arrays or objects
      where a scalar is expected, are not modelled.
    - Two conversions belong to Python and pandas rather than to this
      repository and are taken as parameters: the grammar with which pandas
      reads a string as a number, and the way Python prints a number. *)

From Stdlib Require Import QArith Qcanon Ascii.
From stdpp Require Import base option list gmap strings sorting pretty.

Local Open Scope string_scope.
Local Set Warnings "-clear-no-such-hyp".
Set Default Proof Using "Type".

(** ** Values *)

Inductive num :=
| Fin (q : Qc)
| NaN.

Inductive value :=
| VNone
| VNum (x : num)
| VStr (s : string).

Abbreviation dict := (gmap string value).

Global Instance num_eq_dec : EqDecision num.
Proof. solve_decision. Defined.

Global Instance value_eq_dec : EqDecision value.
Proof. solve_decision. Defined.

Global Instance num_countable : Countable num.
Proof.
  refine (inj_countable'
            (λ x, match x with Fin q => Some q | NaN => None end)
            (λ o, match o with Some q => Fin q | None => NaN end) _).
  by intros [].
Defined.

Global Instance value_countable : Countable value.
Proof.
  refine (inj_countable'
            (λ v, match v with
                  | VNone => inl ()
                  | VNum x => inr (inl x)
                  | VStr s => inr (inr s)
                  end)
            (λ e, match e with
                  | inl _ => VNone
                  | inr (inl x) => VNum x
                  | inr (inr s) => VStr s
                  end) _).
  by intros [].
Defined.

Definition int (z : Z) : num := Fin (Qc_of_Z z).
Definition ratio (n : Z) (d : positive) : num := Fin (Q2Qc (n # d)).
Definition VInt (z : Z) : value := VNum (int z).

(** Exceptions of the Python code that the claims talk about. *)
Inductive exn :=
| AttributeError
| TypeError
| KeyError
| IndexError.

Inductive result (A : Type) :=
| Ok (a : A)
| Raise (e : exn).
Arguments Ok {A} a.
Arguments Raise {A} e.

Global Instance result_ret : MRet result := λ A a, Ok a.
Global Instance result_bind : MBind result := λ A B f m,
  match m with
  | Ok a => f a
  | Raise e => Raise e
  end.

(** ** Python scalars *)

(** [bool(v)]: [None], zero and the empty string are falsy; NaN is a
    non-zero float, hence truthy. *)
Definition num_truthy (x : num) : bool :=
  match x with
  | Fin q => bool_decide (q ≠ 0%Qc)
  | NaN => true
  end.

Definition truthy (v : value) : bool :=
  match v with
  | VNone => false
  | VNum x => num_truthy x
  | VStr s => bool_decide (s ≠ "")
  end.

(** [a or b] *)
Definition py_or (a b : value) : value := if truthy a then a else b.
Definition num_or (a b : num) : num := if num_truthy a then a else b.

(** [d.get(k, dflt)] and [d.get(k)] *)
Definition dict_get (d : dict) (k : string) (dflt : value) : value :=
  default dflt (d !! k).
Definition dict_get_none (d : dict) (k : string) : value := dict_get d k VNone.

(** The entry of a dict literal under a key. *)
Fixpoint assoc (k : string) (l : list (string * value)) : option value :=
  match l with
  | [] => None
  | (k', v) :: l' => if String.eqb k' k then Some v else assoc k l'
  end.

(** [bool(d)] for a dict *)
Definition dict_truthy (d : dict) : bool := bool_decide (d ≠ ∅).

(** [-x] and [abs(x)] on numbers *)
Definition num_neg (x : num) : num :=
  match x with
  | Fin q => Fin (- q)%Qc
  | NaN => NaN
  end.

Definition Qc_abs (q : Qc) : Qc := if bool_decide (q < 0)%Qc then (- q)%Qc else q.

(** [a < b] as [list.sort] uses it: numbers compare with numbers (every
    comparison with NaN is false), strings with strings; anything else is a
    [TypeError]. *)
Definition num_lt (x y : num) : bool :=
  match x, y with
  | Fin p, Fin q => bool_decide (p < q)%Qc
  | _, _ => false
  end.

Definition py_lt (a b : value) : result bool :=
  match a, b with
  | VNum x, VNum y => Ok (num_lt x y)
  | VStr s, VStr t => Ok (String.ltb s t)
  | _, _ => Raise TypeError
  end.

(** [s.replace(old, new)] for a non-empty [old]: all non-overlapping
    occurrences, leftmost first.  [skip] counts the characters of a match
    still to be dropped. *)
Fixpoint replace_go (old new : string) (skip : nat) (s : string) : string :=
  match s with
  | EmptyString => EmptyString
  | String c s' =>
      match skip with
      | S k => replace_go old new k s'
      | O =>
          if String.prefix old s
          then new +:+ replace_go old new (pred (String.length old)) s'
          else String c (replace_go old new 0 s')
      end
  end.

Definition str_replace (old new s : string) : string := replace_go old new 0 s.

(** ** The option chain as the provider sends it

    One row per strike.  [CE] and [PE] are [Some d] when the row holds a
    JSON object under that key and [None] otherwise (key absent, or not an
    object): the code reads them with
    [r.get('CE') if isinstance(r.get('CE'), dict) else {}]. *)
Record chain_row := {
  strikePrice : value;
  CE : option dict;
  PE : option dict;
}.

(** The lookup table of the merger: [(strike, expiry) -> side -> detail]. *)
Abbreviation details_map := (gmap (value * value) (gmap string dict)).

(** [d[k]] *)
Definition subscript (d : dict) (k : string) : result value :=
  match d !! k with
  | Some v => Ok v
  | None => Raise KeyError
  end.

(** [v == 0] for a cell that may hold anything *)
Definition is_zero (v : value) : bool := bool_decide (v = VInt 0).

(** ** [sorted]: a stable sort that only asks [<]

    CPython's [list.sort] is stable and compares with [<] only.  On keys
    that [<] orders totally every stable sort returns the same list, so the
    insertion sort below is [sorted] there.  A comparison of a number with a
    string or with [None] raises [TypeError], here as there.  The outcome of
    CPython's merge strategy on keys that include NaN is not modelled: the
    theorems about order assume NaN-free keys. *)
Section Sorted.
Context {A : Type} (lt : A → A → result bool).

Fixpoint insert_sorted (x : A) (l : list A) : result (list A) :=
  match l with
  | [] => Ok [x]
  | y :: l' =>
      b ← lt y x;
      if b : bool then (r ← insert_sorted x l'; Ok (y :: r)) else Ok (x :: y :: l')
  end.

Fixpoint py_sorted (l : list A) : result (list A) :=
  match l with
  | [] => Ok []
  | x :: l' => s ← py_sorted l'; insert_sorted x s
  end.

(** The same sort when no comparison raises: [ltb] is the [<] then. *)
Context (ltb : A → A → bool).

Fixpoint insert_pure (x : A) (l : list A) : list A :=
  match l with
  | [] => [x]
  | y :: l' => if ltb y x then y :: insert_pure x l' else x :: y :: l'
  end.

Fixpoint isort (l : list A) : list A :=
  match l with
  | [] => []
  | x :: l' => insert_pure x (isort l')
  end.

(** The order of a sorted list: [b] is not below [a] when [a] comes first. *)
Definition not_after (a b : A) : Prop := ltb b a = false.

End Sorted.

(** [sorted(l, key=f)] *)
Definition sorted_by {A} (key : A → value) (l : list A) : result (list A) :=
  py_sorted (λ a b, py_lt (key a) (key b)) l.

(** ** Concrete conversions for the examples

    The theorems hold for every number grammar and every number printer.
    The examples run with a reader of plain signed decimals ([21000],
    [-12.5]) and a printer that is Python's on whole numbers, which is what
    the strikes of the examples are (it prints any other number as a
    fraction, which Python does not, and no example prints one). *)

Definition digit_of (c : ascii) : option Z :=
  let n := Z.of_nat (Ascii.nat_of_ascii c) in
  if bool_decide (48 ≤ n ≤ 57)%Z then Some (n - 48)%Z else None.

Fixpoint parse_frac (n : Z) (d : positive) (s : string) : option Q :=
  match s with
  | EmptyString => Some (n # d)
  | String c s' => k ← digit_of c; parse_frac (10 * n + k)%Z (10 * d)%positive s'
  end.

Fixpoint parse_int (seen_digit : bool) (n : Z) (s : string) : option Q :=
  match s with
  | EmptyString => if seen_digit then Some (n # 1) else None
  | String c s' =>
      if bool_decide (c = "."%char)
      then (if seen_digit then parse_frac n 1 s' else None)
      else k ← digit_of c; parse_int true (10 * n + k)%Z s'
  end.

Definition parse_decimal (s : string) : option Qc :=
  match s with
  | String c s' =>
      if bool_decide (c = "-"%char)
      then (λ q, Q2Qc (- q)) <$> parse_int false 0 s'
      else Q2Qc <$> parse_int false 0 s
  | EmptyString => None
  end.

Definition str_of_whole (x : num) : string :=
  match x with
  | Fin q =>
      if bool_decide (Qden q = 1%positive) then pretty (Qnum q)
      else pretty (Qnum q) +:+ "/" +:+ pretty (Z.pos (Qden q))
  | NaN => "nan"
  end.

(** ** Data of the examples *)

Definition jan30 : value := VStr "30-Jan-2025".

(** The chain of the specification's merger example: strike 21000 with a
    call side of open interest 120000, change 15000 and percent change 5. *)
Definition chain_21000 : list chain_row :=
  [ {| strikePrice := VInt 21000;
       CE := Some (list_to_map
                     [ ("openInterest", VInt 120000);
                       ("changeinOpenInterest", VInt 15000);
                       ("pChange", VInt 5) ]);
       PE := None |} ].

(** An active-call summary at strike 21000 without an [OI] field. *)
Definition call_21000 : dict :=
  list_to_map [ ("strikePrice", VInt 21000); ("optionType", VStr "Call") ].

(** The table that [chain_21000] gives with [jan30] as the nearest expiry. *)
Definition detail_21000 : dict :=
  list_to_map
    [ ("openInterest", VInt 120000); ("changeinOpenInterest", VInt 15000);
      ("totalBuyQuantity", VInt 0); ("totalSellQuantity", VInt 0);
      ("pChange", VInt 5); ("lastPrice", VInt 0); ("totalTradedVolume", VInt 0) ].

Definition table_21000 : details_map :=
  {[ (VInt 21000, jan30) := {[ "CE" := detail_21000 ]} ]}.

(** A summary without a strike price, and one without a side label. *)
Definition call_no_strike : dict := {[ "optionType" := VStr "Call" ]}.
Definition strike_no_label : dict := {[ "strikePrice" := VInt 21000 ]}.

(** A chain row whose call side reports a traded volume, and an active-call
    summary for the same contract with a volume of its own. *)
Definition chain_volume : list chain_row :=
  [ {| strikePrice := VInt 21000;
       CE := Some (list_to_map
                     [ ("expiryDate", jan30);
                       ("openInterest", VInt 120000);
                       ("totalTradedVolume", VInt 5000) ]);
       PE := None |} ].

Definition call_volume : dict :=
  list_to_map
    [ ("strikePrice", VInt 21000); ("optionType", VStr "Call");
      ("expiryDate", jan30); ("volume", VInt 777) ].

(** The table that [chain_volume] gives. *)
Definition table_volume : details_map :=
  {[ (VInt 21000, jan30) :=
       {[ "CE" := list_to_map
                    [ ("openInterest", VInt 120000); ("changeinOpenInterest", VInt 0);
                      ("totalBuyQuantity", VInt 0); ("totalSellQuantity", VInt 0);
                      ("pChange", VInt 0); ("lastPrice", VInt 0);
                      ("totalTradedVolume", VInt 0) ] ]} ]}.



(** Three active calls in the order 21500, 21000, 21200. *)
Definition call_at (strike : Z) : dict :=
  list_to_map [ ("strikePrice", VInt strike); ("optionType", VStr "Call") ].

Definition calls_unsorted : list dict := [ call_at 21500; call_at 21000; call_at 21200 ].

(** A chain with two rows for the same strike and side: percent change 25
    in the first and 15 in the second. *)
Definition chain_twice : list chain_row :=
  [ {| strikePrice := VInt 21000;
       CE := Some {[ "pChange" := VInt 25 ]};
       PE := None |};
    {| strikePrice := VInt 21000;
       CE := Some {[ "pChange" := VInt 15 ]};
       PE := None |} ].

(** An index-statistics table with a price-earnings ratio of 30. *)
Definition stats_pe30 : list dict := [ {[ "peRatio" := VInt 30 ]} ].

(** A transaction list with one disclosure, without date, company or
    transaction type; the pandas operations that it does not reach. *)
Definition one_disclosure : list dict :=
  [ list_to_map [ ("symbol", VStr "ACME"); ("secVal", VInt 1000) ] ].

Definition keep_order (df : list dict) : list dict := df.
Definition any_column (_ : list value) : bool := true.
Definition same_case (s : string) : string := s.
Definition no_groups (_ : list dict) : result (list dict) := Ok [].

(** ** The news list (news.py, lines 45-73)

    [get_news] starts from the entries of the parsed feed.  Fetching an
    article (the title, the date string and the text of the page, or
    nothing), shortening a text to 500 characters and reading a date are
    taken as they come.  A date that was read is a point in time, with a
    time zone or without; Python orders two of them only when both have one
    or neither has, and raises [TypeError] otherwise. *)

Module News.

Record feed_entry := {
  entry_link : string;
  entry_title : string;
  entry_published : option string;
}.

Record parsed_date := {
  instant : Z;
  aware : bool;
}.

Record news_item := {
  title : string;
  link : string;
  published_date : string;
  summary : string;
}.

(** [(a is None, a) < (b is None, b)] on two sort keys: tuples are
    compared at the first place where they are not equal. *)
Definition date_lt (a b : option parsed_date) : result bool :=
  match a, b with
  | Some x, Some y =>
      if bool_decide (aware x = aware y) then Ok (instant x <? instant y)%Z
      else Raise TypeError
  | Some _, None => Ok true
  | None, _ => Ok false
  end.

(** The same order when nothing raises. *)
Definition date_ltb (a b : option parsed_date) : bool :=
  match a, b with
  | Some x, Some y => (instant x <? instant y)%Z
  | Some _, None => true
  | None, _ => false
  end.

(** [l.sort(key=..., reverse=True)]: the list is reversed, sorted by a
    stable sort, and reversed again. *)
Definition sort_reverse {A} (lt : A → A → result bool) (l : list A) : result (list A) :=
  s ← py_sorted lt (reverse l); Ok (reverse s).

(** [l[:limit]] *)
Definition py_slice_to {A} (limit : Z) (l : list A) : list A :=
  if bool_decide (0 ≤ limit)%Z then take (Z.to_nat limit) l
  else take (length l - Z.to_nat (- limit)) l.

Section Fetcher.
Context (fetch_article_content : string → option (string * string * string)).
Context (summarize_content : string → string).
Context (parse_date : string → option parsed_date).

(** One turn of the loop: the item and its [_date_obj]. *)
Definition news_of (entry : feed_entry) : news_item * option parsed_date :=
  let fallback :=
    (entry_title entry, default "No date" (entry_published entry),
     "Content not available") in
  let '(title, date_str, content) :=
    match fetch_article_content (entry_link entry) with
    | Some (title, date_str, content) =>
        if bool_decide (content ≠ "") then (title, date_str, content) else fallback
    | None => fallback
    end in
  ({| title := title; link := entry_link entry; published_date := date_str;
      summary := summarize_content content |},
   parse_date date_str).

(** The list before the temporary field is removed. *)
Definition ranked_news (limit : Z) (entries : list feed_entry)
    : result (list (news_item * option parsed_date)) :=
  sort_reverse (λ a b, date_lt a.2 b.2) (news_of <$> py_slice_to limit entries).

Definition get_news (limit : Z) (entries : list feed_entry) : result (list news_item) :=
  news_list ← ranked_news limit entries; Ok (news_list.*1).

End Fetcher.

(** The point in time of an item, if its date was read. *)
Definition date_key (x : news_item * option parsed_date) : option Z :=
  instant <$> x.2.

(** [a] may come before [b]: no date before any date, and a later date
    before an earlier one. *)
Definition before (a b : news_item * option parsed_date) : Prop :=
  match date_key a, date_key b with
  | None, _ => True
  | Some _, None => False
  | Some s, Some t => (t ≤ s)%Z
  end.

End News.

(** A fetcher for the examples: no page can be fetched, texts are kept as
    they are, and three date strings are read. *)
Definition no_article (_ : string) : option (string * string * string) := None.
Definition keep_text (s : string) : string := s.
Definition read_date (s : string) : option News.parsed_date :=
  if String.eqb s "2024-01-01T00:00:00"
  then Some {| News.instant := 1; News.aware := false |}
  else if String.eqb s "2024-01-02T00:00:00"
  then Some {| News.instant := 2; News.aware := false |}
  else if String.eqb s "2024-01-03T00:00:00+00:00"
  then Some {| News.instant := 3; News.aware := true |}
  else None.

Definition older_entry : News.feed_entry :=
  {| News.entry_link := "https://example.org/a"; News.entry_title := "Older";
     News.entry_published := Some "2024-01-01T00:00:00" |}.
Definition undated_entry : News.feed_entry :=
  {| News.entry_link := "https://example.org/b"; News.entry_title := "Undated";
     News.entry_published := None |}.
Definition newer_entry : News.feed_entry :=
  {| News.entry_link := "https://example.org/c"; News.entry_title := "Newer";
     News.entry_published := Some "2024-01-02T00:00:00" |}.
Definition zoned_entry : News.feed_entry :=
  {| News.entry_link := "https://example.org/d"; News.entry_title := "Zoned";
     News.entry_published := Some "2024-01-03T00:00:00+00:00" |}.

(** ** The engine of [get_nifty_data] *)

Section Engine.

(** How pandas reads a string as a number ([None]: it cannot). *)
Context (parse_number : string → option Qc).

(** [pd.to_numeric(v, errors='coerce')] on a scalar: a number is returned
    as it is, a string is parsed, and whatever cannot be read, [None]
    included, becomes NaN. *)
Definition to_numeric (v : value) : num :=
  match v with
  | VNone => NaN
  | VNum x => x
  | VStr s =>
      match parse_number s with
      | Some q => Fin q
      | None => NaN
      end
  end.

(** The normalizer, [pd.to_numeric(v, errors='coerce') or dflt]. *)
Definition normalize (v : value) (dflt : num) : num :=
  num_or (to_numeric v) dflt.

(** [pd.to_numeric(col, errors='coerce').fillna(0)], cell by cell. *)
Definition fillna0 (x : num) : Qc :=
  match x with
  | Fin q => q
  | NaN => 0%Qc
  end.

Definition numeric_cell (v : value) : Qc := fillna0 (to_numeric v).

(** *** Flattening the chain (main.py, lines 335-399) *)

(** [alert_ce_opt] / [alert_pe_opt] *)
Definition alert_opt (strike : value) (typ : string) (expiry : value)
    (data : dict) : dict :=
  list_to_map
    [ ("strikePrice", strike);
      ("optionType", VStr typ);
      ("expiryDate", expiry);
      ("OI", VNum (normalize (dict_get data "openInterest" (VInt 0)) (int 0)));
      ("COI", VNum (normalize (dict_get data "changeinOpenInterest" (VInt 0)) (int 0)));
      ("TBQ", VNum (normalize (dict_get data "totalBuyQuantity" (VInt 0)) (int 0)));
      ("TSQ", VNum (normalize (dict_get data "totalSellQuantity" (VInt 0)) (int 0)));
      ("pchange", VNum (normalize (dict_get data "pChange" (VInt 0)) (int 0)));
      ("lastPrice", VNum (normalize (dict_get data "lastPrice" (VInt 0)) (int 0))) ].

(** The body of the loop over [option_rows_from_oc], as far as
    [all_options_for_alerts] goes. *)
Definition alert_rows_of (nearest_expiry : value) (r : chain_row) : list dict :=
  let strike := strikePrice r in
  if bool_decide (strike = VNone) then []
  else
    let ce_data := default ∅ (CE r) in
    let pe_data := default ∅ (PE r) in
    let current_expiry_for_option :=
      py_or (py_or (dict_get_none ce_data "expiryDate")
                   (dict_get_none pe_data "expiryDate"))
            nearest_expiry in
    (if dict_truthy ce_data
     then [alert_opt strike "CE" current_expiry_for_option ce_data] else [])
    ++
    (if dict_truthy pe_data
     then [alert_opt strike "PE" current_expiry_for_option pe_data] else []).

Definition all_options_for_alerts (nearest_expiry : value)
    (option_rows_from_oc : list chain_row) : list dict :=
  option_rows_from_oc ≫= alert_rows_of nearest_expiry.

(** *** The lookup table (main.py, lines 406-427) *)

(** The dict literal stored under [oc_details_map[key][opt_type_char]]. *)
Definition detail_of (opt : dict) : result dict :=
  oi ← subscript opt "OI";
  coi ← subscript opt "COI";
  tbq ← subscript opt "TBQ";
  tsq ← subscript opt "TSQ";
  pchange ← subscript opt "pchange";
  last_price ← subscript opt "lastPrice";
  Ok (list_to_map
        [ ("openInterest", oi);
          ("changeinOpenInterest", coi);
          ("totalBuyQuantity", tbq);
          ("totalSellQuantity", tsq);
          ("pChange", pchange);
          ("lastPrice", last_price);
          ("totalTradedVolume", dict_get opt "volume" (VInt 0)) ]).

Definition oc_details_step (m : details_map) (opt : dict) : result details_map :=
  let sp := dict_get_none opt "strikePrice" in
  let opt_type_char := dict_get_none opt "optionType" in
  let exp_date := dict_get_none opt "expiryDate" in
  match opt_type_char with
  | VStr side =>
      if bool_decide (sp ≠ VNone) && bool_decide (side ∈ ["CE"; "PE"])
         && truthy exp_date
      then
        let key := (sp, exp_date) in
        let m1 := if bool_decide (is_Some (m !! key)) then m else <[key := ∅]> m in
        d ← detail_of opt;
        Ok (<[key := <[side := d]> (default ∅ (m1 !! key))]> m1)
      else Ok m
  | _ => Ok m
  end.

Fixpoint oc_details_loop (m : details_map) (opts : list dict) : result details_map :=
  match opts with
  | [] => Ok m
  | opt :: rest => m' ← oc_details_step m opt; oc_details_loop m' rest
  end.

Definition oc_details_map (opts : list dict) : result details_map :=
  oc_details_loop ∅ opts.

(** The detail that the table holds for an alert row: everything but the
    volume comes from the row. *)
Definition detail_of_row (opt : dict) : dict :=
  list_to_map
    [ ("openInterest", dict_get_none opt "OI");
      ("changeinOpenInterest", dict_get_none opt "COI");
      ("totalBuyQuantity", dict_get_none opt "TBQ");
      ("totalSellQuantity", dict_get_none opt "TSQ");
      ("pChange", dict_get_none opt "pchange");
      ("lastPrice", dict_get_none opt "lastPrice");
      ("totalTradedVolume", VInt 0) ].

Definition is_alert_row (opt : dict) : Prop :=
  ∃ strike typ expiry data, opt = alert_opt strike typ expiry data.

(** Every detail of the table reports a traded volume of zero. *)
Definition volume_free (m : details_map) : Prop :=
  ∀ key sides side (detail : dict),
    m !! key = Some sides → sides !! side = Some detail →
    detail !! "totalTradedVolume" = Some (VInt 0).

(** *** [enrich_contracts] (main.py, lines 429-478) *)

Definition translate_side (s : string) : string :=
  str_replace "Index" "XX" (str_replace "Put" "PE" (str_replace "Call" "CE" s)).

(** [opt_type_raw.replace(...)]: only a string has [replace]. *)
Definition replace_option_type (opt_type_raw : value) : result string :=
  match opt_type_raw with
  | VStr s => Ok (translate_side s)
  | _ => Raise AttributeError
  end.

Definition oc_type_key_of (opt_type_raw : value) : option string :=
  if bool_decide (opt_type_raw = VStr "Call") then Some "CE"
  else if bool_decide (opt_type_raw = VStr "Put") then Some "PE"
  else None.

(** The detail found for a summary, if the guarded lookup finds one. *)
Definition lookup_detail (m : details_map) (sp : value) (oc_type_key : option string)
    (lookup_expiry : value) : option dict :=
  match oc_type_key with
  | Some side =>
      if bool_decide (sp ≠ VNone) && truthy lookup_expiry
      then m !! (sp, lookup_expiry) ≫= (λ sides, sides !! side)
      else None
  | None => None
  end.

(** The dict handed to [merged_contract.update]. *)
Definition detail_update (detail : dict) : dict :=
  list_to_map
    [ ("OI", VNum (normalize (dict_get detail "openInterest" (VInt 0)) (int 0)));
      ("COI", VNum (normalize (dict_get detail "changeinOpenInterest" (VInt 0)) (int 0)));
      ("TBQ", VNum (normalize (dict_get detail "totalBuyQuantity" (VInt 0)) (int 0)));
      ("TSQ", VNum (normalize (dict_get detail "totalSellQuantity" (VInt 0)) (int 0)));
      ("pchange", VNum (normalize (dict_get detail "pChange" (VInt 0)) (int 0)));
      ("lastPrice", VNum (normalize (dict_get detail "lastPrice" (VInt 0)) (int 0)));
      ("volume", VNum (normalize (dict_get detail "totalTradedVolume" (VInt 0)) (int 0))) ].

Definition min_tick : num := ratio 5 100.

Definition display (v : value) : value := if is_zero v then VStr "-" else v.

(** [merged[k] = f(merged)] *)
Definition assign (k : string) (f : dict → value) (merged : dict) : dict :=
  <[k := f merged]> merged.

(** Lines 459-475: what happens to [merged_contract] after the lookup. *)
Definition finish_contract (nearest_expiry : value) (option_type : string)
    (merged : dict) : dict :=
  let merged := assign "optionType" (λ _, VStr option_type) merged in
  let merged :=
    assign "lastPrice"
      (λ merged, VNum (normalize (dict_get merged "lastPrice" (VNum min_tick)) min_tick))
      merged in
  let merged :=
    assign "volume"
      (λ merged, VNum (normalize (dict_get merged "volume" (VInt 0)) (int 0)))
      merged in
  let merged := assign "value" (λ merged, dict_get merged "value" (VStr "-")) merged in
  let merged :=
    assign "pchange"
      (λ merged, VNum (normalize (dict_get merged "pchange" (VInt 0)) (int 0)))
      merged in
  let display_oi := dict_get merged "OI" (VInt 0) in
  let display_coi := dict_get merged "COI" (VInt 0) in
  let display_volume := dict_get merged "volume" (VInt 0) in
  let merged := assign "OI_display" (λ _, display display_oi) merged in
  let merged := assign "COI_display" (λ _, display display_coi) merged in
  let merged := assign "volume_display" (λ _, display display_volume) merged in
  assign "expiryDate"
    (λ merged,
       dict_get merged "expiryDate"
         (if truthy nearest_expiry then nearest_expiry else VStr "N/A"))
    merged.

(** The keys that lines 459-475 assign. *)
Definition finished_keys : list string :=
  [ "optionType"; "lastPrice"; "volume"; "value"; "pchange";
    "OI_display"; "COI_display"; "volume_display"; "expiryDate" ].

(** The lookup that a summary triggers (lines 432-447). *)
Definition lookup_expiry_of (nearest_expiry : value) (contract : dict) : value :=
  py_or (dict_get_none contract "expiryDate") nearest_expiry.

Definition found_detail (m : details_map) (nearest_expiry : value)
    (contract : dict) : option dict :=
  lookup_detail m (dict_get_none contract "strikePrice")
    (oc_type_key_of (dict_get_none contract "optionType"))
    (lookup_expiry_of nearest_expiry contract).

(** The summary has a match in the table: its strike is there, its side
    label is [Call] or [Put], and the table holds a detail for that side
    under (strike, own expiry or else the nearest one). *)
Definition chain_match (m : details_map) (nearest_expiry : value)
    (contract detail : dict) : Prop :=
  ∃ side sides,
    oc_type_key_of (dict_get_none contract "optionType") = Some side
    ∧ dict_get_none contract "strikePrice" ≠ VNone
    ∧ truthy (lookup_expiry_of nearest_expiry contract) = true
    ∧ m !! (dict_get_none contract "strikePrice",
            lookup_expiry_of nearest_expiry contract) = Some sides
    ∧ sides !! side = Some detail.

(** [merged_contract] after lines 439-457. *)
Definition merge_detail (m : details_map) (nearest_expiry : value)
    (contract : dict) : dict :=
  match found_detail m nearest_expiry contract with
  | Some detail => detail_update detail ∪ contract
  | None => contract
  end.

(** One turn of the loop of [enrich_contracts]. *)
Definition enrich_contract (m : details_map) (nearest_expiry : value)
    (contract : dict) : result dict :=
  let opt_type_raw := dict_get_none contract "optionType" in
  let merged_contract := merge_detail m nearest_expiry contract in
  option_type ← replace_option_type opt_type_raw;
  Ok (finish_contract nearest_expiry option_type merged_contract).

(** What the merger promises about the quote fields of an enriched record:
    taken from the matched detail, through the normalizer ([lastPrice] with
    the minimum tick as its default), or else the summary's own. *)
Definition overridden (detail merged : dict) : Prop :=
  merged !! "OI"
    = Some (VNum (normalize (dict_get detail "openInterest" (VInt 0)) (int 0)))
  ∧ merged !! "COI"
    = Some (VNum (normalize (dict_get detail "changeinOpenInterest" (VInt 0)) (int 0)))
  ∧ merged !! "TBQ"
    = Some (VNum (normalize (dict_get detail "totalBuyQuantity" (VInt 0)) (int 0)))
  ∧ merged !! "TSQ"
    = Some (VNum (normalize (dict_get detail "totalSellQuantity" (VInt 0)) (int 0)))
  ∧ merged !! "pchange"
    = Some (VNum (normalize (dict_get detail "pChange" (VInt 0)) (int 0)))
  ∧ merged !! "lastPrice"
    = Some (VNum (normalize (dict_get detail "lastPrice" (VInt 0)) min_tick)).

Definition kept (contract merged : dict) : Prop :=
  merged !! "OI" = contract !! "OI"
  ∧ merged !! "COI" = contract !! "COI"
  ∧ merged !! "TBQ" = contract !! "TBQ"
  ∧ merged !! "TSQ" = contract !! "TSQ"
  ∧ merged !! "pchange"
    = Some (VNum (normalize (dict_get contract "pchange" (VInt 0)) (int 0)))
  ∧ merged !! "lastPrice"
    = Some (VNum (normalize (dict_get contract "lastPrice" (VNum min_tick)) min_tick)).

(** A summary whose side label is a string: the only kind that line 459
    lets through. *)
Definition has_label (c : dict) : Prop := ∃ s, c !! "optionType" = Some (VStr s).

Definition label_of (c : dict) : string :=
  match c !! "optionType" with
  | Some (VStr s) => s
  | _ => ""
  end.

(** What [enrich_contract] returns for a summary with a label. *)
Definition enriched_record (m : details_map) (nearest_expiry : value)
    (c : dict) : dict :=
  finish_contract nearest_expiry (translate_side (label_of c))
    (merge_detail m nearest_expiry c).

(** The keys that the merger may write. *)
Definition written_keys : list string :=
  [ "OI"; "COI"; "TBQ"; "TSQ" ] ++ finished_keys.

(** [merged] is what the merger emits for the summary [c]: every field of
    [c] that the merger does not write is there unchanged, the strike
    included (absent if it was absent), and the defaulted fields are set. *)
Definition emitted (c merged : dict) : Prop :=
  (∀ k, k ∉ written_keys → merged !! k = c !! k)
  ∧ merged !! "optionType" = Some (VStr (translate_side (label_of c)))
  ∧ Forall (λ k, is_Some (merged !! k))
      [ "lastPrice"; "volume"; "value"; "pchange"; "OI_display"; "COI_display";
        "volume_display"; "expiryDate" ].

Fixpoint enrich_contracts (m : details_map) (nearest_expiry : value)
    (contract_list : list dict) : result (list dict) :=
  match contract_list with
  | [] => Ok []
  | contract :: rest =>
      merged ← enrich_contract m nearest_expiry contract;
      enriched ← enrich_contracts m nearest_expiry rest;
      Ok (merged :: enriched)
  end.

(** *** Ranking (main.py, lines 480-494) *)

(** Numbers as sort keys: the rational behind a finite number, and [<] on
    it.  On finite numbers this is Python's [<]. *)
Definition val_num (v : value) : Qc :=
  match v with
  | VNum (Fin q) => q
  | _ => 0%Qc
  end.

Definition val_ltb (u v : value) : bool := bool_decide (val_num u < val_num v)%Qc.

Definition key_ltb {A} (key : A → value) (a b : A) : bool :=
  val_ltb (key a) (key b).

Definition is_finite (v : value) : Prop := ∃ q, v = VNum (Fin q).


Definition strike_key (x : dict) : value := dict_get x "strikePrice" (VInt 0).

(** [calls_enriched] and [puts_enriched] *)
Definition sorted_enriched (m : details_map) (nearest_expiry : value)
    (raw : list dict) : result (list dict) :=
  enriched ← enrich_contracts m nearest_expiry raw;
  sorted_by strike_key enriched.

Definition is_index (c : dict) : Prop := dict_get_none c "optionType" = VStr "XX".

Definition oi_key (x : dict) : value :=
  VNum (num_neg (normalize (dict_get x "OI" (VInt 0)) (int 0))).

Definition rank_by_oi (oi_enriched_temp : list dict) : result (list dict) :=
  let index_contract := head (filter is_index oi_enriched_temp) in
  let oi_contracts_only := filter (λ c, ¬ is_index c) oi_enriched_temp in
  oi_sorted ← sorted_by oi_key oi_contracts_only;
  match index_contract with
  | Some c => if dict_truthy c then Ok (c :: oi_sorted) else Ok oi_sorted
  | None => Ok oi_sorted
  end.

Definition oi_sorted (m : details_map) (nearest_expiry : value)
    (raw : list dict) : result (list dict) :=
  oi_enriched_temp ← enrich_contracts m nearest_expiry raw;
  rank_by_oi oi_enriched_temp.

(** The normalized open interest that the ranking sorts by. *)
Definition normalized_oi (x : dict) : num :=
  normalize (dict_get x "OI" (VInt 0)) (int 0).



Definition strike_ascending (l : list dict) : Prop :=
  StronglySorted (λ a b, (val_num (strike_key a) ≤ val_num (strike_key b))%Qc) l.

(** The merger run on a chain: table first, enrichment next. *)
Definition enrich_from_chain (nearest_expiry : value)
    (option_rows_from_oc : list chain_row) (raw : list dict) : result (list dict) :=
  m ← oc_details_map (all_options_for_alerts nearest_expiry option_rows_from_oc);
  enrich_contracts m nearest_expiry raw.

(** ** [generate_alerts] (main.py, lines 127-254)

    A [DataFrame] built from a list of records is that list: its columns are
    the keys that occur in some record, a cell whose record lacks the key
    holds NaN, and the frame is empty when it has no row or no column. *)

Definition df_columns (df : list dict) : gset string := ⋃ (dom <$> df).

Definition df_empty (df : list dict) : bool :=
  bool_decide (df = []) || bool_decide (df_columns df = ∅).

Definition df_cell (row : dict) (c : string) : value := dict_get row c (VNum NaN).

(** [row.get(c)] on a row of the frame *)
Definition row_get (columns : gset string) (row : dict) (c : string) : value :=
  if bool_decide (c ∈ columns) then df_cell row c else VNone.

(** [df[c]] *)
Definition require_column (df : list dict) (c : string) : result unit :=
  if bool_decide (c ∈ df_columns df) then Ok () else Raise KeyError.

(** [pd.to_numeric(df.get(c, pd.Series([dflt])), errors='coerce').iloc[0]],
    followed by the [pd.isna] replacement of lines 151-155. *)
Definition first_stat (df : list dict) (c : string) (dflt : num) : result Qc :=
  let series :=
    if bool_decide (c ∈ df_columns df) then (λ r, df_cell r c) <$> df
    else [VNum dflt] in
  match series with
  | v :: _ => Ok (fillna0 (to_numeric v))
  | [] => Raise IndexError
  end.

Definition Qz (z : Z) : Qc := Qc_of_Z z.
Definition three_quarters : Qc := Q2Qc (3 # 4).
Definition one_and_a_half : Qc := Q2Qc (3 # 2).

Definition fair_valuation (pe : Qc) : string :=
  if bool_decide (Qz 25 < pe)%Qc then "PE ratio is high, suggesting overvaluation."
  else if bool_decide (0 < pe)%Qc && bool_decide (pe < Qz 15)%Qc
  then "PE ratio is low, suggesting undervaluation."
  else if bool_decide (0 < pe)%Qc then "PE ratio is within normal range."
  else "PE ratio data not available or invalid.".

Definition market_breadth (adv dec : Qc) : string :=
  if bool_decide (0 < adv + dec)%Qc then
    if bool_decide (three_quarters < adv / (adv + dec))%Qc
    then "Majority of stocks are advancing (Bullish sentiment)."
    else if bool_decide (three_quarters < dec / (adv + dec))%Qc
    then "Majority of stocks are declining (Bearish sentiment)."
    else "Mixed sentiment across market breadth."
  else "Market breadth data not available.".

Definition buying_interest (adv_turn dec_turn : Qc) : string :=
  if bool_decide (0 < adv_turn + dec_turn)%Qc then
    if bool_decide (three_quarters < adv_turn / (adv_turn + dec_turn))%Qc
    then "Turnover concentrated in advancing stocks (Strong Buying Interest)."
    else if bool_decide (three_quarters < dec_turn / (adv_turn + dec_turn))%Qc
    then "Turnover concentrated in declining stocks (Strong Selling Interest)."
    else "Turnover is balanced across advancing and declining stocks."
  else "Turnover data not available.".

(** A list bucket of [alerts_data] together with its [seen_*] set. *)
Record bucket := {
  keys : list string;
  seen : gset string;
}.

Definition empty_bucket : bucket := {| keys := []; seen := ∅ |}.

(** [if key not in seen: bucket.append(key); seen.add(key)] *)
Definition bucket_add (key : string) (b : bucket) : bucket :=
  if bool_decide (key ∈ seen b) then b
  else {| keys := keys b ++ [key]; seen := {[key]} ∪ seen b |}.

Record buckets := {
  b_momentum : bucket;
  b_unwinding : bucket;
  b_fresh_longs : bucket;
  b_buyer_dominance : bucket;
  b_seller_dominance : bucket;
}.

Definition empty_buckets : buckets :=
  {| b_momentum := empty_bucket; b_unwinding := empty_bucket;
     b_fresh_longs := empty_bucket; b_buyer_dominance := empty_bucket;
     b_seller_dominance := empty_bucket |}.

(** The five threshold rules of the loop body, on the cleaned columns. *)
Definition is_momentum (pchange_val : Qc) : bool :=
  bool_decide (Qz 20 < Qc_abs pchange_val)%Qc.

Definition is_unwinding (oi coi : Qc) : bool :=
  bool_decide (Qz 50000 < oi)%Qc && bool_decide (coi < Qz (-10000))%Qc.

Definition is_fresh_longs (oi coi : Qc) : bool :=
  bool_decide (Qz 50000 < oi)%Qc && bool_decide (Qz 10000 < coi)%Qc.

Definition is_buyer_dominance (tbq tsq : Qc) : bool :=
  bool_decide (0 < tsq)%Qc && bool_decide (tsq * one_and_a_half < tbq)%Qc
  && bool_decide (Qz 50000 < tbq)%Qc.

Definition is_seller_dominance (tbq tsq : Qc) : bool :=
  bool_decide (0 < tbq)%Qc && bool_decide (tbq * one_and_a_half < tsq)%Qc
  && bool_decide (Qz 50000 < tsq)%Qc.

(** How Python prints a number (in an f-string). *)
Context (str_of_num : num → string).

Definition py_str (v : value) : string :=
  match v with
  | VNone => "None"
  | VNum x => str_of_num x
  | VStr s => s
  end.

(** [f"{strike} {typ}"] *)
Definition alert_key (strike typ : value) : string :=
  py_str strike +:+ " " +:+ py_str typ.

(** The body of [for _, opt in options_for_alerts_df.iterrows()]. *)
Definition classify_row (columns : gset string) (st : buckets) (opt : dict) : buckets :=
  let strike := row_get columns opt "strikePrice" in
  let typ := row_get columns opt "optionType" in
  if bool_decide (strike = VNone) || bool_decide (typ = VNone) then st
  else
    let pchange_val := numeric_cell (df_cell opt "pchange") in
    let oi := numeric_cell (df_cell opt "OI") in
    let coi := numeric_cell (df_cell opt "COI") in
    let tbq := numeric_cell (df_cell opt "TBQ") in
    let tsq := numeric_cell (df_cell opt "TSQ") in
    let key := alert_key strike typ in
    let st :=
      if is_momentum pchange_val
      then {| b_momentum := bucket_add key (b_momentum st);
              b_unwinding := b_unwinding st; b_fresh_longs := b_fresh_longs st;
              b_buyer_dominance := b_buyer_dominance st;
              b_seller_dominance := b_seller_dominance st |}
      else st in
    let st :=
      if is_unwinding oi coi
      then {| b_momentum := b_momentum st;
              b_unwinding := bucket_add key (b_unwinding st);
              b_fresh_longs := b_fresh_longs st;
              b_buyer_dominance := b_buyer_dominance st;
              b_seller_dominance := b_seller_dominance st |}
      else if is_fresh_longs oi coi
      then {| b_momentum := b_momentum st; b_unwinding := b_unwinding st;
              b_fresh_longs := bucket_add key (b_fresh_longs st);
              b_buyer_dominance := b_buyer_dominance st;
              b_seller_dominance := b_seller_dominance st |}
      else st in
    if is_buyer_dominance tbq tsq
    then {| b_momentum := b_momentum st; b_unwinding := b_unwinding st;
            b_fresh_longs := b_fresh_longs st;
            b_buyer_dominance := bucket_add key (b_buyer_dominance st);
            b_seller_dominance := b_seller_dominance st |}
    else if is_seller_dominance tbq tsq
    then {| b_momentum := b_momentum st; b_unwinding := b_unwinding st;
            b_fresh_longs := b_fresh_longs st;
            b_buyer_dominance := b_buyer_dominance st;
            b_seller_dominance := bucket_add key (b_seller_dominance st) |}
    else st.

(** The cleaned columns of a row. *)
Definition pchange_of (opt : dict) : Qc := numeric_cell (df_cell opt "pchange").
Definition oi_of (opt : dict) : Qc := numeric_cell (df_cell opt "OI").
Definition coi_of (opt : dict) : Qc := numeric_cell (df_cell opt "COI").
Definition tbq_of (opt : dict) : Qc := numeric_cell (df_cell opt "TBQ").
Definition tsq_of (opt : dict) : Qc := numeric_cell (df_cell opt "TSQ").

(** The key under which the loop files a row, unless it skips the row. *)
Definition row_key (columns : gset string) (opt : dict) : option string :=
  let strike := row_get columns opt "strikePrice" in
  let typ := row_get columns opt "optionType" in
  if bool_decide (strike = VNone) || bool_decide (typ = VNone) then None
  else Some (alert_key strike typ).

(** The [if] / [elif] of the loop body, rule by rule. *)
Definition row_momentum (opt : dict) : bool := is_momentum (pchange_of opt).
Definition row_unwinding (opt : dict) : bool := is_unwinding (oi_of opt) (coi_of opt).
Definition row_fresh_longs (opt : dict) : bool :=
  negb (row_unwinding opt) && is_fresh_longs (oi_of opt) (coi_of opt).
Definition row_buyer_dominance (opt : dict) : bool :=
  is_buyer_dominance (tbq_of opt) (tsq_of opt).
Definition row_seller_dominance (opt : dict) : bool :=
  negb (row_buyer_dominance opt) && is_seller_dominance (tbq_of opt) (tsq_of opt).

(** The rules in the words of the specification. *)
Definition momentum_rule (opt : dict) : Prop :=
  (Qz 20 < Qc_abs (pchange_of opt))%Qc.
Definition unwinding_rule (opt : dict) : Prop :=
  (Qz 50000 < oi_of opt)%Qc ∧ (coi_of opt < Qz (-10000))%Qc.
Definition fresh_longs_rule (opt : dict) : Prop :=
  ¬ unwinding_rule opt ∧ (Qz 50000 < oi_of opt)%Qc ∧ (Qz 10000 < coi_of opt)%Qc.
Definition buyer_dominance_rule (opt : dict) : Prop :=
  (0 < tsq_of opt)%Qc ∧ (tsq_of opt * one_and_a_half < tbq_of opt)%Qc
  ∧ (Qz 50000 < tbq_of opt)%Qc.
Definition seller_dominance_rule (opt : dict) : Prop :=
  ¬ buyer_dominance_rule opt
  ∧ (0 < tbq_of opt)%Qc ∧ (tbq_of opt * one_and_a_half < tsq_of opt)%Qc
  ∧ (Qz 50000 < tsq_of opt)%Qc.

(** The ["{strike} {side}"] key of a row of the unified options table. *)
Definition contract_key (opt : dict) : string :=
  alert_key (dict_get_none opt "strikePrice") (dict_get_none opt "optionType").

Definition bucket_ok (b : bucket) : Prop :=
  NoDup (keys b) ∧ ∀ k, k ∈ seen b ↔ k ∈ keys b.

Definition lexicographic (l : list string) : Prop := StronglySorted String.le l.

(** [l] is the bucket of [rule] over the table [df]: the keys of the rows
    that satisfy the rule, each once, in lexicographic order. *)
Definition bucket_of (df : list dict) (rule : dict → Prop) (l : list string) : Prop :=
  (∀ k, k ∈ l ↔ ∃ opt, opt ∈ df ∧ contract_key opt = k ∧ rule opt)
  ∧ NoDup l ∧ lexicographic l.

(** [sorted(list(bucket))] on strings *)
Definition sorted_strings (l : list string) : result (list string) :=
  sorted_by VStr l.

(** [alerts_data] *)
Record alerts := {
  fairValuation : string;
  marketBreadth : string;
  buyingInterest : string;
  momentum : list string;
  unwinding : list string;
  freshLongs : list string;
  buyerDominance : list string;
  sellerDominance : list string;
}.

(** The three narratives: lines 132-184. *)
Definition narratives (valuation_df : list dict) : result (string * string * string) :=
  if df_empty valuation_df
  then Ok ("Valuation data unavailable.", "Market breadth data unavailable.",
           "Buying interest data unavailable.")
  else
    pe ← first_stat valuation_df "peRatio" (int 0);
    adv ← first_stat valuation_df "advance_symbol" (int 0);
    dec ← first_stat valuation_df "decline_symbol" (int 0);
    adv_turn ← first_stat valuation_df "advance_top_turnover" (int 0);
    dec_turn ← first_stat valuation_df "decline_top_turnover" (int 0);
    Ok (fair_valuation pe, market_breadth adv dec, buying_interest adv_turn dec_turn).

(** The five list buckets: lines 186-252. *)
Definition list_buckets (options_df : list dict)
    : result (list string * list string * list string * list string * list string) :=
  if df_empty options_df then Ok ([], [], [], [], [])
  else
    _ ← require_column options_df "pchange";
    _ ← require_column options_df "OI";
    _ ← require_column options_df "COI";
    _ ← require_column options_df "TBQ";
    _ ← require_column options_df "TSQ";
    let st := foldl (classify_row (df_columns options_df)) empty_buckets options_df in
    mo ← sorted_strings (keys (b_momentum st));
    un ← sorted_strings (keys (b_unwinding st));
    fl ← sorted_strings (keys (b_fresh_longs st));
    bd ← sorted_strings (keys (b_buyer_dominance st));
    sd ← sorted_strings (keys (b_seller_dominance st));
    Ok (mo, un, fl, bd, sd).

Definition generate_alerts (valuation_df options_df : list dict) : result alerts :=
  '(fv, mb, bi) ← narratives valuation_df;
  '(mo, un, fl, bd, sd) ← list_buckets options_df;
  Ok {| fairValuation := fv; marketBreadth := mb; buyingInterest := bi;
        momentum := mo; unwinding := un; freshLongs := fl;
        buyerDominance := bd; sellerDominance := sd |}.

(** ** The merger on a heap

    [enrich_contracts] works on Python objects: the summaries it is given,
    the copies it makes with [dict(contract)] and then mutates, and the
    lookup table it closes over.  The heap holds the dict objects by
    location, and the table. *)

Record heap := {
  objects : gmap nat dict;
  lookup_table : details_map;
}.

Definition M (A : Type) : Type := heap → result (A * heap).

Definition st_ret {A} (a : A) : M A := λ h, Ok (a, h).

Definition st_bind {A B} (m : M A) (f : A → M B) : M B := λ h,
  match m h with
  | Ok (a, h') => f a h'
  | Raise e => Raise e
  end.

Definition st_raise {A} (e : exn) : M A := λ _, Raise e.

Notation "x ⇐ m ;; k" := (st_bind m (λ x, k))
  (at level 100, m at next level, right associativity,
   format "x  ⇐  m ;;  '/' k").

Definition deref (h : heap) (l : nat) : dict := default ∅ (objects h !! l).

(** The heap [h] with the object at [l] replaced by [d]. *)
Definition with_obj (h : heap) (l : nat) (d : dict) : heap :=
  {| objects := <[l := d]> (objects h); lookup_table := lookup_table h |}.

(** The locations that hold an object. *)
Definition allocated (h : heap) (l : nat) : Prop := l ∈ dom (objects h).

(** [h'] extends [h]: same table, and every object of [h] is there
    unchanged. *)
Definition extends (h h' : heap) : Prop :=
  lookup_table h' = lookup_table h
  ∧ ∀ l, allocated h l → objects h' !! l = objects h !! l.

(** A heap with two summaries, for the examples. *)
Definition heap_two : heap :=
  {| objects := {[ 0 := call_21000; 1 := call_no_strike ]};
     lookup_table := table_21000 |}.

(** [d.get(k, dflt)] on the object at [l] *)
Definition get_at (l : nat) (k : string) (dflt : value) : M value := λ h,
  Ok (dict_get (deref h l) k dflt, h).

(** [dict(d)]: a new object with the entries of the one at [l] *)
Definition copy_dict (l : nat) : M nat := λ h,
  let l' := fresh (dom (objects h)) in
  Ok (l', {| objects := <[l' := deref h l]> (objects h);
             lookup_table := lookup_table h |}).

(** [d[k] = v] on the object at [l] *)
Definition set_at (l : nat) (k : string) (v : value) : M unit := λ h,
  Ok ((), {| objects := <[l := <[k := v]> (deref h l)]> (objects h);
             lookup_table := lookup_table h |}).

(** [d.update(new)] on the object at [l] *)
Definition update_at (l : nat) (new : dict) : M unit := λ h,
  Ok ((), {| objects := <[l := new ∪ deref h l]> (objects h);
             lookup_table := lookup_table h |}).

(** The guarded read of [oc_details_map]. *)
Definition find_detail (sp : value) (oc_type_key : option string)
    (lookup_expiry : value) : M (option dict) := λ h,
  Ok (lookup_detail (lookup_table h) sp oc_type_key lookup_expiry, h).

Definition enrich_contract_st (nearest_expiry : value) (contract : nat) : M nat :=
  sp ⇐ get_at contract "strikePrice" VNone;;
  opt_type_raw ⇐ get_at contract "optionType" VNone;;
  contract_expiry ⇐ get_at contract "expiryDate" VNone;;
  let oc_type_key := oc_type_key_of opt_type_raw in
  merged_contract ⇐ copy_dict contract;;
  let lookup_expiry := py_or contract_expiry nearest_expiry in
  found ⇐ find_detail sp oc_type_key lookup_expiry;;
  _ ⇐ match found with
      | Some detail => update_at merged_contract (detail_update detail)
      | None => st_ret ()
      end;;
  option_type ⇐ match replace_option_type opt_type_raw with
                | Ok s => st_ret s
                | Raise e => st_raise e
                end;;
  _ ⇐ set_at merged_contract "optionType" (VStr option_type);;
  last_price ⇐ get_at merged_contract "lastPrice" (VNum min_tick);;
  _ ⇐ set_at merged_contract "lastPrice" (VNum (normalize last_price min_tick));;
  volume ⇐ get_at merged_contract "volume" (VInt 0);;
  _ ⇐ set_at merged_contract "volume" (VNum (normalize volume (int 0)));;
  val ⇐ get_at merged_contract "value" (VStr "-");;
  _ ⇐ set_at merged_contract "value" val;;
  pchange ⇐ get_at merged_contract "pchange" (VInt 0);;
  _ ⇐ set_at merged_contract "pchange" (VNum (normalize pchange (int 0)));;
  display_oi ⇐ get_at merged_contract "OI" (VInt 0);;
  display_coi ⇐ get_at merged_contract "COI" (VInt 0);;
  display_volume ⇐ get_at merged_contract "volume" (VInt 0);;
  _ ⇐ set_at merged_contract "OI_display" (display display_oi);;
  _ ⇐ set_at merged_contract "COI_display" (display display_coi);;
  _ ⇐ set_at merged_contract "volume_display" (display display_volume);;
  expiry ⇐ get_at merged_contract "expiryDate"
              (if truthy nearest_expiry then nearest_expiry else VStr "N/A");;
  _ ⇐ set_at merged_contract "expiryDate" expiry;;
  st_ret merged_contract.

Fixpoint enrich_contracts_st (nearest_expiry : value) (contract_list : list nat)
    : M (list nat) :=
  match contract_list with
  | [] => st_ret []
  | contract :: rest =>
      merged ⇐ enrich_contract_st nearest_expiry contract;;
      enriched ⇐ enrich_contracts_st nearest_expiry rest;;
      st_ret (merged :: enriched)
  end.

(** Running the merger on the summaries at [ls], and then once more. *)
Definition same_output_twice (nearest_expiry : value) (ls : list nat) (h : heap)
    : Prop :=
  match enrich_contracts_st nearest_expiry ls h with
  | Ok (out1, h1) =>
      extends h h1
      ∧ enrich_contracts (lookup_table h) nearest_expiry (deref h <$> ls)
        = Ok (deref h1 <$> out1)
      ∧ ∃ out2 h2,
          enrich_contracts_st nearest_expiry ls h1 = Ok (out2, h2)
          ∧ deref h2 <$> out2 = deref h1 <$> out1
          ∧ deref h2 <$> out1 = deref h1 <$> out1
          ∧ extends h1 h2
  | Raise e =>
      ∀ h', extends h h' → enrich_contracts_st nearest_expiry ls h' = Raise e
  end.

(** ** [get_corporates_pit] (stock_insiders.py, lines 33-89)

    The function starts from the decoded payload: [acq_name_list] and
    [records].  Four pandas operations are taken as they come: the date
    parsing and sort of lines 57-62 ([sort_by_date], which also covers the
    [except: pass]), whether a column has a [.str] accessor, [str.upper],
    and the [groupby(...).agg(...)] of lines 71-75. *)

Inductive pit_value :=
| PScalar (v : value)
| PCount (n : nat)
| PRecord (d : dict)
| PRecords (l : list dict).

Record pit_result := {
  corporatesPIT : list dict;
  acqNameList : list value;
  summary : gmap string pit_value;
}.

Context (sort_by_date : list dict → list dict).
Context (has_str_accessor : list value → bool).
Context (str_upper : string → string).
Context (groupby_company : list dict → result (list dict)).

(** [pd.DataFrame(records)]: every row gets every column. *)
Definition frame_of (records : list dict) : list dict :=
  (λ r, set_to_map (λ c, (c, df_cell r c)) (df_columns records) : dict) <$> records.

Definition numeric_fields : list string :=
  [ "buyValue"; "sellValue"; "buyQuantity"; "sellquantity"; "secAcq"; "secVal";
    "afterAcqSharesNo"; "afterAcqSharesPer"; "befAcqSharesNo"; "befAcqSharesPer" ].

(** [df[fld] = pd.to_numeric(df[fld], errors="coerce").fillna(0)] *)
Definition clean_field (df : list dict) (fld : string) : list dict :=
  if bool_decide (fld ∈ df_columns df)
  then (λ r, <[fld := VNum (Fin (numeric_cell (df_cell r fld)))]> r) <$> df
  else df.

Definition clean_numeric (df : list dict) : list dict :=
  foldl clean_field df numeric_fields.

(** [df[df["tdpTransactionType"].str.upper() == kind]["secVal"].sum()] *)
Definition is_kind (kind : string) (r : dict) : Prop :=
  match df_cell r "tdpTransactionType" with
  | VStr s => str_upper s = kind
  | _ => False
  end.

Global Instance is_kind_dec kind r : Decision (is_kind kind r).
Proof. unfold is_kind. destruct (df_cell r "tdpTransactionType"); apply _. Defined.

Definition value_total (kind : string) (df : list dict) : result value :=
  if bool_decide ("tdpTransactionType" ∈ df_columns df) then
    if has_str_accessor ((λ r, df_cell r "tdpTransactionType") <$> df) then
      _ ← require_column df "secVal";
      Ok (VNum (Fin (foldr Qcplus 0%Qc
                       ((λ r, numeric_cell (df_cell r "secVal")) <$> filter (is_kind kind) df))))
    else Raise AttributeError
  else Ok (VInt 0).

Definition company_summary_of (df : list dict) : result pit_value :=
  if bool_decide ("company" ∈ df_columns df)
  then (l ← groupby_company df; Ok (PRecords l))
  else Ok (PRecord ∅).

(** The keys of the summary of a non-empty table. *)
Definition full_summary_keys : gset string :=
  {[ "latestDisclosure"; "totalDisclosures"; "buyValueTotal"; "sellValueTotal";
     "companySummary" ]}.

Definition get_corporates_pit (acq_name_list : list value) (records : list dict)
    : result pit_result :=
  let df := frame_of records in
  if df_empty df then
    Ok {| corporatesPIT := [];
          acqNameList := acq_name_list;
          summary := {[ "totalDisclosures" := PCount 0 ]} |}
  else
    let df := clean_numeric df in
    let df := if bool_decide ("date" ∈ df_columns df) then sort_by_date df else df in
    buy_total ← value_total "BUY" df;
    sell_total ← value_total "SELL" df;
    company_summary ← company_summary_of df;
    latest ← match df with
             | r :: _ => Ok r
             | [] => Raise IndexError
             end;
    Ok {| corporatesPIT := df;
          acqNameList := acq_name_list;
          summary :=
            list_to_map
              [ ("latestDisclosure", PRecord latest);
                ("totalDisclosures", PCount (length df));
                ("buyValueTotal", PScalar buy_total);
                ("sellValueTotal", PScalar sell_total);
                ("companySummary", company_summary) ] |}.

(** * The rest of the pipeline

    The date helper and the statistics defaults of [main.py], the other
    outputs of the chain loop, and the snapshot assemblers of
    [bluck_deal.py]. *)

(** ** Dates (main.py, lines 99-107)

    A [datetime] is the day number of its date ([date.toordinal()]) and
    what is left of the day.  Day 1 is Monday 1 January of year 1 and the
    last day is 31 December 9999; [None] stands for the [OverflowError] of
    a date or a [timedelta] out of range. *)

Record datetime := {
  ordinal : Z;
  time_of_day : Z;
}.

Definition max_ordinal : Z := 3652059.
Definition max_timedelta_days : Z := 999999999.

(** [d.weekday()]: Monday is 0 *)
Definition weekday_of (d : datetime) : Z := (ordinal d - 1) mod 7.

(** [d + timedelta(days=n)] *)
Definition add_days (d : datetime) (n : Z) : option datetime :=
  if bool_decide (- max_timedelta_days ≤ n ≤ max_timedelta_days)%Z
     && bool_decide (1 ≤ ordinal d + n ≤ max_ordinal)%Z
  then Some {| ordinal := ordinal d + n; time_of_day := time_of_day d |}
  else None.

Definition get_next_weekday (start_date : datetime) (weekday : Z) : option datetime :=
  let days_ahead := (weekday - weekday_of start_date)%Z in
  let days_ahead :=
    if bool_decide (days_ahead ≤ 0)%Z then (days_ahead + 7)%Z else days_ahead in
  add_days start_date days_ahead.

(** ** What an enriched record always holds *)

(** The price is a number and not zero; volume and percent change are
    numbers. *)
Definition quotes_numeric (merged : dict) : Prop :=
  (∃ x, merged !! "lastPrice" = Some (VNum x) ∧ x ≠ Fin 0%Qc)
  ∧ (∃ x, merged !! "volume" = Some (VNum x))
  ∧ (∃ x, merged !! "pchange" = Some (VNum x)).

(** The display fields mirror the record's own fields. *)
Definition displays_mirror (merged : dict) : Prop :=
  merged !! "OI_display" = Some (display (dict_get merged "OI" (VInt 0)))
  ∧ merged !! "COI_display" = Some (display (dict_get merged "COI" (VInt 0)))
  ∧ merged !! "volume_display" = Some (display (dict_get merged "volume" (VInt 0))).

(** The expiry of the enriched record: the summary's own entry when it has
    one, whatever it holds; else the nearest expiry; else ["N/A"]. *)
Definition expiry_kept (nearest_expiry : value) (c merged : dict) : Prop :=
  merged !! "expiryDate"
  = Some match c !! "expiryDate" with
         | Some v => v
         | None => if truthy nearest_expiry then nearest_expiry else VStr "N/A"
         end.

(** ** The lookup table, entry by entry (main.py, lines 406-427) *)

(** [oc_details_map[key][side]], when both levels are there *)
Definition side_at (m : details_map) (key : value * value) (side : string) :
    option dict :=
  m !! key ≫= (λ sides, sides !! side).

(** The alert row is filed under [key] and [side]: the guard of the loop
    read at the row. *)
Definition filed_under (key : value * value) (side : string) (opt : dict) : Prop :=
  (dict_get_none opt "strikePrice", dict_get_none opt "expiryDate") = key
  ∧ dict_get_none opt "optionType" = VStr side
  ∧ key.1 ≠ VNone ∧ side ∈ ["CE"; "PE"] ∧ truthy key.2 = true.

Global Instance filed_under_dec key side opt : Decision (filed_under key side opt).
Proof. unfold filed_under. apply _. Defined.

Definition last_filed (key : value * value) (side : string) (opts : list dict) :
    option dict :=
  last (filter (filed_under key side) opts).

(** The alert row that a summary is enriched from, if any: the last row of
    the chain filed under the summary's strike, its lookup expiry and the
    side its label stands for. *)
Definition chain_source (nearest_expiry : value) (chain : list chain_row)
    (contract : dict) : option dict :=
  side ← oc_type_key_of (dict_get_none contract "optionType");
  last_filed (dict_get_none contract "strikePrice",
              lookup_expiry_of nearest_expiry contract) side
    (all_options_for_alerts nearest_expiry chain).

(** The enriched record carries the figures of the alert row. *)
Definition carries_row (opt merged : dict) : Prop :=
  merged !! "OI" = opt !! "OI"
  ∧ merged !! "COI" = opt !! "COI"
  ∧ merged !! "TBQ" = opt !! "TBQ"
  ∧ merged !! "TSQ" = opt !! "TSQ"
  ∧ merged !! "pchange" = opt !! "pchange"
  ∧ merged !! "lastPrice"
    = Some (VNum (normalize (dict_get_none opt "lastPrice") min_tick))
  ∧ merged !! "volume" = Some (VInt 0).

(** ** Index statistics (main.py, lines 279-284 and 497) *)

Definition default_stats : dict :=
  list_to_map
    [ ("indexName", VStr "NIFTY 50"); ("ffm", VInt 0); ("peRatio", VInt 0);
      ("pbRatio", VInt 0); ("dividentYield", VInt 0); ("volume", VInt 0);
      ("advance_symbol", VInt 0); ("decline_symbol", VInt 0);
      ("unchanged_symbol", VInt 0); ("total_symbol", VInt 50);
      ("advance_top_turnover", VInt 0); ("decline_top_turnover", VInt 0);
      ("total_top_turnover", VInt 0) ].

(** [{**default_stats, **nifty_stats}] *)
Definition merge_stats (nifty_stats : dict) : dict := nifty_stats ∪ default_stats.

(** The three sentences of [generate_alerts(pd.DataFrame([nifty_stats]), ...)] *)
Definition stats_narratives (nifty_stats : dict) : result (string * string * string) :=
  narratives [merge_stats nifty_stats].

(** A statistic as the sentences read it: the provider's entry made
    numeric, zero where it is missing, null or unreadable. *)
Definition stat (nifty_stats : dict) (k : string) : Qc :=
  numeric_cell (dict_get nifty_stats k (VInt 0)).

(** ** The strike table (main.py, lines 335-368) *)

Definition strike_info (nearest_expiry : value) (r : chain_row) : dict :=
  let strike := strikePrice r in
  let ce_data := default ∅ (CE r) in
  let pe_data := default ∅ (PE r) in
  let current_expiry_for_option :=
    py_or (py_or (dict_get_none ce_data "expiryDate")
                 (dict_get_none pe_data "expiryDate"))
          nearest_expiry in
  list_to_map
    [ ("strikePrice", strike);
      ("expiryDate", current_expiry_for_option);
      ("CE_openInterest", dict_get ce_data "openInterest" (VInt 0));
      ("CE_changeinOpenInterest", dict_get ce_data "changeinOpenInterest" (VInt 0));
      ("CE_totalTradedVolume", dict_get ce_data "totalTradedVolume" (VInt 0));
      ("CE_impliedVolatility", dict_get ce_data "impliedVolatility" (VInt 0));
      ("CE_lastPrice", dict_get ce_data "lastPrice" (VInt 0));
      ("CE_pChange", dict_get ce_data "pChange" (VInt 0));
      ("CE_totalBuyQuantity", dict_get ce_data "totalBuyQuantity" (VInt 0));
      ("CE_totalSellQuantity", dict_get ce_data "totalSellQuantity" (VInt 0));
      ("PE_openInterest", dict_get pe_data "openInterest" (VInt 0));
      ("PE_changeinOpenInterest", dict_get pe_data "changeinOpenInterest" (VInt 0));
      ("PE_totalTradedVolume", dict_get pe_data "totalTradedVolume" (VInt 0));
      ("PE_impliedVolatility", dict_get pe_data "impliedVolatility" (VInt 0));
      ("PE_lastPrice", dict_get pe_data "lastPrice" (VInt 0));
      ("PE_pChange", dict_get pe_data "pChange" (VInt 0));
      ("PE_totalBuyQuantity", dict_get pe_data "totalBuyQuantity" (VInt 0));
      ("PE_totalSellQuantity", dict_get pe_data "totalSellQuantity" (VInt 0)) ].

Definition all_option_chain_details (nearest_expiry : value)
    (option_rows_from_oc : list chain_row) : list dict :=
  option_rows_from_oc ≫= λ r,
    if bool_decide (strikePrice r = VNone) then [] else [strike_info nearest_expiry r].

(** The alert row of one side is the strike record read again: same strike
    and expiry, and each figure the record's raw figure of that side made
    numeric. *)
Definition read_from_info (side : string) (info opt : dict) : Prop :=
  opt !! "optionType" = Some (VStr side)
  ∧ opt !! "strikePrice" = info !! "strikePrice"
  ∧ opt !! "expiryDate" = info !! "expiryDate"
  ∧ opt !! "OI"
    = Some (VNum (normalize (dict_get_none info (side +:+ "_openInterest")) (int 0)))
  ∧ opt !! "COI"
    = Some (VNum (normalize (dict_get_none info (side +:+ "_changeinOpenInterest")) (int 0)))
  ∧ opt !! "TBQ"
    = Some (VNum (normalize (dict_get_none info (side +:+ "_totalBuyQuantity")) (int 0)))
  ∧ opt !! "TSQ"
    = Some (VNum (normalize (dict_get_none info (side +:+ "_totalSellQuantity")) (int 0)))
  ∧ opt !! "pchange"
    = Some (VNum (normalize (dict_get_none info (side +:+ "_pChange")) (int 0)))
  ∧ opt !! "lastPrice"
    = Some (VNum (normalize (dict_get_none info (side +:+ "_lastPrice")) (int 0))).

(** ** Market snapshots (bluck_deal.py)

    Each function starts from the decoded payload.  The descending
    [sort_values] of pandas is taken as it comes ([sort_values_desc]); what
    is asked of it is [sorts_descending]. *)

(** [clean_df] of lines 45-49, and the same loop of lines 100-102 and
    144-146 *)
Definition clean_df (df : list dict) (numeric_fields : list string) : list dict :=
  foldl clean_field df numeric_fields.

(** One row through [clean_df], for the fields that are columns. *)
Definition clean_row (numeric_fields : list string) (r : dict) : dict :=
  foldl (λ r fld, <[fld := VNum (Fin (numeric_cell (df_cell r fld)))]> r)
    r numeric_fields.





Record snapshot := {
  snapshot_rows : list dict;
  snapshot_summary : gmap string pit_value;
}.

(** [df.iloc[0][c] if not df.empty else None] *)
Definition top_cell (df : list dict) (c : string) : result value :=
  if df_empty df then Ok VNone
  else
    match df with
    | r :: _ =>
        if bool_decide (c ∈ df_columns df) then Ok (df_cell r c) else Raise KeyError
    | [] => Raise IndexError
    end.

(** A descending sort of a numeric column keeps the rows and puts the
    larger figure first. *)
Definition sorts_descending (sort : string → list dict → list dict) : Prop :=
  ∀ col df,
    Forall (λ r, is_finite (df_cell r col)) df →
    sort col df ≡ₚ df
    ∧ StronglySorted (λ a b, (val_num (df_cell b col) ≤ val_num (df_cell a col))%Qc)
        (sort col df).

(** A sort that does: the stable one. *)
Definition stable_desc (col : string) (df : list dict) : list dict :=
  isort (key_ltb (λ r, VNum (Fin (- val_num (df_cell r col))%Qc))) df.

Section Snapshots.
Context (sort_values_desc : string → list dict → list dict).

Definition rank_by (col : string) (df : list dict) : list dict :=
  if bool_decide (col ∈ df_columns df) then sort_values_desc col df else df.

Definition volume_gainer_fields : list string :=
  [ "volume"; "week1AvgVolume"; "week1volChange"; "week2AvgVolume";
    "week2volChange"; "ltp"; "pChange"; "turnover" ].

Definition get_volume_gainers (ts : value) (records : list dict) : result snapshot :=
  let df := frame_of records in
  let df := clean_df df volume_gainer_fields in
  let df := rank_by "week1volChange" df in
  top_symbol ← top_cell df "symbol";
  Ok {| snapshot_rows := df;
        snapshot_summary :=
          list_to_map [ ("topSymbol", PScalar top_symbol);
                        ("totalCount", PCount (length df));
                        ("timestamp", PScalar ts) ] |}.

Definition most_active_fields : list string :=
  [ "lastPrice"; "pChange"; "quantityTraded"; "totalTradedVolume";
    "totalTradedValue"; "previousClose"; "yearHigh"; "yearLow";
    "change"; "open"; "closePrice"; "dayHigh"; "dayLow" ].

Definition get_most_active_securities (ts : value) (records : list dict)
    : result snapshot :=
  let df := frame_of records in
  let df := clean_df df most_active_fields in
  let df := rank_by "totalTradedValue" df in
  top_symbol ← top_cell df "symbol";
  top_turnover ← top_cell df "totalTradedValue";
  Ok {| snapshot_rows := df;
        snapshot_summary :=
          list_to_map [ ("topSymbol", PScalar top_symbol);
                        ("topTurnover", PScalar top_turnover);
                        ("totalCount", PCount (length df));
                        ("timestamp", PScalar ts) ] |}.

End Snapshots.

(** ** Example data for the rest of the pipeline *)

(** Monday 1 January 2024, at midnight *)
Definition new_year_2024 : datetime := {| ordinal := 738886; time_of_day := 0 |}.

Definition call_null_strike : dict :=
  {[ "optionType" := VStr "Call"; "strikePrice" := VNone ]}.

Definition gainers : list dict :=
  [ {[ "symbol" := VStr "AAA"; "week1volChange" := VStr "1.5" ]};
    {[ "symbol" := VStr "BBB"; "week1volChange" := VInt 3 ]} ].

Definition actives : list dict :=
  [ {[ "symbol" := VStr "AAA"; "totalTradedValue" := VInt 10 ]};
    {[ "symbol" := VStr "BBB"; "totalTradedValue" := VInt 30 ]} ].

(** * Facts *)

(** ** The result monad *)

(** Proofs by search must not pick up the conversions they do not mention. *)
Ltac forget_conversions :=
  try clear sort_by_date; try clear has_str_accessor; try clear str_upper;
  try clear groupby_company; try clear str_of_num; try clear parse_number.

Lemma bind_Ok {A B} (f : A → result B) (a : A) : (Ok a ≫= f) = f a.
Proof. reflexivity. Qed.

Lemma bind_Ok_inv {A B} (f : A → result B) (m : result A) (b : B) :
  (m ≫= f) = Ok b → ∃ a, m = Ok a ∧ f a = Ok b.
Proof. destruct m as [a|e]; [eauto | discriminate]. Qed.

(** ** The stable sort *)

Section SortedFacts.
Context {A : Type} (lt : A → A → result bool) (ltb : A → A → bool).

Lemma insert_pure_perm x l : insert_pure ltb x l ≡ₚ x :: l.
Proof.
  induction l as [|y l IH]; simpl; [done|].
  destruct (ltb y x); [|done].
  rewrite IH. apply Permutation_swap.
Qed.

Lemma isort_perm l : isort ltb l ≡ₚ l.
Proof.
  induction l as [|x l IH]; simpl; [done|].
  by rewrite insert_pure_perm, IH.
Qed.

Lemma insert_sorted_pure x l :
  (∀ y, y ∈ l → lt y x = Ok (ltb y x)) →
  insert_sorted lt x l = Ok (insert_pure ltb x l).
Proof.
  induction l as [|y l IH]; intros Hlt; simpl; [done|].
  rewrite (Hlt y) by set_solver. simpl.
  destruct (ltb y x); [|done].
  rewrite IH by (intros; apply Hlt; set_solver). done.
Qed.

Lemma py_sorted_pure l :
  (∀ x y, x ∈ l → y ∈ l → lt x y = Ok (ltb x y)) →
  py_sorted lt l = Ok (isort ltb l).
Proof.
  induction l as [|x l IH]; intros Hlt; simpl; [done|].
  rewrite IH by (intros; apply Hlt; set_solver). simpl.
  apply insert_sorted_pure. intros y Hy. apply Hlt; [|set_solver].
  apply elem_of_cons. right. by rewrite <-(isort_perm l).
Qed.

Hypothesis ltb_asym : ∀ a b, ltb a b = true → ltb b a = false.
Hypothesis ltb_negtrans : ∀ a b c, ltb b a = false → ltb c b = false → ltb c a = false.

Lemma insert_pure_sorted x l :
  StronglySorted (not_after ltb) l → StronglySorted (not_after ltb) (insert_pure ltb x l).
Proof using ltb_asym ltb_negtrans.
  induction 1 as [|y l Hs IH Hy]; simpl.
  { repeat constructor. }
  destruct (ltb y x) eqn:Hyx.
  - constructor; [done|].
    rewrite insert_pure_perm. constructor; [|done].
    by apply ltb_asym.
  - constructor; [by constructor|].
    constructor; [done|].
    eapply Forall_impl; [exact Hy|]. intros z Hz. unfold not_after in *. eauto.
Qed.

Lemma isort_sorted l : StronglySorted (not_after ltb) (isort ltb l).
Proof using ltb_asym ltb_negtrans.
  induction l; simpl; [constructor | by apply insert_pure_sorted].
Qed.

(** Stability: the elements of one key keep their order. *)
Context {K : Type} `{!EqDecision K} (key : A → K).
Hypothesis ltb_key : ∀ a b, ltb a b = true → key a ≠ key b.

Lemma insert_pure_stable k x l :
  filter (λ a, key a = k) (insert_pure ltb x l) = filter (λ a, key a = k) (x :: l).
Proof using ltb_key.
  induction l as [|y l IH]; simpl; [done|].
  destruct (ltb y x) eqn:Hyx; [|done].
  rewrite filter_cons, IH, !filter_cons.
  apply ltb_key in Hyx.
  repeat case_decide; congruence.
Qed.

Lemma isort_stable k l :
  filter (λ a, key a = k) (isort ltb l) = filter (λ a, key a = k) l.
Proof using ltb_key.
  induction l as [|x l IH]; simpl; [done|].
  rewrite insert_pure_stable, !filter_cons, IH. done.
Qed.

End SortedFacts.

(** ** The normalizer *)

Lemma normalize_nonzero v dflt q :
  to_numeric v = Fin q → q ≠ 0%Qc → normalize v dflt = Fin q.
Proof.
  intros Hv Hq. unfold normalize, num_or. rewrite Hv. simpl.
  by rewrite bool_decide_true.
Qed.

Lemma normalize_zero v dflt :
  to_numeric v = Fin 0%Qc → normalize v dflt = dflt.
Proof. intros Hv. unfold normalize, num_or. by rewrite Hv. Qed.

Lemma normalize_nan v dflt : to_numeric v = NaN → normalize v dflt = NaN.
Proof. intros Hv. unfold normalize, num_or. by rewrite Hv. Qed.

Lemma normalize_unparseable s dflt :
  parse_number s = None → normalize (VStr s) dflt = NaN.
Proof. intros Hs. apply normalize_nan. simpl. by rewrite Hs. Qed.

(** Normalizing with default [0] and then again with any default is
    normalizing once with the second default. *)
Lemma normalize_twice v dflt :
  normalize (VNum (normalize v (int 0))) dflt = normalize v dflt.
Proof.
  unfold normalize, num_or. simpl.
  destruct (to_numeric v) as [q|]; simpl; [|done].
  case_bool_decide as Hq; simpl.
  - by rewrite bool_decide_true.
  - subst q. done.
Qed.

(** C1, on the code: [None] does not come back as the default.  The value
    that [pd.to_numeric] makes of it is NaN, NaN is truthy, and so
    [... or dflt] keeps it. *)
Theorem normalize_None_is_nan (dflt : num) : normalize VNone dflt = NaN.
Proof. reflexivity. Qed.

(** ** Lookups in the dicts that the merger builds *)

Lemma dict_get_Some (d : dict) k v dflt : d !! k = Some v → dict_get d k dflt = v.
Proof. intros H. unfold dict_get. by rewrite H. Qed.

Lemma lookup_assign_eq k f (d : dict) : assign k f d !! k = Some (f d).
Proof. apply lookup_insert_eq. Qed.

Lemma lookup_assign_ne k k' f (d : dict) : k ≠ k' → assign k f d !! k' = d !! k'.
Proof. apply lookup_insert_ne. Qed.

Lemma dict_get_assign_ne k k' f (d : dict) dflt :
  k ≠ k' → dict_get (assign k f d) k' dflt = dict_get d k' dflt.
Proof. intros. unfold dict_get. by rewrite lookup_assign_ne. Qed.

Lemma list_to_map_assoc (l : list (string * value)) k :
  (list_to_map l : dict) !! k = assoc k l.
Proof.
  induction l as [|[k' v] l IH]; simpl; [apply lookup_empty|].
  destruct (String.eqb_spec k' k) as [->|Hne].
  - apply lookup_insert_eq.
  - by rewrite lookup_insert_ne.
Qed.

Ltac dict_simpl :=
  repeat first
    [ rewrite lookup_assign_eq
    | rewrite lookup_assign_ne by discriminate
    | rewrite dict_get_assign_ne by discriminate ].

Ltac in_list := apply (bool_decide_unpack _); vm_compute; exact I.

Lemma finish_contract_other n t (d : dict) k :
  k ∉ finished_keys → finish_contract n t d !! k = d !! k.
Proof.
  intros Hk. unfold finish_contract.
  rewrite !lookup_assign_ne; [done|..]; intros <-; apply Hk; in_list.
Qed.

Lemma finish_contract_optionType n t (d : dict) :
  finish_contract n t d !! "optionType" = Some (VStr t).
Proof. unfold finish_contract. by dict_simpl. Qed.

Lemma finish_contract_lastPrice n t (d : dict) :
  finish_contract n t d !! "lastPrice"
  = Some (VNum (normalize (dict_get d "lastPrice" (VNum min_tick)) min_tick)).
Proof. unfold finish_contract. by dict_simpl. Qed.

Lemma finish_contract_volume n t (d : dict) :
  finish_contract n t d !! "volume"
  = Some (VNum (normalize (dict_get d "volume" (VInt 0)) (int 0))).
Proof. unfold finish_contract. by dict_simpl. Qed.

Lemma finish_contract_pchange n t (d : dict) :
  finish_contract n t d !! "pchange"
  = Some (VNum (normalize (dict_get d "pchange" (VInt 0)) (int 0))).
Proof. unfold finish_contract. by dict_simpl. Qed.

Lemma finish_contract_value n t (d : dict) :
  finish_contract n t d !! "value" = Some (dict_get d "value" (VStr "-")).
Proof. unfold finish_contract. by dict_simpl. Qed.

Lemma finish_contract_expiryDate n t (d : dict) :
  finish_contract n t d !! "expiryDate"
  = Some (dict_get d "expiryDate" (if truthy n then n else VStr "N/A")).
Proof. unfold finish_contract. by dict_simpl. Qed.

Lemma finish_contract_defaults n t (d : dict) :
  Forall (λ k, is_Some (finish_contract n t d !! k))
    [ "lastPrice"; "volume"; "value"; "pchange"; "OI_display"; "COI_display";
      "volume_display"; "expiryDate" ].
Proof.
  repeat apply Forall_cons_2; [..|constructor].
  - rewrite finish_contract_lastPrice. by eexists.
  - rewrite finish_contract_volume. by eexists.
  - rewrite finish_contract_value. by eexists.
  - rewrite finish_contract_pchange. by eexists.
  - unfold finish_contract. dict_simpl. by eexists.
  - unfold finish_contract. dict_simpl. by eexists.
  - unfold finish_contract. dict_simpl. by eexists.
  - rewrite finish_contract_expiryDate. by eexists.
Qed.

Lemma finish_contract_strike n t (d : dict) :
  strike_key (finish_contract n t d) = strike_key d.
Proof.
  unfold strike_key, dict_get. rewrite finish_contract_other; [done|].
  by apply (bool_decide_unpack _).
Qed.


(** ** The merger, one summary at a time *)

Lemma found_detail_match m n contract detail :
  found_detail m n contract = Some detail ↔ chain_match m n contract detail.
Proof. forget_conversions.
  unfold found_detail, chain_match, lookup_detail.
  destruct (oc_type_key_of _) as [side|]; [|naive_solver].
  case_bool_decide as Hsp; simpl.
  - destruct (truthy _); simpl; [|naive_solver].
    destruct (m !! _) as [sides|]; simpl; naive_solver.
  - naive_solver.
Qed.

Lemma enrich_contract_Ok m n contract s :
  contract !! "optionType" = Some (VStr s) →
  enrich_contract m n contract
  = Ok (finish_contract n (translate_side s) (merge_detail m n contract)).
Proof.
  intros Hs. unfold enrich_contract, dict_get_none.
  by rewrite (dict_get_Some _ _ _ _ Hs).
Qed.

Lemma enrich_contract_raises m n contract :
  (∀ s, contract !! "optionType" ≠ Some (VStr s)) →
  enrich_contract m n contract = Raise AttributeError.
Proof.
  intros Hs. unfold enrich_contract, dict_get_none, dict_get.
  destruct (contract !! "optionType") as [[| |s]|]; simpl; try done.
  by destruct (Hs s).
Qed.

Lemma detail_update_lookup detail k field :
  (k, field) ∈ [ ("OI", "openInterest"); ("COI", "changeinOpenInterest");
                 ("TBQ", "totalBuyQuantity"); ("TSQ", "totalSellQuantity");
                 ("pchange", "pChange"); ("lastPrice", "lastPrice");
                 ("volume", "totalTradedVolume") ] →
  detail_update detail !! k
  = Some (VNum (normalize (dict_get detail field (VInt 0)) (int 0))).
Proof.
  rewrite !elem_of_cons, elem_of_nil. unfold detail_update.
  rewrite list_to_map_assoc.
  intros H; repeat (destruct H as [[= -> ->]|H]); try done.
Qed.


Lemma merged_lookup_detail (contract detail : dict) k field :
  (k, field) ∈ [ ("OI", "openInterest"); ("COI", "changeinOpenInterest");
                 ("TBQ", "totalBuyQuantity"); ("TSQ", "totalSellQuantity");
                 ("pchange", "pChange"); ("lastPrice", "lastPrice");
                 ("volume", "totalTradedVolume") ] →
  (detail_update detail ∪ contract) !! k
  = Some (VNum (normalize (dict_get detail field (VInt 0)) (int 0))).
Proof. intros H. apply lookup_union_Some_l. by apply detail_update_lookup. Qed.

Lemma enrich_matched m n contract s detail :
  contract !! "optionType" = Some (VStr s) →
  chain_match m n contract detail →
  ∃ merged, enrich_contract m n contract = Ok merged ∧ overridden detail merged.
Proof.
  intros Hs Hm%found_detail_match.
  rewrite (enrich_contract_Ok _ _ _ _ Hs). eexists; split; [done|].
  unfold merge_detail. rewrite Hm. unfold overridden.
  rewrite !finish_contract_other by in_list.
  rewrite finish_contract_pchange, finish_contract_lastPrice.
  rewrite (merged_lookup_detail _ _ "OI" "openInterest") by in_list.
  rewrite (merged_lookup_detail _ _ "COI" "changeinOpenInterest") by in_list.
  rewrite (merged_lookup_detail _ _ "TBQ" "totalBuyQuantity") by in_list.
  rewrite (merged_lookup_detail _ _ "TSQ" "totalSellQuantity") by in_list.
  rewrite (dict_get_Some _ "pchange" _ _
             (merged_lookup_detail contract detail "pchange" "pChange" ltac:(in_list))).
  rewrite (dict_get_Some _ "lastPrice" _ _
             (merged_lookup_detail contract detail "lastPrice" "lastPrice" ltac:(in_list))).
  by rewrite !normalize_twice.
Qed.

Lemma enrich_unmatched m n contract s :
  contract !! "optionType" = Some (VStr s) →
  (∀ detail, ¬ chain_match m n contract detail) →
  ∃ merged, enrich_contract m n contract = Ok merged ∧ kept contract merged.
Proof.
  intros Hs Hno.
  rewrite (enrich_contract_Ok _ _ _ _ Hs). eexists; split; [done|].
  unfold merge_detail.
  destruct (found_detail m n contract) as [detail|] eqn:Hf.
  { apply found_detail_match in Hf. by destruct (Hno detail). }
  unfold kept.
  rewrite !finish_contract_other by in_list.
  by rewrite finish_contract_pchange, finish_contract_lastPrice.
Qed.

(** C2. A summary with a match in the table comes out with the OI, COI,
    TBQ, TSQ, pchange and lastPrice of the matched detail, normalized; one
    without a match keeps its own values for these fields (pchange and
    lastPrice normalized, with their defaults).  On the chain with strike
    21000 and a call side of open interest 120000 and change 15000, the
    active-call summary at 21000 without OI comes out with OI 120000 and
    COI 15000. *)
Theorem enrich_override_and_fallback :
  (∀ m nearest contract s,
     contract !! "optionType" = Some (VStr s) →
     ∃ merged, enrich_contract m nearest contract = Ok merged
       ∧ (∀ detail, chain_match m nearest contract detail → overridden detail merged)
       ∧ ((∀ detail, ¬ chain_match m nearest contract detail) → kept contract merged))
  ∧ (∃ merged,
       enrich_from_chain jan30 chain_21000 [call_21000] = Ok [merged]
       ∧ merged !! "OI" = Some (VInt 120000)
       ∧ merged !! "COI" = Some (VInt 15000)).
Proof.
  split.
  - intros m nearest contract s Hs.
    rewrite (enrich_contract_Ok _ _ _ _ Hs). eexists; split; [done|]. split.
    + intros detail Hm.
      destruct (enrich_matched m nearest contract s detail Hs Hm) as (merged & Hok & Hov).
      rewrite (enrich_contract_Ok _ _ _ _ Hs) in Hok. by injection Hok as <-.
    + intros Hno.
      destruct (enrich_unmatched m nearest contract s Hs Hno) as (merged & Hok & Hk).
      rewrite (enrich_contract_Ok _ _ _ _ Hs) in Hok. by injection Hok as <-.
  - exists (finish_contract jan30 "CE" (merge_detail table_21000 jan30 call_21000)).
    split; [|split; vm_compute; reflexivity].
    vm_cast_no_check
      (eq_refl (Ok [finish_contract jan30 "CE" (merge_detail table_21000 jan30 call_21000)])).
Qed.


(** ** The merger, on a list *)

Lemma has_label_of c : has_label c → c !! "optionType" = Some (VStr (label_of c)).
Proof. intros [s Hs]. unfold label_of. by rewrite Hs. Qed.

Lemma enrich_contract_label m n c :
  has_label c → enrich_contract m n c = Ok (enriched_record m n c).
Proof. intros H. by rewrite (enrich_contract_Ok _ _ _ _ (has_label_of _ H)). Qed.

Lemma enrich_contract_Ok_inv m n c merged :
  enrich_contract m n c = Ok merged → has_label c ∧ merged = enriched_record m n c.
Proof.
  intros H. destruct (c !! "optionType") as [v|] eqn:Hv.
  - destruct v as [| |s]; try (rewrite enrich_contract_raises in H; [done|congruence]).
    assert (has_label c) as Hl by (by exists s).
    rewrite enrich_contract_label in H by done. split; [done|congruence].
  - rewrite enrich_contract_raises in H; [done|congruence].
Qed.

Lemma enrich_contracts_Ok m n l :
  Forall has_label l → enrich_contracts m n l = Ok (enriched_record m n <$> l).
Proof.
  induction 1 as [|c l Hc Hl IH]; simpl; [done|].
  by rewrite enrich_contract_label, IH.
Qed.

Lemma enrich_contracts_Ok_inv m n l out :
  enrich_contracts m n l = Ok out →
  Forall has_label l ∧ out = enriched_record m n <$> l.
Proof.
  revert out. induction l as [|c l IH]; simpl; intros out H.
  { injection H as <-. by split. }
  apply bind_Ok_inv in H as (merged & Hm & H).
  apply bind_Ok_inv in H as (rest & Hr & H). injection H as <-.
  apply enrich_contract_Ok_inv in Hm as [Hc ->].
  apply IH in Hr as [Hl ->]. split; [by constructor|done].
Qed.

Lemma enrich_contracts_raises m n l :
  ¬ Forall has_label l → enrich_contracts m n l = Raise AttributeError.
Proof.
  induction l as [|c l IH]; intros Hn.
  { destruct Hn. constructor. }
  simpl. destruct (enrich_contract m n c) as [merged|e] eqn:Hc.
  - apply enrich_contract_Ok_inv in Hc as [Hc _]. simpl.
    rewrite IH; [done|]. intros Hl. apply Hn. by constructor.
  - destruct (c !! "optionType") as [v|] eqn:Hv.
    + destruct v as [| |s].
      * rewrite enrich_contract_raises in Hc by (intros; congruence). simpl; congruence.
      * rewrite enrich_contract_raises in Hc by (intros; congruence). simpl; congruence.
      * rewrite enrich_contract_label in Hc; [done|by exists s].
    + rewrite enrich_contract_raises in Hc by (intros; congruence). simpl; congruence.
Qed.

Lemma merge_detail_not_written m n c k :
  k ∉ written_keys → merge_detail m n c !! k = c !! k.
Proof.
  intros Hk. unfold merge_detail.
  destruct (found_detail m n c) as [detail|]; [|done].
  apply lookup_union_r. unfold detail_update. rewrite list_to_map_assoc.
  cbn [assoc].
  repeat match goal with
         | |- context [String.eqb ?a k] =>
             destruct (String.eqb_spec a k) as [Heq|_];
             [exfalso; apply Hk; rewrite <-Heq; in_list|]
         end.
  done.
Qed.

Lemma enriched_record_emitted m n c : emitted c (enriched_record m n c).
Proof. forget_conversions.
  unfold emitted, enriched_record. split; [|split].
  - intros k Hk. rewrite finish_contract_other.
    + by apply merge_detail_not_written.
    + intros Hf. apply Hk. unfold written_keys. set_solver.
  - apply finish_contract_optionType.
  - apply finish_contract_defaults.
Qed.


(** C3 (amended). When every summary of the list has a string as its side
    label, every record of the list is emitted, in order and with its
    defaulted fields, whether or not it has a strike price, an expiry or a
    match in the table: nothing is skipped.  (A list with a summary whose
    label is missing or not a string raises [AttributeError] and emits
    nothing: [enrich_contracts_raises].) *)
Theorem enrich_emits_every_record m nearest l :
  Forall has_label l →
  ∃ out, enrich_contracts m nearest l = Ok out ∧ Forall2 emitted l out.
Proof.
  intros Hl. exists (enriched_record m nearest <$> l).
  split; [by apply enrich_contracts_Ok|].
  apply Forall2_fmap_r, Forall2_same_length_lookup. split; [done|].
  intros i c c' Hc Hc'. assert (c' = c) as -> by congruence.
  apply enriched_record_emitted.
Qed.

(** ** The lookup table *)

Lemma alert_rows_of_alert n r : Forall is_alert_row (alert_rows_of n r).
Proof.
  unfold alert_rows_of. case_bool_decide; [constructor|].
  apply Forall_app. split; destruct (dict_truthy _); repeat constructor;
    unfold is_alert_row; eauto.
Qed.

Lemma all_options_for_alerts_alert n rows :
  Forall is_alert_row (all_options_for_alerts n rows).
Proof.
  unfold all_options_for_alerts. induction rows as [|r rows IH]; [constructor|].
  rewrite bind_cons. apply Forall_app. split; [apply alert_rows_of_alert|done].
Qed.

Lemma detail_of_alert_row opt :
  is_alert_row opt → detail_of opt = Ok (detail_of_row opt).
Proof.
  intros (strike & typ & expiry & data & ->).
  unfold detail_of, detail_of_row, subscript, dict_get_none, dict_get, alert_opt.
  by rewrite !list_to_map_assoc.
Qed.

Lemma oc_details_step_alert m opt :
  is_alert_row opt → volume_free m →
  ∃ m', oc_details_step m opt = Ok m' ∧ volume_free m'.
Proof.
  intros Hopt Hm. unfold oc_details_step.
  destruct (dict_get_none opt "optionType") as [| |side]; eauto.
  destruct (_ && _); [|eauto].
  rewrite (detail_of_alert_row _ Hopt). simpl. eexists; split; [done|].
  set (key := (dict_get_none opt "strikePrice", dict_get_none opt "expiryDate")).
  set (m1 := if bool_decide (is_Some (m !! key)) then m else <[key := ∅]> m).
  assert (volume_free m1) as Hm1.
  { subst m1. case_bool_decide; [done|].
    intros k sides s d Hk Hs. destruct (decide (key = k)) as [<-|Hne].
    - rewrite lookup_insert_eq in Hk. injection Hk as <-. by rewrite lookup_empty in Hs.
    - rewrite lookup_insert_ne in Hk by done. eauto. }
  intros k sides s d Hk Hs. destruct (decide (key = k)) as [<-|Hne].
  - rewrite lookup_insert_eq in Hk. injection Hk as <-.
    destruct (decide (side = s)) as [<-|Hs'].
    + rewrite lookup_insert_eq in Hs. by injection Hs as <-.
    + rewrite lookup_insert_ne in Hs by done.
      destruct (m1 !! key) as [sides|] eqn:Hk; simpl in Hs; [eauto|].
      by rewrite lookup_empty in Hs.
  - rewrite lookup_insert_ne in Hk by done. eauto.
Qed.

Lemma oc_details_loop_alert m opts :
  Forall is_alert_row opts → volume_free m →
  ∃ m', oc_details_loop m opts = Ok m' ∧ volume_free m'.
Proof.
  intros Hopts. revert m. induction Hopts as [|opt opts Hopt _ IH]; intros m Hm.
  { by exists m. }
  destruct (oc_details_step_alert m opt Hopt Hm) as (m1 & Hstep & Hm1).
  simpl. rewrite Hstep. simpl. eauto.
Qed.

(** Building the table never raises, and no detail of the table carries
    the chain's traded volume. *)
Lemma oc_details_map_total n rows :
  ∃ m, oc_details_map (all_options_for_alerts n rows) = Ok m ∧ volume_free m.
Proof.
  apply oc_details_loop_alert; [apply all_options_for_alerts_alert|].
  intros k sides s d Hk. by rewrite lookup_empty in Hk.
Qed.

(** A summary with a match in a table built from a chain comes out with
    volume zero, whatever the chain row and the summary say. *)
Lemma enrich_matched_volume n rows m contract detail :
  oc_details_map (all_options_for_alerts n rows) = Ok m →
  has_label contract →
  chain_match m n contract detail →
  enriched_record m n contract !! "volume" = Some (VInt 0).
Proof.
  intros Hm Hl Hmatch.
  destruct (oc_details_map_total n rows) as (m' & Hm' & Hfree).
  assert (m' = m) as -> by congruence.
  destruct Hmatch as (side & sides & ? & ? & ? & Hk & Hs).
  pose proof (Hfree _ _ _ _ Hk Hs) as Hvol.
  assert (chain_match m n contract detail) as Hmatch%found_detail_match
    by (exists side, sides; eauto).
  unfold enriched_record. rewrite finish_contract_volume.
  unfold merge_detail. rewrite Hmatch.
  rewrite (dict_get_Some _ "volume" _ _
             (merged_lookup_detail contract detail "volume" "totalTradedVolume"
                ltac:(in_list))).
  rewrite normalize_twice. by rewrite (dict_get_Some _ _ _ _ Hvol).
Qed.

(** C5, on the code: the chain row reports a traded volume of 5000 and the
    summary one of 777, and the enriched summary has volume 0.  The table's
    detail is filled from [opt.get('volume', 0)] on a row that has no such
    key. *)
Theorem enriched_volume_is_zero :
  ∃ merged,
    enrich_from_chain jan30 chain_volume [call_volume] = Ok [merged]
    ∧ merged !! "volume" = Some (VInt 0).
Proof.
  exists (enriched_record table_volume jan30 call_volume). split.
  - unfold enrich_from_chain.
    replace (oc_details_map _) with (Ok table_volume)
      by (vm_cast_no_check (eq_refl (Ok table_volume))).
    simpl. rewrite enrich_contract_label; [done|]. by exists "Call".
  - vm_compute. reflexivity.
Qed.


(** ** Sorting on numeric keys *)

Lemma StronglySorted_weaken {A} (R R' : A → A → Prop) l :
  (∀ a b, R a b → R' a b) → StronglySorted R l → StronglySorted R' l.
Proof.
  intros HR. induction 1 as [|x l Hs IH Hx]; constructor; [done|].
  eapply Forall_impl; [exact Hx|]. intros; by apply HR.
Qed.

Section NumericKeys.
Context {A : Type} (key : A → value).

Lemma key_ltb_asym a b : key_ltb key a b = true → key_ltb key b a = false.
Proof.
  unfold key_ltb, val_ltb. intros H%bool_decide_eq_true.
  apply bool_decide_eq_false, Qcle_not_lt. by apply Qclt_le_weak.
Qed.

Lemma key_ltb_negtrans a b c :
  key_ltb key b a = false → key_ltb key c b = false → key_ltb key c a = false.
Proof.
  unfold key_ltb, val_ltb.
  intros H1%bool_decide_eq_false%Qcnot_lt_le H2%bool_decide_eq_false%Qcnot_lt_le.
  apply bool_decide_eq_false, Qcle_not_lt. by eapply Qcle_trans.
Qed.

Lemma key_ltb_key a b : key_ltb key a b = true → key a ≠ key b.
Proof.
  unfold key_ltb, val_ltb. intros H%bool_decide_eq_true Heq.
  rewrite Heq in H. by apply Qclt_not_eq in H.
Qed.

Lemma py_lt_finite a b :
  is_finite (key a) → is_finite (key b) →
  py_lt (key a) (key b) = Ok (key_ltb key a b).
Proof. intros [p Hp] [q Hq]. unfold key_ltb, val_ltb. by rewrite Hp, Hq. Qed.

Lemma sorted_by_finite l :
  Forall (λ a, is_finite (key a)) l → sorted_by key l = Ok (isort (key_ltb key) l).
Proof.
  intros Hl. apply py_sorted_pure. intros x y Hx Hy.
  rewrite Forall_forall in Hl. apply py_lt_finite; auto.
Qed.

Lemma key_fmap_insert x s :
  key <$> insert_pure (key_ltb key) x s = insert_pure val_ltb (key x) (key <$> s).
Proof.
  induction s as [|y s IHs]; csimpl; [done|].
  unfold key_ltb at 1. destruct (val_ltb (key y) (key x)); csimpl; [|done].
  by rewrite IHs.
Qed.

Lemma key_fmap_isort l : key <$> isort (key_ltb key) l = isort val_ltb (key <$> l).
Proof.
  induction l as [|x l IH]; csimpl; [done|]. by rewrite key_fmap_insert, IH.
Qed.

Lemma isort_ascending l :
  StronglySorted (λ a b, (val_num (key a) ≤ val_num (key b))%Qc)
    (isort (key_ltb key) l).
Proof.
  eapply StronglySorted_weaken;
    [|apply (isort_sorted (key_ltb key) key_ltb_asym key_ltb_negtrans)].
  intros a b. unfold not_after, key_ltb, val_ltb.
  by intros H%bool_decide_eq_false%Qcnot_lt_le.
Qed.

End NumericKeys.


(** ** Ranking *)

Lemma enriched_record_strike m n c :
  strike_key (enriched_record m n c) = strike_key c.
Proof.
  unfold enriched_record. rewrite finish_contract_strike.
  unfold strike_key, dict_get.
  rewrite merge_detail_not_written; [done|in_list].
Qed.

Lemma enriched_strikes m n (l : list dict) :
  strike_key <$> (enriched_record m n <$> l) = strike_key <$> l.
Proof.
  rewrite <-list_fmap_compose. apply list_fmap_ext.
  intros i c _. apply enriched_record_strike.
Qed.

(** C8. The enriched call list and the enriched put list come out sorted
    by strike price, ascending, records of equal strike in the order the
    provider gave them; strikes 21500, 21000, 21200 come out as 21000,
    21200, 21500.  The strikes are numbers (a missing one counts as 0), as
    [sorted] needs them to be. *)
Theorem sorted_enriched_by_strike m nearest raw :
  Forall has_label raw →
  Forall (λ c, is_finite (strike_key c)) raw →
  ∃ out, sorted_enriched m nearest raw = Ok out
    ∧ out ≡ₚ enriched_record m nearest <$> raw
    ∧ strike_ascending out
    ∧ (∀ k, filter (λ c, strike_key c = k) out
            = filter (λ c, strike_key c = k) (enriched_record m nearest <$> raw))
    ∧ (strike_key <$> raw = [VInt 21500; VInt 21000; VInt 21200] →
       strike_key <$> out = [VInt 21000; VInt 21200; VInt 21500]).
Proof.
  intros Hl Hk. exists (isort (key_ltb strike_key) (enriched_record m nearest <$> raw)).
  split; [|split; [|split; [|split]]].
  - unfold sorted_enriched. rewrite enrich_contracts_Ok by done. simpl.
    apply sorted_by_finite. apply Forall_fmap.
    eapply Forall_impl; [exact Hk|]. intros c Hc. simpl.
    by rewrite enriched_record_strike.
  - apply isort_perm.
  - apply isort_ascending.
  - intros k. apply isort_stable. apply key_ltb_key.
  - intros Hs. rewrite key_fmap_isort, enriched_strikes, Hs. vm_compute. reflexivity.
Qed.





Lemma is_index_truthy c : is_index c → dict_truthy c = true.
Proof.
  unfold is_index, dict_truthy, dict_get_none, dict_get.
  intros H. apply bool_decide_eq_true. intros ->. by rewrite lookup_empty in H.
Qed.







(** ** The classifier *)

Lemma first_stat_total df c dflt :
  df_empty df = false → ∃ q, first_stat df c dflt = Ok q.
Proof.
  unfold df_empty, first_stat. intros [Hdf _]%orb_false_elim.
  apply bool_decide_eq_false in Hdf.
  case_bool_decide; [|by eexists].
  destruct df as [|r df]; [done|]. by eexists.
Qed.

(** The narratives never raise. *)
Lemma narratives_total valuation_df : ∃ t, narratives valuation_df = Ok t.
Proof.
  unfold narratives. destruct (df_empty valuation_df) eqn:He; [by eexists|].
  destruct (first_stat_total valuation_df "peRatio" (int 0) He) as [pe ->].
  destruct (first_stat_total valuation_df "advance_symbol" (int 0) He) as [adv ->].
  destruct (first_stat_total valuation_df "decline_symbol" (int 0) He) as [dec ->].
  destruct (first_stat_total valuation_df "advance_top_turnover" (int 0) He) as [at' ->].
  destruct (first_stat_total valuation_df "decline_top_turnover" (int 0) He) as [dt ->].
  by eexists.
Qed.

(** C7 (amended). On an empty options table the classifier does not
    raise and returns the five list buckets empty.  The three narratives are
    those of the index statistics alone: they say that data is unavailable
    when the index-statistics table is empty as well. *)
Theorem alerts_on_empty_options valuation_df options_df :
  df_empty options_df = true →
  ∃ a, generate_alerts valuation_df options_df = Ok a
    ∧ momentum a = [] ∧ unwinding a = [] ∧ freshLongs a = []
    ∧ buyerDominance a = [] ∧ sellerDominance a = []
    ∧ narratives valuation_df
      = Ok (fairValuation a, marketBreadth a, buyingInterest a)
    ∧ (df_empty valuation_df = true →
       fairValuation a = "Valuation data unavailable."
       ∧ marketBreadth a = "Market breadth data unavailable."
       ∧ buyingInterest a = "Buying interest data unavailable.").
Proof.
  intros He. unfold generate_alerts, list_buckets. rewrite He.
  destruct (narratives_total valuation_df) as [[[fv mb] bi] Hn].
  rewrite Hn. simpl. eexists. split; [done|]. simpl. do 6 (split; [done|]).
  intros Hv. unfold narratives in Hn. rewrite Hv in Hn.
  by injection Hn as <- <- <-.
Qed.


Lemma row_momentum_rule opt : row_momentum opt = true ↔ momentum_rule opt.
Proof. unfold row_momentum, is_momentum, momentum_rule. apply bool_decide_eq_true. Qed.

Lemma row_unwinding_rule opt : row_unwinding opt = true ↔ unwinding_rule opt.
Proof.
  unfold row_unwinding, is_unwinding, unwinding_rule.
  by rewrite andb_true_iff, !bool_decide_eq_true.
Qed.

Lemma row_fresh_longs_rule opt : row_fresh_longs opt = true ↔ fresh_longs_rule opt.
Proof.
  unfold row_fresh_longs, fresh_longs_rule.
  rewrite andb_true_iff, negb_true_iff, <-not_true_iff_false, row_unwinding_rule.
  unfold is_fresh_longs. by rewrite andb_true_iff, !bool_decide_eq_true.
Qed.

Lemma row_buyer_dominance_rule opt :
  row_buyer_dominance opt = true ↔ buyer_dominance_rule opt.
Proof.
  unfold row_buyer_dominance, is_buyer_dominance, buyer_dominance_rule.
  rewrite !andb_true_iff, !bool_decide_eq_true. tauto.
Qed.

Lemma row_seller_dominance_rule opt :
  row_seller_dominance opt = true ↔ seller_dominance_rule opt.
Proof.
  unfold row_seller_dominance, seller_dominance_rule.
  rewrite andb_true_iff, negb_true_iff, <-not_true_iff_false, row_buyer_dominance_rule.
  unfold is_seller_dominance. rewrite !andb_true_iff, !bool_decide_eq_true. tauto.
Qed.

Lemma bucket_add_ok k b : bucket_ok b → bucket_ok (bucket_add k b).
Proof. forget_conversions.
  intros [Hnd Hseen]. unfold bucket_add. case_bool_decide as Hk; [done|].
  split; simpl.
  - apply NoDup_app. split; [done|]. split; [|apply NoDup_singleton].
    intros k' Hk' ->%list_elem_of_singleton. apply Hk. by apply Hseen.
  - intros k'. rewrite elem_of_union, elem_of_singleton, elem_of_app,
      list_elem_of_singleton, Hseen. tauto.
Qed.

Lemma bucket_add_keys k b k' :
  bucket_ok b → k' ∈ keys (bucket_add k b) ↔ k' = k ∨ k' ∈ keys b.
Proof. forget_conversions.
  intros [_ Hseen]. unfold bucket_add. case_bool_decide as Hk; simpl.
  - split; [tauto|]. intros [->|]; [by apply Hseen|done].
  - rewrite elem_of_app, list_elem_of_singleton. tauto.
Qed.

(** What the loop makes of one bucket, whichever it is: [f] picks the
    bucket and [rule] is its rule. *)
Lemma classify_fold (f : buckets → bucket) (rule : dict → bool) cols :
  (∀ st opt,
     f (classify_row cols st opt)
     = match row_key cols opt with
       | Some k => if rule opt then bucket_add k (f st) else f st
       | None => f st
       end) →
  ∀ df st, bucket_ok (f st) →
    bucket_ok (f (foldl (classify_row cols) st df))
    ∧ ∀ k, k ∈ keys (f (foldl (classify_row cols) st df))
           ↔ k ∈ keys (f st)
             ∨ ∃ opt, opt ∈ df ∧ row_key cols opt = Some k ∧ rule opt = true.
Proof. forget_conversions.
  intros Hstep df. induction df as [|opt df IH]; intros st Hok; simpl.
  { split; [done|]. intros k. split; [tauto|]. intros [|(opt & Hin & _)]; [done|].
    by apply elem_of_nil in Hin. }
  assert (bucket_ok (f (classify_row cols st opt))) as Hok'.
  { rewrite Hstep. destruct (row_key cols opt); [|done].
    destruct (rule opt); [by apply bucket_add_ok|done]. }
  destruct (IH _ Hok') as [Hfin Hmem]. split; [done|].
  intros k. rewrite Hmem, Hstep. setoid_rewrite elem_of_cons.
  destruct (row_key cols opt) as [k0|] eqn:Hk0.
  - destruct (rule opt) eqn:Hr.
    + rewrite bucket_add_keys by done. split.
      * intros [[->|?]|(o & ? & ? & ?)]; eauto 8.
      * intros [?|(o & [->|?] & Hko & ?)]; eauto 8.
        left. left. congruence.
    + split.
      * intros [?|(o & ? & ? & ?)]; eauto 8.
      * intros [?|(o & [->|?] & Hko & ?)]; eauto 8. congruence.
  - split.
    + intros [?|(o & ? & ? & ?)]; eauto 8.
    + intros [?|(o & [->|?] & Hko & ?)]; eauto 8. congruence.
Qed.

Ltac destruct_rules :=
  repeat match goal with
    | |- context [is_momentum ?a] => destruct (is_momentum a)
    | |- context [is_unwinding ?a ?b] => destruct (is_unwinding a b)
    | |- context [is_fresh_longs ?a ?b] => destruct (is_fresh_longs a b)
    | |- context [is_buyer_dominance ?a ?b] => destruct (is_buyer_dominance a b)
    | |- context [is_seller_dominance ?a ?b] => destruct (is_seller_dominance a b)
    end.

Lemma classify_momentum cols st opt :
  b_momentum (classify_row cols st opt)
  = match row_key cols opt with
    | Some k => if row_momentum opt then bucket_add k (b_momentum st) else b_momentum st
    | None => b_momentum st
    end.
Proof.
  unfold classify_row, row_key, row_momentum, pchange_of.
  destruct (_ || _); [done|].
  destruct_rules; reflexivity.
Qed.

Lemma classify_unwinding cols st opt :
  b_unwinding (classify_row cols st opt)
  = match row_key cols opt with
    | Some k => if row_unwinding opt then bucket_add k (b_unwinding st) else b_unwinding st
    | None => b_unwinding st
    end.
Proof.
  unfold classify_row, row_key, row_unwinding, oi_of, coi_of.
  destruct (_ || _); [done|].
  destruct_rules; reflexivity.
Qed.

Lemma classify_fresh_longs cols st opt :
  b_fresh_longs (classify_row cols st opt)
  = match row_key cols opt with
    | Some k =>
        if row_fresh_longs opt then bucket_add k (b_fresh_longs st) else b_fresh_longs st
    | None => b_fresh_longs st
    end.
Proof.
  unfold classify_row, row_key, row_fresh_longs, row_unwinding, oi_of, coi_of.
  destruct (_ || _); [done|].
  destruct_rules; reflexivity.
Qed.

Lemma classify_buyer_dominance cols st opt :
  b_buyer_dominance (classify_row cols st opt)
  = match row_key cols opt with
    | Some k =>
        if row_buyer_dominance opt
        then bucket_add k (b_buyer_dominance st) else b_buyer_dominance st
    | None => b_buyer_dominance st
    end.
Proof.
  unfold classify_row, row_key, row_buyer_dominance, tbq_of, tsq_of.
  destruct (_ || _); [done|].
  destruct_rules; reflexivity.
Qed.

Lemma classify_seller_dominance cols st opt :
  b_seller_dominance (classify_row cols st opt)
  = match row_key cols opt with
    | Some k =>
        if row_seller_dominance opt
        then bucket_add k (b_seller_dominance st) else b_seller_dominance st
    | None => b_seller_dominance st
    end.
Proof.
  unfold classify_row, row_key, row_seller_dominance, row_buyer_dominance, tbq_of, tsq_of.
  destruct (_ || _); [done|].
  destruct_rules; reflexivity.
Qed.


Lemma string_ltb_leb a b : String.ltb b a = false ↔ String.leb a b = true.
Proof.
  unfold String.ltb, String.leb. rewrite (String.compare_antisym a b).
  destruct (String.compare b a); simpl; split; congruence.
Qed.

Lemma string_ltb_asym a b : String.ltb a b = true → String.ltb b a = false.
Proof.
  unfold String.ltb. rewrite (String.compare_antisym a b).
  destruct (String.compare b a); simpl; congruence.
Qed.

Lemma string_ltb_negtrans a b c :
  String.ltb b a = false → String.ltb c b = false → String.ltb c a = false.
Proof.
  rewrite !string_ltb_leb. intros H1%Is_true_true H2%Is_true_true.
  apply Is_true_true. change (String.le a c). by etrans.
Qed.

Lemma sorted_strings_isort l : sorted_strings l = Ok (isort String.ltb l).
Proof. by apply py_sorted_pure. Qed.

Lemma isort_lexicographic l : lexicographic (isort String.ltb l).
Proof.
  eapply StronglySorted_weaken;
    [|apply (isort_sorted String.ltb string_ltb_asym string_ltb_negtrans)].
  intros a b H%string_ltb_leb. by apply Is_true_true.
Qed.

(** One bucket of the result: the sorted keys that the loop has gathered. *)
Lemma bucket_sorted (f : buckets → bucket) (rule : dict → bool) (P : dict → Prop) df :
  (∀ st opt,
     f (classify_row (df_columns df) st opt)
     = match row_key (df_columns df) opt with
       | Some k => if rule opt then bucket_add k (f st) else f st
       | None => f st
       end) →
  f empty_buckets = empty_bucket →
  (∀ opt, rule opt = true ↔ P opt) →
  (∀ opt, opt ∈ df → row_key (df_columns df) opt = Some (contract_key opt)) →
  bucket_of df P
    (isort String.ltb (keys (f (foldl (classify_row (df_columns df)) empty_buckets df)))).
Proof. forget_conversions.
  intros Hstep Hinit Hrule Hkey.
  destruct (classify_fold f rule (df_columns df) Hstep df empty_buckets) as [[Hnd _] Hmem].
  { rewrite Hinit. split; [constructor|]. intros k. simpl. set_solver. }
  split; [|split].
  - intros k. rewrite (isort_perm String.ltb), Hmem, Hinit. simpl. split.
    + intros [Hnil|(opt & Hin & Hk & Hr)]; [by apply elem_of_nil in Hnil|].
      exists opt. rewrite (Hkey _ Hin) in Hk. injection Hk as <-.
      split; [done|]. split; [done|]. by apply Hrule.
    + intros (opt & Hin & <- & HP). right. exists opt.
      split; [done|]. split; [by apply Hkey|]. by apply Hrule.
  - by rewrite (isort_perm String.ltb).
  - apply isort_lexicographic.
Qed.

Lemma list_buckets_spec df :
  df_empty df = false →
  Forall (λ c, c ∈ df_columns df) ["pchange"; "OI"; "COI"; "TBQ"; "TSQ"] →
  (∀ opt, opt ∈ df → row_key (df_columns df) opt = Some (contract_key opt)) →
  ∃ mo un fl bd sd,
    list_buckets df = Ok (mo, un, fl, bd, sd)
    ∧ bucket_of df momentum_rule mo
    ∧ bucket_of df unwinding_rule un
    ∧ bucket_of df fresh_longs_rule fl
    ∧ bucket_of df buyer_dominance_rule bd
    ∧ bucket_of df seller_dominance_rule sd.
Proof.
  intros He Hcols Hkey. unfold list_buckets, require_column. rewrite He.
  rewrite !Forall_cons in Hcols. destruct Hcols as (H1 & H2 & H3 & H4 & H5 & _).
  rewrite !bool_decide_true by done. simpl.
  rewrite !sorted_strings_isort. simpl.
  do 5 eexists. split; [reflexivity|].
  split; [|split; [|split; [|split]]].
  - by apply (bucket_sorted b_momentum row_momentum);
      [apply classify_momentum| |apply row_momentum_rule|].
  - by apply (bucket_sorted b_unwinding row_unwinding);
      [apply classify_unwinding| |apply row_unwinding_rule|].
  - by apply (bucket_sorted b_fresh_longs row_fresh_longs);
      [apply classify_fresh_longs| |apply row_fresh_longs_rule|].
  - by apply (bucket_sorted b_buyer_dominance row_buyer_dominance);
      [apply classify_buyer_dominance| |apply row_buyer_dominance_rule|].
  - by apply (bucket_sorted b_seller_dominance row_seller_dominance);
      [apply classify_seller_dominance| |apply row_seller_dominance_rule|].
Qed.

Lemma bucket_of_nil rule : bucket_of [] rule [].
Proof.
  split; [|split; constructor]. intros k. split.
  - by intros ?%elem_of_nil.
  - by intros (opt & ?%elem_of_nil & _).
Qed.

Lemma fmap_injective_on {A B} (f : A → B) (l : list A) x y :
  NoDup (f <$> l) → x ∈ l → y ∈ l → f x = f y → x = y.
Proof.
  induction l as [|a l IH]; csimpl; [by intros _ ?%elem_of_nil|].
  intros [Ha Hnd]%NoDup_cons [->|Hx]%elem_of_cons [->|Hy]%elem_of_cons Hf; auto.
  - destruct Ha. rewrite Hf. by apply list_elem_of_fmap_2.
  - destruct Ha. rewrite <-Hf. by apply list_elem_of_fmap_2.
Qed.

(** On a table without two rows of the same key, the bucket tells of each
    row whether it satisfies the rule. *)
Lemma bucket_of_row df rule l opt :
  bucket_of df rule l → NoDup (contract_key <$> df) → opt ∈ df →
  contract_key opt ∈ l ↔ rule opt.
Proof.
  intros [Hmem _] Hnd Hin. rewrite Hmem. split.
  - intros (opt' & Hin' & Hk & Hr).
    by rewrite <-(fmap_injective_on contract_key df opt' opt Hnd Hin' Hin Hk).
  - intros Hr. by exists opt.
Qed.


(** *** The unified options table *)

Lemma alert_rows_strike n chain opt :
  opt ∈ all_options_for_alerts n chain →
  ∃ strike typ expiry data,
    opt = alert_opt strike typ expiry data ∧ strike ≠ VNone.
Proof.
  unfold all_options_for_alerts. intros (r & Hopt & _)%list_elem_of_bind.
  unfold alert_rows_of in Hopt. case_bool_decide as Hs; [by apply elem_of_nil in Hopt|].
  apply elem_of_app in Hopt as [Hopt|Hopt]; destruct (dict_truthy _);
    try (by apply elem_of_nil in Hopt);
    apply list_elem_of_singleton in Hopt; eauto 8.
Qed.

Lemma alert_opt_lookup strike typ expiry data k :
  alert_opt strike typ expiry data !! k
  = assoc k
      [ ("strikePrice", strike); ("optionType", VStr typ); ("expiryDate", expiry);
        ("OI", VNum (normalize (dict_get data "openInterest" (VInt 0)) (int 0)));
        ("COI", VNum (normalize (dict_get data "changeinOpenInterest" (VInt 0)) (int 0)));
        ("TBQ", VNum (normalize (dict_get data "totalBuyQuantity" (VInt 0)) (int 0)));
        ("TSQ", VNum (normalize (dict_get data "totalSellQuantity" (VInt 0)) (int 0)));
        ("pchange", VNum (normalize (dict_get data "pChange" (VInt 0)) (int 0)));
        ("lastPrice", VNum (normalize (dict_get data "lastPrice" (VInt 0)) (int 0))) ].
Proof. unfold alert_opt. apply list_to_map_assoc. Qed.

Lemma alert_table_columns n chain c :
  all_options_for_alerts n chain ≠ [] →
  c ∈ [ "strikePrice"; "optionType"; "pchange"; "OI"; "COI"; "TBQ"; "TSQ" ] →
  c ∈ df_columns (all_options_for_alerts n chain).
Proof.
  intros Hne Hc. destruct (all_options_for_alerts n chain) as [|opt table] eqn:Ht; [done|].
  assert (opt ∈ all_options_for_alerts n chain) as Hopt by (rewrite Ht; left).
  apply alert_rows_strike in Hopt as (strike & typ & expiry & data & -> & _).
  unfold df_columns. apply elem_of_union_list. eexists. split; [left|].
  apply elem_of_dom. rewrite alert_opt_lookup.
  rewrite !elem_of_cons, elem_of_nil in Hc.
  repeat (destruct Hc as [->|Hc]; [by eexists|]). done.
Qed.

Lemma alert_table_not_empty n chain :
  all_options_for_alerts n chain ≠ [] →
  df_empty (all_options_for_alerts n chain) = false.
Proof.
  intros Hne. unfold df_empty. rewrite bool_decide_false by done. simpl.
  apply bool_decide_eq_false. intros He.
  assert ("OI" ∈ df_columns (all_options_for_alerts n chain)) as Hin
    by (apply alert_table_columns; [done|in_list]).
  rewrite He in Hin. by apply not_elem_of_empty in Hin.
Qed.

Lemma alert_table_row_key n chain opt :
  opt ∈ all_options_for_alerts n chain →
  row_key (df_columns (all_options_for_alerts n chain)) opt = Some (contract_key opt).
Proof.
  intros Hopt.
  assert (all_options_for_alerts n chain ≠ []) as Hne
    by (intros He; rewrite He in Hopt; by apply elem_of_nil in Hopt).
  apply alert_rows_strike in Hopt as (strike & typ & expiry & data & -> & Hs).
  unfold row_key, row_get, contract_key, df_cell, dict_get_none, dict_get.
  rewrite (bool_decide_true ("strikePrice" ∈ _))
    by (apply alert_table_columns; [done|in_list]).
  rewrite (bool_decide_true ("optionType" ∈ _))
    by (apply alert_table_columns; [done|in_list]).
  rewrite !alert_opt_lookup. simpl.
  by rewrite bool_decide_false.
Qed.

(** C4 (amended). For the unified options table built from the chain, the
    classifier returns, for each of the five rules, the keys of the rows
    that satisfy the rule, each once and in lexicographic order: a key is
    in a bucket exactly when some row with that key satisfies the rule.
    When no two rows have the same key, this is the rule of the row itself,
    and then no key is both in [unwinding] and in [freshLongs], nor both in
    [buyerDominance] and in [sellerDominance]. *)
Theorem alert_buckets nearest chain valuation_df :
  ∃ a,
    generate_alerts valuation_df (all_options_for_alerts nearest chain) = Ok a
    ∧ bucket_of (all_options_for_alerts nearest chain) momentum_rule (momentum a)
    ∧ bucket_of (all_options_for_alerts nearest chain) unwinding_rule (unwinding a)
    ∧ bucket_of (all_options_for_alerts nearest chain) fresh_longs_rule (freshLongs a)
    ∧ bucket_of (all_options_for_alerts nearest chain) buyer_dominance_rule
        (buyerDominance a)
    ∧ bucket_of (all_options_for_alerts nearest chain) seller_dominance_rule
        (sellerDominance a)
    ∧ (NoDup (contract_key <$> all_options_for_alerts nearest chain) →
       ∀ opt, opt ∈ all_options_for_alerts nearest chain →
         (contract_key opt ∈ momentum a ↔ momentum_rule opt)
         ∧ (contract_key opt ∈ unwinding a ↔ unwinding_rule opt)
         ∧ (contract_key opt ∈ freshLongs a ↔ fresh_longs_rule opt)
         ∧ (contract_key opt ∈ buyerDominance a ↔ buyer_dominance_rule opt)
         ∧ (contract_key opt ∈ sellerDominance a ↔ seller_dominance_rule opt)
         ∧ ¬ (contract_key opt ∈ unwinding a ∧ contract_key opt ∈ freshLongs a)
         ∧ ¬ (contract_key opt ∈ buyerDominance a
              ∧ contract_key opt ∈ sellerDominance a)).
Proof. forget_conversions.
  set (table := all_options_for_alerts nearest chain).
  assert (∃ mo un fl bd sd,
            list_buckets table = Ok (mo, un, fl, bd, sd)
            ∧ bucket_of table momentum_rule mo
            ∧ bucket_of table unwinding_rule un
            ∧ bucket_of table fresh_longs_rule fl
            ∧ bucket_of table buyer_dominance_rule bd
            ∧ bucket_of table seller_dominance_rule sd)
    as (mo & un & fl & bd & sd & Hb & Hmo & Hun & Hfl & Hbd & Hsd).
  { destruct (decide (table = [])) as [He|Hne].
    - rewrite He. exists [], [], [], [], []. split; [done|].
      do 4 (split; [apply bucket_of_nil|]). apply bucket_of_nil.
    - apply list_buckets_spec.
      + by apply alert_table_not_empty.
      + repeat constructor; apply alert_table_columns; try done; in_list.
      + apply alert_table_row_key. }
  destruct (narratives_total valuation_df) as [[[fv mb] bi] Hn].
  unfold generate_alerts. rewrite Hn, Hb. simpl.
  eexists. split; [done|]. simpl. do 5 (split; [done|]).
  intros Hnd opt Hopt.
  pose proof (bucket_of_row _ _ _ opt Hmo Hnd Hopt) as H1.
  pose proof (bucket_of_row _ _ _ opt Hun Hnd Hopt) as H2.
  pose proof (bucket_of_row _ _ _ opt Hfl Hnd Hopt) as H3.
  pose proof (bucket_of_row _ _ _ opt Hbd Hnd Hopt) as H4.
  pose proof (bucket_of_row _ _ _ opt Hsd Hnd Hopt) as H5.
  do 5 (split; [done|]). rewrite H2, H3, H4, H5.
  unfold fresh_longs_rule, seller_dominance_rule. tauto.
Qed.


(** ** The merger on the heap *)

Lemma st_bind_Ok {A B} (m : M A) (f : A → M B) h a h' :
  m h = Ok (a, h') → st_bind m f h = f a h'.
Proof. intros Hm. unfold st_bind. by rewrite Hm. Qed.

Lemma st_bind_Raise {A B} (m : M A) (f : A → M B) h e :
  m h = Raise e → st_bind m f h = Raise e.
Proof. intros Hm. unfold st_bind. by rewrite Hm. Qed.

Lemma deref_with_obj h l d : deref (with_obj h l d) l = d.
Proof. unfold deref, with_obj. simpl. by rewrite lookup_insert_eq. Qed.

Lemma with_obj_twice h l d d' : with_obj (with_obj h l d) l d' = with_obj h l d'.
Proof. unfold with_obj. simpl. by rewrite insert_insert_eq. Qed.

Lemma get_at_obj h l d k dflt :
  get_at l k dflt (with_obj h l d) = Ok (dict_get d k dflt, with_obj h l d).
Proof. unfold get_at. by rewrite deref_with_obj. Qed.

Lemma set_at_obj h l d k v :
  set_at l k v (with_obj h l d) = Ok ((), with_obj h l (<[k := v]> d)).
Proof.
  unfold set_at. rewrite deref_with_obj.
  by rewrite <-(with_obj_twice h l d (<[k := v]> d)).
Qed.

Lemma update_at_obj h l d new :
  update_at l new (with_obj h l d) = Ok ((), with_obj h l (new ∪ d)).
Proof.
  unfold update_at. rewrite deref_with_obj.
  by rewrite <-(with_obj_twice h l d (new ∪ d)).
Qed.

(** [merged[k] = g(merged.get(k, dflt))] *)
Lemma assign_obj {B} h l d k dflt (g : value → value) (K : M B) :
  (v ⇐ get_at l k dflt;; _ ⇐ set_at l k (g v);; K) (with_obj h l d)
  = K (with_obj h l (assign k (λ m, g (dict_get m k dflt)) d)).
Proof.
  rewrite (st_bind_Ok _ _ _ _ _ (get_at_obj _ _ _ _ _)).
  by rewrite (st_bind_Ok _ _ _ _ _ (set_at_obj _ _ _ _ _)).
Qed.

Lemma set_obj {B} h l d k v (K : M B) :
  (_ ⇐ set_at l k v;; K) (with_obj h l d)
  = K (with_obj h l (assign k (λ _, v) d)).
Proof. by rewrite (st_bind_Ok _ _ _ _ _ (set_at_obj _ _ _ _ _)). Qed.

Lemma get_obj {B} h l d k dflt (K : value → M B) :
  (v ⇐ get_at l k dflt;; K v) (with_obj h l d)
  = K (dict_get d k dflt) (with_obj h l d).
Proof. by rewrite (st_bind_Ok _ _ _ _ _ (get_at_obj _ _ _ _ _)). Qed.

(** One summary on the heap: the merged record is a new object, and it is
    the record that the function on values returns. *)
Lemma enrich_contract_st_spec n l h :
  enrich_contract_st n l h
  = match enrich_contract (lookup_table h) n (deref h l) with
    | Ok merged => Ok (fresh (dom (objects h)), with_obj h (fresh (dom (objects h))) merged)
    | Raise e => Raise e
    end.
Proof.
  unfold enrich_contract_st, enrich_contract.
  set (l' := fresh (dom (objects h))).
  set (c := deref h l).
  unfold st_bind at 1, get_at at 1. fold c.
  unfold st_bind at 1, get_at at 1. fold c.
  unfold st_bind at 1, get_at at 1. fold c.
  unfold st_bind at 1, copy_dict at 1. fold c l'.
  change {| objects := <[l' := c]> (objects h); lookup_table := lookup_table h |}
    with (with_obj h l' c).
  unfold st_bind at 1, find_detail at 1. simpl lookup_table.
  fold (lookup_expiry_of n c). fold (found_detail (lookup_table h) n c).
  unfold merge_detail.
  assert (∀ {B} (K : M B),
            (_ ⇐ match found_detail (lookup_table h) n c with
                 | Some detail => update_at l' (detail_update detail)
                 | None => st_ret ()
                 end;; K) (with_obj h l' c)
            = K (with_obj h l'
                   match found_detail (lookup_table h) n c with
                   | Some detail => detail_update detail ∪ c
                   | None => c
                   end)) as Hupd.
  { intros B K. destruct (found_detail _ _ _).
    - by rewrite (st_bind_Ok _ _ _ _ _ (update_at_obj _ _ _ _)).
    - done. }
  rewrite Hupd. clear Hupd.
  set (d0 := match found_detail (lookup_table h) n c with
             | Some detail => detail_update detail ∪ c
             | None => c
             end).
  unfold dict_get_none.
  destruct (replace_option_type (dict_get c "optionType" VNone)) as [t|e]; [|done].
  unfold st_bind at 1, st_ret at 1. simpl.
  rewrite set_obj.
  rewrite (assign_obj _ _ _ "lastPrice" _ (λ v, VNum (normalize v min_tick))).
  rewrite (assign_obj _ _ _ "volume" _ (λ v, VNum (normalize v (int 0)))).
  rewrite (assign_obj _ _ _ "value" _ (λ v, v)).
  rewrite (assign_obj _ _ _ "pchange" _ (λ v, VNum (normalize v (int 0)))).
  rewrite !get_obj. rewrite !set_obj.
  rewrite (assign_obj _ _ _ "expiryDate" _ (λ v, v)).
  reflexivity.
Qed.


Lemma extends_refl h : extends h h.
Proof. by split. Qed.

Lemma extends_allocated h h' l : extends h h' → allocated h l → allocated h' l.
Proof.
  intros [_ Hobj] Hl. unfold allocated in *. apply elem_of_dom.
  rewrite Hobj by done. by apply elem_of_dom.
Qed.

Lemma extends_trans h1 h2 h3 : extends h1 h2 → extends h2 h3 → extends h1 h3.
Proof.
  intros H12 H23. split.
  - destruct H12 as [<- _]. by destruct H23.
  - intros l Hl. destruct H23 as [_ H23]. rewrite H23 by by eapply extends_allocated.
    destruct H12 as [_ H12]. by apply H12.
Qed.

Lemma extends_deref h h' l : extends h h' → allocated h l → deref h' l = deref h l.
Proof. intros [_ Hobj] Hl. unfold deref. by rewrite Hobj. Qed.

Lemma extends_derefs h h' (ls : list nat) :
  extends h h' → Forall (allocated h) ls → deref h' <$> ls = deref h <$> ls.
Proof.
  intros He Hls. apply list_fmap_ext. intros i l Hl.
  apply extends_deref; [done|]. rewrite Forall_forall in Hls.
  apply Hls. by eapply list_elem_of_lookup_2.
Qed.

Lemma fresh_not_allocated h : ¬ allocated h (fresh (dom (objects h))).
Proof. apply is_fresh. Qed.

Lemma with_obj_fresh_extends h d :
  extends h (with_obj h (fresh (dom (objects h))) d).
Proof.
  split; [done|]. intros l Hl. unfold with_obj. simpl.
  apply lookup_insert_ne. intros <-. by apply (fresh_not_allocated h).
Qed.

Lemma with_obj_allocated h l d : allocated (with_obj h l d) l.
Proof. unfold allocated, with_obj. simpl. apply elem_of_dom. by rewrite lookup_insert_eq. Qed.

(** The merger on the heap returns new objects that hold what the merger
    on values returns, and leaves the table and every object that was
    there as they were; it raises when the merger on values does. *)
Lemma enrich_contracts_st_spec n ls h :
  Forall (allocated h) ls →
  match enrich_contracts (lookup_table h) n (deref h <$> ls) with
  | Ok out =>
      ∃ ls' h', enrich_contracts_st n ls h = Ok (ls', h')
                ∧ deref h' <$> ls' = out
                ∧ extends h h'
                ∧ Forall (allocated h') ls'
  | Raise e => enrich_contracts_st n ls h = Raise e
  end.
Proof.
  revert h. induction ls as [|l ls IH]; intros h Hls.
  { simpl. exists [], h. split; [done|]. split; [done|].
    split; [apply extends_refl|constructor]. }
  apply Forall_cons in Hls as [Hl Hls]. csimpl.
  pose proof (enrich_contract_st_spec n l h) as Hone.
  destruct (enrich_contract (lookup_table h) n (deref h l)) as [merged|e]; simpl.
  2: { by rewrite (st_bind_Raise _ _ _ _ Hone). }
  set (l' := fresh (dom (objects h))) in *.
  set (h1 := with_obj h l' merged) in *.
  assert (extends h h1) as He1 by apply with_obj_fresh_extends.
  assert (Forall (allocated h1) ls) as Hls1.
  { eapply Forall_impl; [exact Hls|]. intros; by eapply extends_allocated. }
  specialize (IH h1 Hls1).
  rewrite (extends_derefs h h1 ls He1 Hls) in IH.
  replace (lookup_table h1) with (lookup_table h) in IH by done.
  rewrite (st_bind_Ok _ _ _ _ _ Hone).
  destruct (enrich_contracts (lookup_table h) n (deref h <$> ls)) as [out|e]; simpl.
  2: { by rewrite (st_bind_Raise _ _ _ _ IH). }
  destruct IH as (ls' & h' & Hrun & Hout & He & Hall).
  rewrite (st_bind_Ok _ _ _ _ _ Hrun). exists (l' :: ls'), h'.
  split; [done|]. split; [|split].
  - csimpl. rewrite Hout. f_equal.
    rewrite (extends_deref h1 h' l' He) by apply with_obj_allocated.
    apply deref_with_obj.
  - by eapply extends_trans.
  - constructor; [|done]. eapply extends_allocated; [done|]. apply with_obj_allocated.
Qed.

(** C9. Run on the same summaries and the same table, the merger returns
    the same records again: the first run leaves the table and the
    summaries (and every other object there was) unchanged, its records
    are those of the merger as a function of table and summaries, and so
    are the records of a second run.  When the first run raises, every run
    on the unchanged inputs raises the same exception. *)
Theorem enrich_twice_same_output nearest ls h :
  Forall (allocated h) ls → same_output_twice nearest ls h.
Proof.
  intros Hls. unfold same_output_twice. pose proof (enrich_contracts_st_spec nearest ls h Hls) as H1.
  destruct (enrich_contracts (lookup_table h) nearest (deref h <$> ls))
    as [out|e] eqn:Hpure.
  - destruct H1 as (out1 & h1 & -> & Hout & He1 & Hall1).
    split; [done|]. split; [by rewrite Hout|].
    assert (Forall (allocated h1) ls) as Hls1.
    { eapply Forall_impl; [exact Hls|]. intros; by eapply extends_allocated. }
    pose proof (enrich_contracts_st_spec nearest ls h1 Hls1) as H2.
    rewrite (extends_derefs h h1 ls He1 Hls) in H2.
    destruct He1 as [Ht1 Ho1]. rewrite Ht1, Hpure in H2.
    destruct H2 as (out2 & h2 & Hrun2 & Hout2 & He2 & _).
    exists out2, h2. split; [done|]. split; [congruence|]. split; [|done].
    by apply extends_derefs.
  - rewrite H1. intros h' He.
    assert (Forall (allocated h') ls) as Hls'.
    { eapply Forall_impl; [exact Hls|]. intros; by eapply extends_allocated. }
    pose proof (enrich_contracts_st_spec nearest ls h' Hls') as H2.
    rewrite (extends_derefs h h' ls He Hls) in H2.
    destruct He as [Ht _]. by rewrite Ht, Hpure in H2.
Qed.


(** ** The insider-disclosure assembler *)

Lemma frame_of_columns (records : list dict) r :
  r ∈ frame_of records → dom r = df_columns records.
Proof.
  unfold frame_of. intros (r0 & -> & _)%list_elem_of_fmap.
  apply set_eq. intros c. rewrite elem_of_dom. split.
  - intros [v (c' & Hc' & [= <- _])%lookup_set_to_map]; done.
  - intros Hc. exists (df_cell r0 c). apply lookup_set_to_map; [done|]. by exists c.
Qed.

Lemma frame_of_df_columns (records : list dict) :
  df_columns (frame_of records) = df_columns records.
Proof.
  destruct records as [|r0 records]; [done|].
  apply set_eq. intros c. unfold df_columns at 1. rewrite elem_of_union_list. split.
  - intros (X & (r & -> & Hr)%list_elem_of_fmap & Hc).
    by rewrite (frame_of_columns _ _ Hr) in Hc.
  - intros Hc. eexists. split; [apply list_elem_of_fmap_2; left|].
    rewrite (frame_of_columns (r0 :: records)); [done|]. unfold frame_of. csimpl. left.
Qed.

Lemma frame_of_empty (records : list dict) :
  df_empty (frame_of records) = df_empty records.
Proof.
  unfold df_empty. rewrite frame_of_df_columns. f_equal.
  destruct records; [done|]. by rewrite !bool_decide_false.
Qed.

Lemma df_not_empty (records : list dict) r :
  r ∈ records → r ≠ ∅ → df_empty records = false.
Proof.
  intros Hr Hne. unfold df_empty. apply orb_false_intro; apply bool_decide_eq_false.
  - intros ->. by apply elem_of_nil in Hr.
  - intros He. apply Hne, map_empty. intros c. apply not_elem_of_dom.
    intros Hc. assert (c ∈ df_columns records) as Hin.
    { apply elem_of_union_list. eexists. split; [by apply list_elem_of_fmap_2|done]. }
    rewrite He in Hin. by apply not_elem_of_empty in Hin.
Qed.

(** C10. On an empty transaction list the assembler returns an empty
    [corporatesPIT] and a summary whose only key is [totalDisclosures],
    with value 0.  On a list that holds a transaction with at least one
    field, the summary it returns has the five keys [latestDisclosure],
    [totalDisclosures], [buyValueTotal], [sellValueTotal] and
    [companySummary]. *)
Theorem corporates_pit_empty acq_name_list :
  get_corporates_pit acq_name_list []
  = Ok {| corporatesPIT := []; acqNameList := acq_name_list;
          summary := {[ "totalDisclosures" := PCount 0 ]} |}
  ∧ dom ({[ "totalDisclosures" := PCount 0 ]} : gmap string pit_value)
    = {[ "totalDisclosures" ]}
  ∧ ∀ records,
      (∃ r, r ∈ records ∧ r ≠ ∅) →
      match get_corporates_pit acq_name_list records with
      | Ok res => dom (summary res) = full_summary_keys
      | Raise _ => True
      end.
Proof.
  split; [done|]. split; [apply dom_singleton_L|].
  intros records (r & Hr & Hne). unfold get_corporates_pit.
  rewrite frame_of_empty, (df_not_empty _ _ Hr Hne). cbv zeta.
  generalize (if bool_decide ("date" ∈ df_columns (clean_numeric (frame_of records)))
              then sort_by_date (clean_numeric (frame_of records))
              else clean_numeric (frame_of records)).
  intros df.
  destruct (value_total "BUY" df) as [buy|]; [|done]. rewrite bind_Ok.
  destruct (value_total "SELL" df) as [sell|]; [|done]. rewrite bind_Ok.
  destruct (company_summary_of df) as [cs|]; [|done]. rewrite bind_Ok.
  destruct df as [|latest df]; [done|]. rewrite bind_Ok.
  cbn [summary]. rewrite dom_list_to_map_L. reflexivity.
Qed.


(** * The rest of the pipeline: facts *)

(** ** Dates *)

(** X1. The next occurrence of a weekday: for a weekday from 0 to 6 and a
    start at least a week before the last day, [get_next_weekday] returns a
    day one to seven days after the start, at the same time of day, that
    falls on the weekday, and no day in between does.  A start that falls
    on the weekday gives the day a week later. *)
Theorem get_next_weekday_next start_date weekday :
  (0 ≤ weekday ≤ 6)%Z →
  (1 ≤ ordinal start_date)%Z → (ordinal start_date + 7 ≤ max_ordinal)%Z →
  ∃ d, get_next_weekday start_date weekday = Some d
    ∧ (1 ≤ ordinal d - ordinal start_date ≤ 7)%Z
    ∧ weekday_of d = weekday
    ∧ time_of_day d = time_of_day start_date
    ∧ (∀ o, (ordinal start_date < o < ordinal d)%Z → ((o - 1) mod 7)%Z ≠ weekday)
    ∧ (weekday_of start_date = weekday → ordinal d = (ordinal start_date + 7)%Z).
Proof.
  intros Hw Hlo Hhi. unfold get_next_weekday, add_days, weekday_of.
  pose proof (Z.mod_pos_bound (ordinal start_date - 1) 7 ltac:(lia)) as Hm.
  set (w := ((ordinal start_date - 1) mod 7)%Z) in *.
  assert (ordinal start_date - 1 = 7 * ((ordinal start_date - 1) / 7) + w)%Z as Hdiv
    by (apply Z.div_mod; lia).
  set (q := ((ordinal start_date - 1) / 7)%Z) in *.
  unfold max_ordinal, max_timedelta_days in *.
  destruct (bool_decide (weekday - w ≤ 0)%Z) eqn:Hd;
    [apply bool_decide_eq_true in Hd | apply bool_decide_eq_false in Hd].
  - rewrite (bool_decide_true (1 ≤ _ ≤ _)%Z) by lia.
    rewrite bool_decide_true by lia. simpl. eexists. split; [done|]. simpl.
    split; [lia|]. split; [|split; [done|split]].
    + replace (ordinal start_date + (weekday - w + 7) - 1)%Z
        with (weekday + (q + 1) * 7)%Z by lia.
      rewrite Z.mod_add by lia. apply Z.mod_small. lia.
    + intros o Ho Hmod.
      assert (o - 1 = 7 * ((o - 1) / 7) + weekday)%Z as Ho'
        by (rewrite <-Hmod; apply Z.div_mod; lia).
      lia.
    + lia.
  - rewrite (bool_decide_true (1 ≤ _ ≤ _)%Z) by lia.
    rewrite bool_decide_true by lia. simpl. eexists. split; [done|]. simpl.
    split; [lia|]. split; [|split; [done|split]].
    + replace (ordinal start_date + (weekday - w) - 1)%Z
        with (weekday + q * 7)%Z by lia.
      rewrite Z.mod_add by lia. apply Z.mod_small. lia.
    + intros o Ho Hmod.
      assert (o - 1 = 7 * ((o - 1) / 7) + weekday)%Z as Ho'
        by (rewrite <-Hmod; apply Z.div_mod; lia).
      lia.
    + lia.
Qed.


(** ** What an enriched record always holds *)

Lemma enrich_contracts_Forall2 m n (P : dict → dict → Prop) l :
  (∀ c, has_label c → P c (enriched_record m n c)) →
  Forall has_label l →
  ∃ out, enrich_contracts m n l = Ok out ∧ Forall2 P l out.
Proof.
  intros HP Hl. rewrite enrich_contracts_Ok by done. eexists. split; [done|].
  apply Forall2_fmap_r, Forall_Forall2_diag. eapply Forall_impl; [exact Hl|].
  intros c Hc. by apply HP.
Qed.

Lemma normalize_min_tick v : normalize v min_tick ≠ Fin 0%Qc.
Proof.
  unfold normalize, num_or. destruct (to_numeric v) as [q|]; simpl; [|done].
  case_bool_decide as Hq; [congruence|]. by vm_compute.
Qed.

Lemma finish_contract_displays n t (d : dict) :
  displays_mirror (finish_contract n t d).
Proof.
  unfold displays_mirror, dict_get.
  rewrite !(finish_contract_other _ _ _ "OI"), !(finish_contract_other _ _ _ "COI")
    by in_list.
  rewrite finish_contract_volume. unfold finish_contract. dict_simpl.
  unfold dict_get at 3. by rewrite lookup_assign_eq; dict_simpl.
Qed.

(** X2. Quotes of an enriched record: when every summary carries a text label,
    enrichment succeeds and each record of its output has a numeric
    [lastPrice] that is never zero (a zero or missing price gives 0.05, an
    unreadable one NaN), numeric [volume] and [pchange], and display fields
    that show the record's own [OI], [COI] and [volume], with ["-"] for a
    zero. *)
Theorem enriched_quotes m n raw :
  Forall has_label raw →
  ∃ out, enrich_contracts m n raw = Ok out
    ∧ Forall (λ r, quotes_numeric r ∧ displays_mirror r) out.
Proof.
  intros Hl.
  destruct (enrich_contracts_Forall2 m n
    (λ _ r, quotes_numeric r ∧ displays_mirror r) raw) as (out & Hout & HP);
    [|done|].
  - intros c _. unfold enriched_record. split; [|apply finish_contract_displays].
    unfold quotes_numeric.
    rewrite finish_contract_lastPrice, finish_contract_volume, finish_contract_pchange.
    split; [|by eauto]. eexists. split; [done|]. apply normalize_min_tick.
  - exists out. split; [done|]. by eapply Forall2_Forall_r, Forall_true .
Qed.


Lemma merge_detail_expiryDate m n c :
  merge_detail m n c !! "expiryDate" = c !! "expiryDate".
Proof.
  unfold merge_detail. destruct (found_detail m n c) as [detail|]; [|done].
  apply lookup_union_r. unfold detail_update. by rewrite list_to_map_assoc.
Qed.

(** X3. Expiry of an enriched record: it is the summary's own [expiryDate]
    entry whenever the summary has one, even a null or an empty one that
    the chain lookup replaced by the nearest expiry; only a summary with no
    such entry gets the nearest expiry, or ["N/A"] when there is none. *)
Theorem enriched_expiry m n raw :
  Forall has_label raw →
  ∃ out, enrich_contracts m n raw = Ok out ∧ Forall2 (expiry_kept n) raw out.
Proof.
  intros Hl. apply enrich_contracts_Forall2; [|done].
  intros c _. unfold expiry_kept, enriched_record.
  rewrite finish_contract_expiryDate. unfold dict_get.
  rewrite merge_detail_expiryDate. by destruct (c !! "expiryDate").
Qed.

(** ** Sorting by strike price fails on a null strike *)

Section SortErrors.
Context {A : Type} (key : A → value).

Lemma insert_sorted_length x l s :
  insert_sorted (λ a b, py_lt (key a) (key b)) x l = Ok s →
  length s = S (length l).
Proof.
  revert s. induction l as [|y l IH]; intros s; simpl.
  - by intros [= <-].
  - destruct (py_lt (key y) (key x)) as [[]|e]; simpl; [|by intros [= <-]|done].
    destruct (insert_sorted _ x l) as [r|e]; simpl; [|done].
    intros [= <-]. simpl. f_equal. by apply IH.
Qed.

Lemma py_sorted_length l s :
  py_sorted (λ a b, py_lt (key a) (key b)) l = Ok s → length s = length l.
Proof.
  revert s. induction l as [|x l IH]; intros s; simpl.
  - by intros [= <-].
  - destruct (py_sorted _ l) as [r|e]; simpl; [|done].
    intros Hs%insert_sorted_length. rewrite Hs. f_equal. by apply IH.
Qed.

Lemma py_lt_raises a b e : py_lt a b = Raise e → e = TypeError.
Proof. destruct a as [|?|?], b as [|?|?]; simpl; congruence. Qed.

Lemma insert_sorted_raises x l e :
  insert_sorted (λ a b, py_lt (key a) (key b)) x l = Raise e → e = TypeError.
Proof.
  induction l as [|y l IH]; simpl; [done|].
  destruct (py_lt (key y) (key x)) as [[]|e'] eqn:Hlt; simpl.
  - destruct (insert_sorted _ x l) as [r|e']; simpl; [done|].
    intros [= <-]. by apply IH.
  - done.
  - intros [= <-]. by eapply py_lt_raises.
Qed.

Lemma py_sorted_raises l e :
  py_sorted (λ a b, py_lt (key a) (key b)) l = Raise e → e = TypeError.
Proof.
  induction l as [|x l IH]; simpl; [done|].
  destruct (py_sorted _ l) as [r|e']; simpl.
  - apply insert_sorted_raises.
  - intros [= <-]. by apply IH.
Qed.

Lemma py_lt_none_r a : py_lt a VNone = Raise TypeError.
Proof. by destruct a. Qed.

Lemma sorted_by_none l :
  (2 ≤ length l)%nat → (∃ a, a ∈ l ∧ key a = VNone) →
  sorted_by key l = Raise TypeError.
Proof.
  unfold sorted_by. induction l as [|x l IH]; simpl; [lia|].
  intros Hlen (a & Ha & Hkey).
  destruct (py_sorted _ l) as [s|e] eqn:Hs; simpl.
  - apply py_sorted_length in Hs as Hlen'.
    destruct (decide (2 ≤ length l)%nat) as [H2|H2].
    { apply elem_of_cons in Ha as [->|Ha].
      - destruct s as [|y s]; [simpl in *; lia|]. simpl.
        by rewrite Hkey, py_lt_none_r.
      - by specialize (IH H2 (ex_intro _ a (conj Ha Hkey))). }
    destruct l as [|y [|??]]; simpl in *; [lia| |lia].
    injection Hs as <-. simpl.
    apply elem_of_cons in Ha as [->|Ha].
    + by rewrite Hkey, py_lt_none_r.
    + apply list_elem_of_singleton in Ha as ->. by rewrite Hkey.
  - f_equal. by eapply py_sorted_raises.
Qed.

End SortErrors.

(** X4. A null strike stops the strike sort: when the summaries are two or more
    and one of them has an explicit null [strikePrice], enrichment succeeds
    and sorting the enriched records by strike raises [TypeError], whatever
    the other strikes are. *)
Theorem sorted_enriched_null_strike m n raw :
  Forall has_label raw → (2 ≤ length raw)%nat →
  (∃ c, c ∈ raw ∧ c !! "strikePrice" = Some VNone) →
  sorted_enriched m n raw = Raise TypeError.
Proof.
  intros Hl Hlen (c & Hc & Hstrike). unfold sorted_enriched.
  rewrite enrich_contracts_Ok by done. rewrite bind_Ok.
  apply sorted_by_none; [by rewrite length_fmap|].
  exists (enriched_record m n c). split; [by apply list_elem_of_fmap_2|].
  rewrite enriched_record_strike. unfold strike_key, dict_get. by rewrite Hstrike.
Qed.


(** ** The open-interest ranking never fails *)

Lemma sorted_by_oi_key l :
  ∃ s, sorted_by oi_key l = Ok s ∧ s ≡ₚ l.
Proof.
  exists (isort (λ a b, num_lt (num_neg (normalized_oi a)) (num_neg (normalized_oi b))) l).
  split; [|apply isort_perm].
  unfold sorted_by. by apply py_sorted_pure.
Qed.

(** X5. The ranking by open interest succeeds for any summaries that carry a
    text label, also when an open interest is not a number; its output is
    the first [XX] record, when there is one, and every other record that
    is not of type [XX], each once: further [XX] records are left out. *)
Theorem oi_sorted_keeps_records m n raw :
  Forall has_label raw →
  ∃ out, oi_sorted m n raw = Ok out
    ∧ out ≡ₚ option_list (head (filter is_index (enriched_record m n <$> raw)))
             ++ filter (λ c, ¬ is_index c) (enriched_record m n <$> raw).
Proof.
  intros Hl. unfold oi_sorted. rewrite enrich_contracts_Ok by done.
  rewrite bind_Ok. generalize (enriched_record m n <$> raw). intros enriched.
  unfold rank_by_oi.
  destruct (sorted_by_oi_key (filter (λ c, ¬ is_index c) enriched)) as (s & -> & Hs).
  rewrite bind_Ok.
  destruct (head (filter is_index enriched)) as [idx|] eqn:Hhead; simpl.
  - assert (is_index idx) as Hidx.
    { apply head_Some_elem_of in Hhead. by apply list_elem_of_filter in Hhead as []. }
    rewrite (is_index_truthy _ Hidx). eexists. split; [done|]. by rewrite Hs.
  - by eexists.
Qed.

(** ** The lookup table, entry by entry *)

Lemma oc_details_step_lookup m opt :
  is_alert_row opt →
  ∃ m', oc_details_step m opt = Ok m'
    ∧ ∀ key side,
        (filed_under key side opt → side_at m' key side = Some (detail_of_row opt))
        ∧ (¬ filed_under key side opt → side_at m' key side = side_at m key side).
Proof.
  forget_conversions.
  intros Hopt. unfold oc_details_step, filed_under.
  destruct (dict_get_none opt "optionType") as [| |s] eqn:Hty;
    [exists m; split; [done|]; naive_solver..|].
  destruct (bool_decide (dict_get_none opt "strikePrice" ≠ VNone)) eqn:Hsp; simpl;
    [apply bool_decide_eq_true in Hsp|apply bool_decide_eq_false in Hsp]; cycle 1.
  { exists m; split; [done|]. intros [k1 k2] side. simpl. naive_solver. }
  destruct (bool_decide (s ∈ ["CE"; "PE"])) eqn:Hs; simpl;
    [apply bool_decide_eq_true in Hs|apply bool_decide_eq_false in Hs]; cycle 1.
  { exists m; split; [done|]. intros [k1 k2] side. simpl. naive_solver. }
  destruct (truthy (dict_get_none opt "expiryDate")) eqn:Hex; cycle 1.
  { exists m; split; [done|]. intros [k1 k2] side. simpl.
    split; [|done]. intros ([= <- <-] & _ & _ & _ & ?). congruence. }
  rewrite (detail_of_alert_row _ Hopt). rewrite bind_Ok. eexists; split; [done|].
  set (key0 := (dict_get_none opt "strikePrice", dict_get_none opt "expiryDate")).
  set (m1 := if bool_decide (is_Some (m !! key0)) then m else <[key0 := ∅]> m).
  assert (∀ key side, side_at m1 key side = side_at m key side) as Hm1.
  { intros key side. subst m1. unfold side_at. case_bool_decide as Hk; [done|].
    destruct (decide (key0 = key)) as [<-|Hne].
    - rewrite lookup_insert_eq. simpl. rewrite lookup_empty.
      apply eq_None_not_Some in Hk. by rewrite Hk.
    - by rewrite lookup_insert_ne. }
  intros key side. rewrite <-(Hm1 key side). clear Hm1. unfold side_at.
  destruct (decide (key0 = key)) as [<-|Hne].
  - rewrite lookup_insert_eq. simpl.
    destruct (decide (s = side)) as [<-|Hside].
    + rewrite lookup_insert_eq. split; [done|]. intros []. by subst key0.
    + rewrite lookup_insert_ne by done. split; [naive_solver|]. intros _.
      destruct (m1 !! key0); simpl; [done|apply lookup_empty].
  - rewrite lookup_insert_ne by done. split; [naive_solver|]. done.
Qed.

Lemma oc_details_loop_lookup m opts :
  Forall is_alert_row opts →
  ∃ m', oc_details_loop m opts = Ok m'
    ∧ ∀ key side,
        side_at m' key side
        = match last_filed key side opts with
          | Some opt => Some (detail_of_row opt)
          | None => side_at m key side
          end.
Proof.
  intros Hopts. revert m. induction Hopts as [|opt opts Hopt _ IH]; intros m.
  { by exists m. }
  destruct (oc_details_step_lookup m opt Hopt) as (m1 & Hstep & Hm1).
  destruct (IH m1) as (m' & Hloop & Hm').
  exists m'. split; [simpl; by rewrite Hstep|].
  intros key side. rewrite Hm'. unfold last_filed.
  destruct (Hm1 key side) as [Hin Hout].
  rewrite filter_cons. destruct (decide (filed_under key side opt)) as [Hf|Hf].
  - rewrite last_cons. destruct (last _); [done|]. by apply Hin.
  - destruct (last _); [done|]. by apply Hout.
Qed.

(** X6. The lookup table built from a chain: building it never fails, and
    under each strike, expiry and side it holds the detail of the last
    alert row of the chain filed there, and nothing where no row is
    filed. *)
Theorem oc_details_map_entries n chain :
  ∃ m, oc_details_map (all_options_for_alerts n chain) = Ok m
    ∧ ∀ key side,
        side_at m key side
        = detail_of_row <$> last_filed key side (all_options_for_alerts n chain).
Proof.
  destruct (oc_details_loop_lookup ∅ (all_options_for_alerts n chain))
    as (m & Hm & Hlookup); [apply all_options_for_alerts_alert|].
  exists m. split; [done|]. intros key side. rewrite Hlookup.
  destruct (last_filed _ _ _); [done|]. unfold side_at. by rewrite lookup_empty.
Qed.


(** ** From the chain to the enriched record *)

Lemma alert_row_figure opt k :
  is_alert_row opt →
  k ∈ ["OI"; "COI"; "TBQ"; "TSQ"; "pchange"; "lastPrice"] →
  ∃ v, opt !! k = Some (VNum (normalize v (int 0))).
Proof.
  intros (strike & typ & expiry & data & ->). rewrite alert_opt_lookup.
  rewrite !elem_of_cons, elem_of_nil.
  intros H; repeat (destruct H as [->|H]); try done; cbn [assoc String.eqb Ascii.eqb Bool.eqb]; eauto.
Qed.

Lemma detail_of_row_get opt k field :
  (k, field) ∈ [ ("OI", "openInterest"); ("COI", "changeinOpenInterest");
                 ("TBQ", "totalBuyQuantity"); ("TSQ", "totalSellQuantity");
                 ("pchange", "pChange"); ("lastPrice", "lastPrice") ] →
  dict_get (detail_of_row opt) field (VInt 0) = dict_get_none opt k.
Proof.
  rewrite !elem_of_cons, elem_of_nil. unfold detail_of_row, dict_get at 1.
  rewrite list_to_map_assoc.
  intros H; repeat (destruct H as [[= -> ->]|H]); try done.
Qed.

Lemma last_filed_guard key side opts :
  ¬ (key.1 ≠ VNone ∧ truthy key.2 = true) → last_filed key side opts = None.
Proof. forget_conversions.
  intros Hguard. unfold last_filed. apply last_None.
  induction opts as [|opt opts IH]; [done|].
  rewrite filter_cons_False; [done|]. unfold filed_under. tauto.
Qed.

Lemma last_filed_alert key side opts opt :
  Forall is_alert_row opts → last_filed key side opts = Some opt → is_alert_row opt.
Proof.
  intros Hopts Hlast%last_Some_elem_of. apply list_elem_of_filter in Hlast as [_ Hin].
  by eapply Forall_forall in Hopts.
Qed.

Lemma found_detail_chain n chain m c :
  (∀ key side,
     side_at m key side
     = detail_of_row <$> last_filed key side (all_options_for_alerts n chain)) →
  found_detail m n c = detail_of_row <$> chain_source n chain c.
Proof.
  intros Hm. unfold found_detail, chain_source, lookup_detail.
  destruct (oc_type_key_of _) as [side|]; simpl; [|done].
  case_bool_decide as Hsp; simpl.
  - destruct (truthy (lookup_expiry_of n c)) eqn:Hex.
    + apply Hm.
    + rewrite last_filed_guard; [done|]. simpl. intros [_ ?]. congruence.
  - rewrite last_filed_guard; [done|]. simpl. intros [? _]. done.
Qed.

Lemma enriched_carries_row m n c opt :
  is_alert_row opt →
  found_detail m n c = Some (detail_of_row opt) →
  carries_row opt (enriched_record m n c).
Proof.
  intros Hopt Hfound. unfold carries_row, enriched_record, merge_detail.
  rewrite Hfound.
  rewrite !finish_contract_other by in_list.
  rewrite finish_contract_pchange, finish_contract_lastPrice, finish_contract_volume.
  rewrite (merged_lookup_detail _ _ "OI" "openInterest") by in_list.
  rewrite (merged_lookup_detail _ _ "COI" "changeinOpenInterest") by in_list.
  rewrite (merged_lookup_detail _ _ "TBQ" "totalBuyQuantity") by in_list.
  rewrite (merged_lookup_detail _ _ "TSQ" "totalSellQuantity") by in_list.
  rewrite (dict_get_Some _ "pchange" _ _
             (merged_lookup_detail c (detail_of_row opt) "pchange" "pChange"
                ltac:(in_list))).
  rewrite (dict_get_Some _ "lastPrice" _ _
             (merged_lookup_detail c (detail_of_row opt) "lastPrice" "lastPrice"
                ltac:(in_list))).
  rewrite (dict_get_Some _ "volume" _ _
             (merged_lookup_detail c (detail_of_row opt) "volume" "totalTradedVolume"
                ltac:(in_list))).
  rewrite !normalize_twice.
  rewrite (detail_of_row_get _ "OI"), (detail_of_row_get _ "COI"),
    (detail_of_row_get _ "TBQ"), (detail_of_row_get _ "TSQ"),
    (detail_of_row_get _ "pchange"), (detail_of_row_get _ "lastPrice") by in_list.
  destruct (alert_row_figure opt "OI" Hopt ltac:(in_list)) as [oi Hoi].
  destruct (alert_row_figure opt "COI" Hopt ltac:(in_list)) as [coi Hcoi].
  destruct (alert_row_figure opt "TBQ" Hopt ltac:(in_list)) as [tbq Htbq].
  destruct (alert_row_figure opt "TSQ" Hopt ltac:(in_list)) as [tsq Htsq].
  destruct (alert_row_figure opt "pchange" Hopt ltac:(in_list)) as [pc Hpc].
  unfold dict_get_none.
  rewrite (dict_get_Some _ _ _ _ Hoi), (dict_get_Some _ _ _ _ Hcoi),
    (dict_get_Some _ _ _ _ Htbq), (dict_get_Some _ _ _ _ Htsq),
    (dict_get_Some _ _ _ _ Hpc).
  rewrite !normalize_twice, Hoi, Hcoi, Htbq, Htsq, Hpc.
  do 6 (split; [done|]).
  unfold detail_of_row, dict_get. by rewrite list_to_map_assoc.
Qed.

Lemma enriched_kept m n c :
  found_detail m n c = None → kept c (enriched_record m n c).
Proof.
  intros Hfound. unfold kept, enriched_record, merge_detail. rewrite Hfound.
  rewrite !finish_contract_other by in_list.
  by rewrite finish_contract_pchange, finish_contract_lastPrice.
Qed.

(** X7. From the chain to the enriched record: with text labels on every
    summary, building the table from the chain and enriching succeeds, and
    each enriched record carries the figures of its source row, the last
    alert row of the chain filed under the summary's strike, lookup expiry
    and side: the same [OI], [COI], [TBQ], [TSQ] and [pchange], the row's
    last price (0.05 for a zero) and a zero volume.  A summary with no
    source row keeps its own figures. *)
Theorem enrich_from_chain_rows n chain raw :
  Forall has_label raw →
  ∃ out, enrich_from_chain n chain raw = Ok out
    ∧ Forall2 (λ c r, match chain_source n chain c with
                      | Some opt => carries_row opt r
                      | None => kept c r
                      end) raw out.
Proof.
  intros Hl.
  destruct (oc_details_loop_lookup ∅ (all_options_for_alerts n chain))
    as (m & Hm & Hlookup); [apply all_options_for_alerts_alert|].
  unfold enrich_from_chain, oc_details_map. rewrite Hm, bind_Ok.
  apply enrich_contracts_Forall2; [|done]. intros c _.
  assert (found_detail m n c = detail_of_row <$> chain_source n chain c) as Hfound.
  { apply found_detail_chain. intros key side. rewrite Hlookup.
    destruct (last_filed _ _ _); [done|]. unfold side_at. by rewrite lookup_empty. }
  destruct (chain_source n chain c) as [opt|] eqn:Hsrc; simpl in Hfound.
  - apply enriched_carries_row; [|done].
    unfold chain_source in Hsrc. destruct (oc_type_key_of _); simpl in Hsrc; [|done].
    eapply last_filed_alert; [|done]. apply all_options_for_alerts_alert.
  - by apply enriched_kept.
Qed.


(** ** Index statistics *)

Lemma merge_stats_default s k v :
  default_stats !! k = Some v → merge_stats s !! k = Some (dict_get s k v).
Proof.
  intros Hk. unfold merge_stats, dict_get.
  destruct (s !! k) as [w|] eqn:Hs; simpl.
  - by apply lookup_union_Some_l.
  - by rewrite lookup_union_r.
Qed.

Lemma first_stat_merged s k :
  default_stats !! k = Some (VInt 0) →
  first_stat [merge_stats s] k (int 0) = Ok (stat s k).
Proof.
  intros Hk. unfold first_stat.
  pose proof (merge_stats_default s k _ Hk) as Hm.
  rewrite bool_decide_true.
  - simpl. unfold df_cell, stat, numeric_cell. by rewrite (dict_get_Some _ _ _ _ Hm).
  - unfold df_columns. simpl. apply elem_of_union_l, elem_of_dom. by eexists.
Qed.

(** X8. The sentences on the merged statistics: whatever the provider sent,
    also nothing at all, the three sentences are computed from the figures,
    read as zero where an entry is missing, null or unreadable; the initial
    "unavailable" sentences are never returned. *)
Theorem stats_narratives_computed s :
  stats_narratives s
  = Ok (fair_valuation (stat s "peRatio"),
        market_breadth (stat s "advance_symbol") (stat s "decline_symbol"),
        buying_interest (stat s "advance_top_turnover") (stat s "decline_top_turnover")).
Proof.
  unfold stats_narratives, narratives.
  assert (df_empty [merge_stats s] = false) as ->.
  { unfold df_empty. rewrite bool_decide_false by done. simpl.
    apply bool_decide_eq_false. unfold df_columns. simpl.
    intros Hdom.
    assert ("peRatio" ∈ dom (merge_stats s) ∪ (∅ : gset string)) as Hin.
    { apply elem_of_union_l, elem_of_dom.
      rewrite (merge_stats_default s "peRatio" (VInt 0)) by done. by eexists. }
    rewrite Hdom in Hin. by apply elem_of_empty in Hin. }
  rewrite !first_stat_merged by done. by rewrite !bind_Ok.
Qed.


(** ** The strike table *)

Lemma strike_info_side n r side :
  side ∈ ["CE"; "PE"] →
  read_from_info side (strike_info n r)
    (alert_opt (strikePrice r) side
       (py_or (py_or (dict_get_none (default ∅ (CE r)) "expiryDate")
                     (dict_get_none (default ∅ (PE r)) "expiryDate")) n)
       (default ∅ (if bool_decide (side = "CE") then CE r else PE r))).
Proof.
  rewrite !elem_of_cons, elem_of_nil. unfold read_from_info, strike_info, dict_get_none.
  unfold dict_get at 1 2 3 4 5 6. cbv zeta.
  rewrite !alert_opt_lookup, !list_to_map_assoc.
  intros [->|[->|[]]]; done.
Qed.

(** X9. The strike table and the alert rows: the table has one record for each
    chain row with a strike, in the order of the chain, whether or not the
    row has a side; every alert row is read from a record of the table, and
    there are at most two of them for each record. *)
Theorem chain_details_and_alerts n chain :
  (λ info, dict_get_none info "strikePrice") <$> all_option_chain_details n chain
  = filter (λ v, v ≠ VNone) (strikePrice <$> chain)
  ∧ (∀ opt, opt ∈ all_options_for_alerts n chain →
       ∃ info side, info ∈ all_option_chain_details n chain
         ∧ side ∈ ["CE"; "PE"] ∧ read_from_info side info opt)
  ∧ (length (all_options_for_alerts n chain)
     ≤ 2 * length (all_option_chain_details n chain))%nat.
Proof.
  unfold all_option_chain_details, all_options_for_alerts. split; [|split].
  - induction chain as [|r chain IH]; [done|]. csimpl.
    rewrite fmap_app, IH, filter_cons. case_bool_decide as Hs.
    + by rewrite decide_False by naive_solver.
    + rewrite decide_True by done. simpl. by f_equal.
  - intros opt (r & Hopt & Hr)%list_elem_of_bind. unfold alert_rows_of in Hopt.
    case_bool_decide as Hs; [by apply elem_of_nil in Hopt|].
    exists (strike_info n r).
    assert (strike_info n r ∈ chain ≫= λ r,
              if bool_decide (strikePrice r = VNone) then [] else [strike_info n r])
      as Hinfo.
    { apply list_elem_of_bind. exists r. split; [|done].
      rewrite bool_decide_false by done. by apply list_elem_of_singleton. }
    apply elem_of_app in Hopt as [Hopt|Hopt].
    + destruct (dict_truthy _); [|by apply elem_of_nil in Hopt].
      apply list_elem_of_singleton in Hopt as ->. exists "CE".
      split; [done|]. split; [in_list|].
      by apply (strike_info_side n r "CE" ltac:(in_list)).
    + destruct (dict_truthy _); [|by apply elem_of_nil in Hopt].
      apply list_elem_of_singleton in Hopt as ->. exists "PE".
      split; [done|]. split; [in_list|].
      by apply (strike_info_side n r "PE" ltac:(in_list)).
  - induction chain as [|r chain IH]; [done|]. csimpl.
    rewrite !length_app. unfold alert_rows_of at 1.
    case_bool_decide; simpl; [lia|].
    destruct (dict_truthy _), (dict_truthy _); simpl; lia.
Qed.


(** ** Market snapshots *)

Lemma df_columns_elem (df : list dict) c :
  c ∈ df_columns df ↔ ∃ r, r ∈ df ∧ c ∈ dom r.
Proof.
  unfold df_columns. rewrite elem_of_union_list. split.
  - intros (X & HX & Hc). apply list_elem_of_fmap in HX as (r & -> & Hr). eauto.
  - intros (r & Hr & Hc). exists (dom r). split; [|done]. by apply list_elem_of_fmap_2.
Qed.

Lemma df_columns_perm (df df' : list dict) :
  df ≡ₚ df' → df_columns df = df_columns df'.
Proof.
  intros Hp. apply set_eq. intros c. rewrite !df_columns_elem.
  split; intros (r & Hr & Hc); exists r; split; try done.
  - by rewrite <-Hp.
  - by rewrite Hp.
Qed.

Lemma df_empty_perm (df df' : list dict) : df ≡ₚ df' → df_empty df = df_empty df'.
Proof.
  intros Hp. unfold df_empty. rewrite (df_columns_perm _ _ Hp). f_equal.
  apply bool_decide_ext. split; intros ->.
  - by apply Permutation_nil_l in Hp.
  - by apply Permutation_nil_r in Hp.
Qed.

Lemma df_columns_clean_field (df : list dict) fld :
  df_columns (clean_field df fld) = df_columns df.
Proof.
  unfold clean_field. case_bool_decide as Hc; [|done].
  apply set_eq. intros c. rewrite !df_columns_elem. split.
  - intros (r' & Hr' & Hin). apply list_elem_of_fmap in Hr' as (r & -> & Hr).
    rewrite dom_insert in Hin. apply elem_of_union in Hin as [Hin|Hin].
    + apply elem_of_singleton in Hin as ->. by apply df_columns_elem.
    + eauto.
  - intros (r & Hr & Hin). eexists. split; [by apply list_elem_of_fmap_2|].
    rewrite dom_insert. by apply elem_of_union_r.
Qed.

Lemma df_columns_clean_df (df : list dict) fields :
  df_columns (clean_df df fields) = df_columns df.
Proof.
  unfold clean_df. revert df. induction fields as [|f fields IH]; intros df; [done|].
  simpl. by rewrite IH, df_columns_clean_field.
Qed.

Lemma clean_df_rows (df : list dict) fields :
  clean_df df fields
  = clean_row (filter (λ fld, fld ∈ df_columns df) fields) <$> df.
Proof.
  unfold clean_df, clean_row. revert df.
  induction fields as [|f fields IH]; intros df; simpl.
  { by rewrite list_fmap_id. }
  rewrite IH, df_columns_clean_field, filter_cons.
  unfold clean_field at 1. case_bool_decide as Hc.
  - rewrite decide_True by done. by rewrite <-list_fmap_compose.
  - by rewrite decide_False by done.
Qed.

Lemma clean_row_snoc fields fld r :
  clean_row (fields ++ [fld]) r
  = <[fld := VNum (Fin (numeric_cell (df_cell (clean_row fields r) fld)))]>
      (clean_row fields r).
Proof. unfold clean_row. by rewrite foldl_app. Qed.

Lemma clean_row_lookup fields r k :
  clean_row fields r !! k
  = if bool_decide (k ∈ fields) then Some (VNum (Fin (numeric_cell (df_cell r k))))
    else r !! k.
Proof. forget_conversions.
  induction fields as [|fld fields IH] using rev_ind; [done|].
  rewrite clean_row_snoc. destruct (decide (fld = k)) as [->|Hne].
  - rewrite lookup_insert_eq. rewrite bool_decide_true by set_solver.
    unfold df_cell at 1, dict_get. rewrite IH. case_bool_decide; [|done].
    done.
  - rewrite lookup_insert_ne by done. rewrite IH.
    rewrite (bool_decide_ext (k ∈ (fields ++ [fld])%list) (k ∈ fields)); [done|].
    rewrite elem_of_app, list_elem_of_singleton. naive_solver.
Qed.


Lemma lookup_list_to_map_here {V} (k : string) (v : V) l :
  (list_to_map ((k, v) :: l) : gmap string V) !! k = Some v.
Proof. apply lookup_insert_eq. Qed.

Lemma lookup_list_to_map_next {V} (k k' : string) (v : V) l :
  k ≠ k' →
  (list_to_map ((k, v) :: l) : gmap string V) !! k'
  = (list_to_map l : gmap string V) !! k'.
Proof. apply lookup_insert_ne. Qed.

Ltac summary_lookup :=
  repeat first
    [ rewrite lookup_list_to_map_here
    | rewrite lookup_list_to_map_next by discriminate ].

Lemma stable_desc_sorts : sorts_descending stable_desc.
Proof.
  intros col df _. unfold stable_desc. split; [apply isort_perm|].
  eapply StronglySorted_weaken; [|apply isort_ascending].
  intros a b Hab. simpl in Hab.
  apply Qcopp_le_compat in Hab. by rewrite !Qcopp_involutive in Hab.
Qed.

Lemma cleaned_cell_finite (df : list dict) fields col r :
  col ∈ fields → col ∈ df_columns df → r ∈ clean_df df fields →
  is_finite (df_cell r col).
Proof.
  intros Hf Hc. rewrite clean_df_rows.
  intros (r0 & -> & _)%list_elem_of_fmap.
  unfold df_cell at 1, dict_get. rewrite clean_row_lookup.
  rewrite bool_decide_true; [by eexists|]. by apply list_elem_of_filter.
Qed.

Lemma cleaned_frame_shape (records df : list dict) fields :
  df ≡ₚ clean_df (frame_of records) fields →
  df_columns df = df_columns records ∧ length df = length records
  ∧ df_empty df = df_empty records.
Proof.
  intros Hp.
  assert (df_columns (clean_df (frame_of records) fields) = df_columns records) as Hcols
    by by rewrite df_columns_clean_df, frame_of_df_columns.
  assert (length (clean_df (frame_of records) fields) = length records) as Hlen.
  { rewrite clean_df_rows. unfold frame_of. by rewrite !length_fmap. }
  split; [|split].
  - by rewrite (df_columns_perm _ _ Hp).
  - by rewrite Hp.
  - rewrite (df_empty_perm _ _ Hp). unfold df_empty. rewrite Hcols. f_equal.
    apply bool_decide_ext. rewrite <-!length_zero_iff_nil. by rewrite Hlen.
Qed.

Lemma rank_by_clean sort fields col (records : list dict) :
  sorts_descending sort → col ∈ fields →
  rank_by sort col (clean_df (frame_of records) fields)
    ≡ₚ clean_df (frame_of records) fields
  ∧ (col ∈ df_columns records →
     StronglySorted (λ a b, (val_num (df_cell b col) ≤ val_num (df_cell a col))%Qc)
       (rank_by sort col (clean_df (frame_of records) fields))).
Proof.
  intros Hsort Hf. unfold rank_by.
  rewrite df_columns_clean_df, frame_of_df_columns.
  case_bool_decide as Hc; [|by split].
  destruct (Hsort col (clean_df (frame_of records) fields)) as [Hp Hs]; [|by split].
  apply Forall_forall. intros r Hr.
  eapply cleaned_cell_finite; [done| |done]. by rewrite frame_of_df_columns.
Qed.

Lemma top_cell_Ok (df : list dict) c :
  df_empty df = false → c ∈ df_columns df →
  ∃ top, head df = Some top ∧ top_cell df c = Ok (df_cell top c).
Proof.
  intros He Hc. unfold top_cell. rewrite He.
  destruct df as [|top rest]; [done|]. exists top. by rewrite bool_decide_true.
Qed.

Lemma top_cell_missing (df : list dict) c :
  df_empty df = false → c ∉ df_columns df → top_cell df c = Raise KeyError.
Proof.
  intros He Hc. unfold top_cell. rewrite He.
  destruct df as [|top rest]; [done|]. by rewrite bool_decide_false.
Qed.

Lemma columns_not_empty (df : list dict) c : c ∈ df_columns df → df_empty df = false.
Proof.
  intros (r & Hr & Hc)%df_columns_elem. eapply df_not_empty; [done|].
  intros ->. by rewrite dom_empty in Hc.
Qed.

(** X10. Volume gainers, ranked: when the payload has the columns
    [week1volChange] and [symbol] and the sort of pandas sorts, the
    function returns the cleaned rows in descending order of their one-week
    volume change, counts every record of the payload, and names the symbol
    of the first row, the one with the largest change. *)
Theorem volume_gainers_ranked sort ts records :
  sorts_descending sort →
  "week1volChange" ∈ df_columns records → "symbol" ∈ df_columns records →
  ∃ res top, get_volume_gainers sort ts records = Ok res
    ∧ snapshot_rows res ≡ₚ clean_df (frame_of records) volume_gainer_fields
    ∧ StronglySorted
        (λ a b, (val_num (df_cell b "week1volChange")
                 ≤ val_num (df_cell a "week1volChange"))%Qc)
        (snapshot_rows res)
    ∧ head (snapshot_rows res) = Some top
    ∧ snapshot_summary res !! "topSymbol" = Some (PScalar (df_cell top "symbol"))
    ∧ snapshot_summary res !! "totalCount" = Some (PCount (length records))
    ∧ snapshot_summary res !! "timestamp" = Some (PScalar ts).
Proof.
  intros Hsort Hcol Hsym. unfold get_volume_gainers. cbv zeta.
  destruct (rank_by_clean sort volume_gainer_fields "week1volChange" records Hsort
              ltac:(in_list)) as [Hp Hs].
  destruct (cleaned_frame_shape _ _ _ Hp) as (Hcols & Hlen & He).
  revert Hp Hs Hcols Hlen He.
  generalize (rank_by sort "week1volChange"
                (clean_df (frame_of records) volume_gainer_fields)).
  intros df Hp Hs Hcols Hlen He.
  rewrite (columns_not_empty _ _ Hsym) in He.
  destruct (top_cell_Ok df "symbol" He) as (top & Hhead & ->); [by rewrite Hcols|].
  rewrite bind_Ok. eexists _, top. split; [reflexivity|].
  cbn [snapshot_rows snapshot_summary].
  split; [exact Hp|]. split; [by apply Hs|]. split; [exact Hhead|].
  summary_lookup. by rewrite Hlen.
Qed.

(** X11. Most active securities, ranked: when the payload has the columns
    [totalTradedValue] and [symbol] and the sort of pandas sorts, the
    function returns the cleaned rows in descending order of traded value,
    counts every record, and reports the symbol and the traded value of the
    first row: the top turnover is the largest traded value, a number. *)
Theorem most_active_ranked sort ts records :
  sorts_descending sort →
  "totalTradedValue" ∈ df_columns records → "symbol" ∈ df_columns records →
  ∃ res top, get_most_active_securities sort ts records = Ok res
    ∧ snapshot_rows res ≡ₚ clean_df (frame_of records) most_active_fields
    ∧ StronglySorted
        (λ a b, (val_num (df_cell b "totalTradedValue")
                 ≤ val_num (df_cell a "totalTradedValue"))%Qc)
        (snapshot_rows res)
    ∧ head (snapshot_rows res) = Some top
    ∧ snapshot_summary res !! "topSymbol" = Some (PScalar (df_cell top "symbol"))
    ∧ snapshot_summary res !! "topTurnover"
      = Some (PScalar (df_cell top "totalTradedValue"))
    ∧ is_finite (df_cell top "totalTradedValue")
    ∧ snapshot_summary res !! "totalCount" = Some (PCount (length records)).
Proof.
  intros Hsort Hcol Hsym. unfold get_most_active_securities. cbv zeta.
  destruct (rank_by_clean sort most_active_fields "totalTradedValue" records Hsort
              ltac:(in_list)) as [Hp Hs].
  destruct (cleaned_frame_shape _ _ _ Hp) as (Hcols & Hlen & He).
  assert (∀ r, r ∈ rank_by sort "totalTradedValue"
                     (clean_df (frame_of records) most_active_fields) →
               is_finite (df_cell r "totalTradedValue")) as Hfin.
  { intros r Hr. rewrite Hp in Hr.
    eapply (cleaned_cell_finite _ most_active_fields); [in_list| |done].
    by rewrite frame_of_df_columns. }
  revert Hp Hs Hcols Hlen He Hfin.
  generalize (rank_by sort "totalTradedValue"
                (clean_df (frame_of records) most_active_fields)).
  intros df Hp Hs Hcols Hlen He Hfin.
  rewrite (columns_not_empty _ _ Hsym) in He.
  destruct (top_cell_Ok df "symbol" He) as (top & Hhead & ->); [by rewrite Hcols|].
  destruct (top_cell_Ok df "totalTradedValue" He) as (top' & Hhead' & ->);
    [by rewrite Hcols|].
  assert (top' = top) as -> by congruence.
  rewrite !bind_Ok. eexists _, top. split; [reflexivity|].
  cbn [snapshot_rows snapshot_summary].
  split; [exact Hp|]. split; [by apply Hs|]. split; [exact Hhead|].
  summary_lookup. do 2 (split; [reflexivity|]).
  split; [by apply Hfin, head_Some_elem_of|]. by rewrite Hlen.
Qed.


Lemma clean_df_no_columns (df : list dict) fields :
  df_columns df = ∅ → clean_df df fields = df.
Proof.
  intros Hc. rewrite clean_df_rows.
  assert (filter (λ fld, fld ∈ df_columns df) fields = []) as ->.
  { induction fields as [|f fields IH]; [done|].
    rewrite filter_cons_False; [done|]. rewrite Hc. apply not_elem_of_empty. }
  unfold clean_row. simpl. apply list_fmap_id.
Qed.

Lemma df_empty_cases (df : list dict) :
  df_empty df = true → df_columns df = ∅.
Proof.
  unfold df_empty. intros [H|H]%orb_true_iff; apply bool_decide_eq_true in H.
  - by subst.
  - done.
Qed.

(** X12. The snapshots at their edges: a payload with no record, or with
    records that have no field, gives a null top symbol (and top turnover)
    while the count is still the number of records; a payload with fields
    but no [symbol] makes both functions raise [KeyError], and so does one
    with no [totalTradedValue] for the most active securities, whose sort
    alone is guarded. *)
Theorem snapshot_edges sort ts records :
  sorts_descending sort →
  (df_empty records = true →
     get_volume_gainers sort ts records
     = Ok {| snapshot_rows := frame_of records;
             snapshot_summary :=
               list_to_map [ ("topSymbol", PScalar VNone);
                             ("totalCount", PCount (length records));
                             ("timestamp", PScalar ts) ] |}
     ∧ get_most_active_securities sort ts records
       = Ok {| snapshot_rows := frame_of records;
               snapshot_summary :=
                 list_to_map [ ("topSymbol", PScalar VNone);
                               ("topTurnover", PScalar VNone);
                               ("totalCount", PCount (length records));
                               ("timestamp", PScalar ts) ] |})
  ∧ (df_empty records = false → "symbol" ∉ df_columns records →
     get_volume_gainers sort ts records = Raise KeyError
     ∧ get_most_active_securities sort ts records = Raise KeyError)
  ∧ (df_empty records = false → "totalTradedValue" ∉ df_columns records →
     get_most_active_securities sort ts records = Raise KeyError).
Proof.
  intros Hsort. split; [|split].
  - intros He.
    assert (df_columns (frame_of records) = ∅) as Hcols
      by (rewrite frame_of_df_columns; by apply df_empty_cases).
    unfold get_volume_gainers, get_most_active_securities. cbv zeta.
    rewrite !clean_df_no_columns by done. unfold rank_by.
    rewrite !bool_decide_false by (rewrite Hcols; apply not_elem_of_empty).
    unfold top_cell. rewrite frame_of_empty, He. rewrite !bind_Ok.
    assert (length (frame_of records) = length records) as ->
      by (unfold frame_of; apply length_fmap).
    split; reflexivity.
  - intros He Hsym.
    destruct (rank_by_clean sort volume_gainer_fields "week1volChange" records Hsort
                ltac:(in_list)) as [Hp _].
    destruct (cleaned_frame_shape _ _ _ Hp) as (Hcols & _ & He1).
    destruct (rank_by_clean sort most_active_fields "totalTradedValue" records Hsort
                ltac:(in_list)) as [Hp' _].
    destruct (cleaned_frame_shape _ _ _ Hp') as (Hcols' & _ & He2).
    unfold get_volume_gainers, get_most_active_securities. cbv zeta. split.
    + rewrite (top_cell_missing _ "symbol");
        [reflexivity|by rewrite He1|by rewrite Hcols].
    + rewrite (top_cell_missing _ "symbol");
        [reflexivity|by rewrite He2|by rewrite Hcols'].
  - intros He Hcol.
    destruct (rank_by_clean sort most_active_fields "totalTradedValue" records Hsort
                ltac:(in_list)) as [Hp' _].
    destruct (cleaned_frame_shape _ _ _ Hp') as (Hcols' & _ & He2).
    unfold get_most_active_securities. cbv zeta.
    destruct (decide ("symbol" ∈ df_columns records)) as [Hsym|Hsym].
    + destruct (top_cell_Ok (rank_by sort "totalTradedValue"
                  (clean_df (frame_of records) most_active_fields)) "symbol")
        as (top & _ & ->); [by rewrite He2|by rewrite Hcols'|].
      rewrite bind_Ok.
      rewrite (top_cell_missing _ "totalTradedValue");
        [reflexivity|by rewrite He2|by rewrite Hcols'].
    + rewrite (top_cell_missing _ "symbol");
        [reflexivity|by rewrite He2|by rewrite Hcols'].
Qed.

(** ** Large deals *)



End Engine.


(** * The news list *)

Lemma StronglySorted_reverse {A} (R : A → A → Prop) (l : list A) :
  StronglySorted R l → StronglySorted (flip R) (reverse l).
Proof.
  induction 1 as [|x l Hl IH Hx]; [constructor|].
  rewrite reverse_cons. apply StronglySorted_app_2; [|done|repeat constructor].
  intros a b Ha Hb. apply list_elem_of_singleton in Hb as ->.
  rewrite elem_of_reverse in Ha. rewrite Forall_forall in Hx. unfold flip.
  by apply Hx.
Qed.

Lemma news_key_ltb_asym (a b : News.news_item * option News.parsed_date) :
  News.date_ltb a.2 b.2 = true → News.date_ltb b.2 a.2 = false.
Proof. destruct a as [? [x|]], b as [? [y|]]; simpl; try done. lia. Qed.

Lemma news_key_ltb_negtrans (a b c : News.news_item * option News.parsed_date) :
  News.date_ltb b.2 a.2 = false → News.date_ltb c.2 b.2 = false →
  News.date_ltb c.2 a.2 = false.
Proof. destruct a as [? [x|]], b as [? [y|]], c as [? [z|]]; simpl; try done. lia. Qed.

Lemma news_key_ltb_key (a b : News.news_item * option News.parsed_date) :
  News.date_ltb a.2 b.2 = true → News.date_key a ≠ News.date_key b.
Proof.
  unfold News.date_key. destruct a as [? [x|]], b as [? [y|]]; simpl; try done.
  intros Hlt [= Heq]. lia.
Qed.

(** X14. The order of the news: when the dates that could be read all have a
    time zone, or none has, [get_news] returns the first [limit] entries of
    the feed, each once; the items whose date could not be read come first,
    then the dated ones from the latest to the earliest; items of equal
    date, and the undated ones, keep the order of the feed. *)
Theorem news_order fetch shorten parse limit entries tz :
  (∀ e d, e ∈ News.py_slice_to limit entries →
     (News.news_of fetch shorten parse e).2 = Some d → News.aware d = tz) →
  ∃ ranked,
    News.ranked_news fetch shorten parse limit entries = Ok ranked
    ∧ News.get_news fetch shorten parse limit entries = Ok (ranked.*1)
    ∧ ranked ≡ₚ News.news_of fetch shorten parse <$> News.py_slice_to limit entries
    ∧ StronglySorted News.before ranked
    ∧ ∀ k, filter (λ x, News.date_key x = k) ranked
           = filter (λ x, News.date_key x = k)
               (News.news_of fetch shorten parse <$> News.py_slice_to limit entries).
Proof.
  intros Htz. unfold News.get_news, News.ranked_news, News.sort_reverse.
  set (items := News.news_of fetch shorten parse <$> News.py_slice_to limit entries).
  set (ltb := λ a b : News.news_item * option News.parsed_date,
                News.date_ltb a.2 b.2).
  rewrite (py_sorted_pure _ ltb).
  - rewrite !bind_Ok. eexists. split; [done|]. split; [done|]. split; [|split].
    + by rewrite reverse_Permutation, isort_perm, reverse_Permutation.
    + eapply StronglySorted_weaken;
        [|apply StronglySorted_reverse,
            (isort_sorted ltb news_key_ltb_asym news_key_ltb_negtrans)].
      intros a b. unfold flip, not_after, ltb, News.before, News.date_key.
      destruct a as [? [x|]], b as [? [y|]]; simpl; try done. lia.
    + intros k. rewrite filter_reverse.
      rewrite (isort_stable ltb News.date_key news_key_ltb_key).
      by rewrite <-filter_reverse, reverse_involutive.
  - intros x y Hx Hy. rewrite elem_of_reverse in Hx. rewrite elem_of_reverse in Hy.
    apply list_elem_of_fmap in Hx as (ex & -> & Hex).
    apply list_elem_of_fmap in Hy as (ey & -> & Hey).
    unfold ltb, News.date_lt, News.date_ltb.
    destruct (News.news_of fetch shorten parse ex).2 as [dx|] eqn:Hdx; [|done].
    destruct (News.news_of fetch shorten parse ey).2 as [dy|] eqn:Hdy; [|done].
    rewrite bool_decide_true; [done|].
    by rewrite (Htz ex dx Hex Hdx), (Htz ey dy Hey Hdy).
Qed.

(** X15. A feed that mixes dates with and without a time zone: two items whose
    dates both were read, one with a time zone and one without, make the
    sort raise [TypeError]. *)
Theorem news_mixed_dates fetch shorten parse limit e1 e2 d1 d2 :
  (News.news_of fetch shorten parse e1).2 = Some d1 →
  (News.news_of fetch shorten parse e2).2 = Some d2 →
  News.aware d1 ≠ News.aware d2 → (2 ≤ limit)%Z →
  News.get_news fetch shorten parse limit [e1; e2] = Raise TypeError.
Proof.
  intros H1 H2 Hne Hlimit.
  unfold News.get_news, News.ranked_news, News.sort_reverse, News.py_slice_to.
  rewrite bool_decide_true by lia.
  assert (take (Z.to_nat limit) [e1; e2] = [e1; e2]) as ->
    by (apply take_ge; simpl; lia).
  change (News.news_of fetch shorten parse <$> [e1; e2])
    with [News.news_of fetch shorten parse e1; News.news_of fetch shorten parse e2].
  revert H1 H2.
  generalize (News.news_of fetch shorten parse e1)
             (News.news_of fetch shorten parse e2).
  intros [i1 k1] [i2 k2]. simpl. intros -> ->. simpl.
  by rewrite bool_decide_false.
Qed.

(** * The theorems at work

    Each theorem that has a hypothesis is applied once to data of the
    examples, with the plain decimal reader and the whole-number printer;
    and the statements of the specification that the code does not meet are
    refuted on data of the examples. *)

(** A decidable statement, settled by evaluation. *)
Ltac decided := apply (bool_decide_unpack _); vm_compute; exact I.

(** C2 at work: the active call at 21000 against the table of the chain. *)
Lemma enrich_override_witness :
  call_21000 !! "optionType" = Some (VStr "Call")
  ∧ chain_match table_21000 jan30 call_21000 detail_21000
  ∧ ∃ merged,
      enrich_contract parse_decimal table_21000 jan30 call_21000 = Ok merged
      ∧ overridden parse_decimal detail_21000 merged.
Proof.
  assert (call_21000 !! "optionType" = Some (VStr "Call")) as Hlabel
    by (vm_compute; reflexivity).
  assert (chain_match table_21000 jan30 call_21000 detail_21000) as Hmatch.
  { exists "CE", {[ "CE" := detail_21000 ]}.
    split; [vm_compute; reflexivity|]. split; [vm_compute; discriminate|].
    split; [vm_compute; reflexivity|]. split; [|apply lookup_singleton_eq].
    vm_cast_no_check (eq_refl (Some ({[ "CE" := detail_21000 ]} : gmap string dict))). }
  split; [exact Hlabel|]. split; [exact Hmatch|].
  destruct (proj1 (enrich_override_and_fallback parse_decimal)
              table_21000 jan30 call_21000 "Call" Hlabel)
    as (merged & Hok & Hov & _).
  exists merged. split; [exact Hok|]. apply Hov, Hmatch.
Defined.

(** C3 (amended) at work: a summary without a strike price. *)
Lemma enrich_emits_witness :
  Forall has_label [call_no_strike]
  ∧ ∃ out, enrich_contracts parse_decimal ∅ jan30 [call_no_strike] = Ok out
           ∧ Forall2 emitted [call_no_strike] out.
Proof.
  assert (Forall has_label [call_no_strike]) as Hl.
  { repeat constructor. exists "Call". vm_compute. reflexivity. }
  split; [exact Hl|]. apply (enrich_emits_every_record parse_decimal ∅ jan30 _ Hl).
Defined.

(** C3 as stated fails: the summary without a strike price is not skipped.
    It comes out of the merger, still without a strike price. *)
Lemma absent_strike_is_emitted :
  call_no_strike !! "strikePrice" = None
  ∧ ∃ merged,
      enrich_contracts parse_decimal ∅ jan30 [call_no_strike] = Ok [merged]
      ∧ merged !! "strikePrice" = None
      ∧ merged !! "optionType" = Some (VStr "CE").
Proof.
  split; [vm_compute; reflexivity|].
  exists (enriched_record parse_decimal ∅ jan30 call_no_strike).
  split; [|split; vm_compute; reflexivity].
  rewrite enrich_contracts_Ok; [reflexivity|].
  repeat constructor. exists "Call". vm_compute. reflexivity.
Qed.

(** A summary without a side label makes the merger raise: [None] has no
    [replace]. *)
Lemma missing_label_raises :
  enrich_contracts parse_decimal ∅ jan30 [strike_no_label] = Raise AttributeError.
Proof. vm_compute. reflexivity. Qed.

(** C4 (amended) at work: the table of a chain with one call row. *)
Lemma alert_buckets_witness :
  NoDup (contract_key str_of_whole <$> all_options_for_alerts parse_decimal jan30 chain_21000)
  ∧ ∃ a,
      generate_alerts parse_decimal str_of_whole []
        (all_options_for_alerts parse_decimal jan30 chain_21000) = Ok a
      ∧ ∀ opt, opt ∈ all_options_for_alerts parse_decimal jan30 chain_21000 →
          (contract_key str_of_whole opt ∈ momentum a ↔ momentum_rule parse_decimal opt)
          ∧ ¬ (contract_key str_of_whole opt ∈ unwinding a
               ∧ contract_key str_of_whole opt ∈ freshLongs a).
Proof.
  assert (NoDup (contract_key str_of_whole
                   <$> all_options_for_alerts parse_decimal jan30 chain_21000)) as Hnd.
  { vm_compute. apply NoDup_singleton. }
  split; [exact Hnd|].
  destruct (alert_buckets parse_decimal str_of_whole jan30 chain_21000 [])
    as (a & Hok & _ & _ & _ & _ & _ & Hrows).
  exists a. split; [exact Hok|]. intros opt Hopt.
  destruct (Hrows Hnd opt Hopt) as (Hmo & _ & _ & _ & _ & Hex & _).
  split; [exact Hmo|exact Hex].
Defined.

(** C4 as stated fails: of two rows with the key ["21000 CE"], the second
    has a percent change of 15, and its key is in [momentum] all the same,
    because the first row put it there. *)
Lemma shared_key_breaks_row_rule :
  ∃ a opt,
    generate_alerts parse_decimal str_of_whole []
      (all_options_for_alerts parse_decimal jan30 chain_twice) = Ok a
    ∧ opt ∈ all_options_for_alerts parse_decimal jan30 chain_twice
    ∧ contract_key str_of_whole opt ∈ momentum a
    ∧ ¬ momentum_rule parse_decimal opt.
Proof.
  exists {| fairValuation := "Valuation data unavailable.";
            marketBreadth := "Market breadth data unavailable.";
            buyingInterest := "Buying interest data unavailable.";
            momentum := ["21000 CE"]; unwinding := []; freshLongs := [];
            buyerDominance := []; sellerDominance := [] |}.
  exists (alert_opt parse_decimal (VInt 21000) "CE" jan30 {[ "pChange" := VInt 15 ]}).
  split; [vm_compute; reflexivity|]. split; [decided|]. split.
  - vm_compute. left.
  - unfold momentum_rule. decided.
Qed.


(** C7 (amended) at work: both tables empty. *)
Lemma alerts_on_empty_options_witness :
  df_empty [] = true
  ∧ ∃ a, generate_alerts parse_decimal str_of_whole [] [] = Ok a
         ∧ momentum a = [] ∧ fairValuation a = "Valuation data unavailable.".
Proof.
  assert (df_empty [] = true) as He by reflexivity.
  split; [exact He|].
  destruct (alerts_on_empty_options parse_decimal str_of_whole [] [] He)
    as (a & Hok & Hmo & _ & _ & _ & _ & _ & Hna).
  exists a. split; [exact Hok|]. split; [exact Hmo|]. apply (Hna He).
Defined.

(** C7 as stated fails: with a price-earnings ratio of 30 and an empty
    options table, the valuation narrative reports overvaluation. *)
Lemma narratives_ignore_options :
  generate_alerts parse_decimal str_of_whole stats_pe30 []
  = Ok {| fairValuation := "PE ratio is high, suggesting overvaluation.";
          marketBreadth := "Market breadth data not available.";
          buyingInterest := "Turnover data not available.";
          momentum := []; unwinding := []; freshLongs := [];
          buyerDominance := []; sellerDominance := [] |}.
Proof. vm_compute. reflexivity. Qed.

(** C8 at work: strikes 21500, 21000, 21200. *)
Lemma sorted_enriched_witness :
  Forall has_label calls_unsorted
  ∧ Forall (λ c, is_finite (strike_key c)) calls_unsorted
  ∧ ∃ out, sorted_enriched parse_decimal ∅ jan30 calls_unsorted = Ok out
           ∧ strike_ascending out
           ∧ strike_key <$> out = [VInt 21000; VInt 21200; VInt 21500].
Proof.
  assert (Forall has_label calls_unsorted) as Hl.
  { repeat constructor; eexists; vm_compute; reflexivity. }
  assert (Forall (λ c, is_finite (strike_key c)) calls_unsorted) as Hk.
  { repeat constructor; eexists; vm_compute; reflexivity. }
  split; [exact Hl|]. split; [exact Hk|].
  destruct (sorted_enriched_by_strike parse_decimal ∅ jan30 calls_unsorted Hl Hk)
    as (out & Hok & _ & Hasc & _ & Hex).
  exists out. split; [exact Hok|]. split; [exact Hasc|].
  apply Hex. vm_compute. reflexivity.
Defined.

(** C9 at work: two summaries on a heap, enriched twice. *)
Lemma enrich_twice_witness :
  Forall (allocated heap_two) [0; 1]
  ∧ same_output_twice parse_decimal jan30 [0; 1] heap_two.
Proof.
  assert (Forall (allocated heap_two) [0; 1]) as Hls.
  { repeat constructor; unfold allocated; decided. }
  split; [exact Hls|].
  apply (enrich_twice_same_output parse_decimal jan30 [0; 1] heap_two Hls).
Defined.

(** C10 at work: one disclosure. *)
Lemma corporates_pit_witness :
  (∃ r, r ∈ one_disclosure ∧ r ≠ ∅)
  ∧ match get_corporates_pit parse_decimal keep_order any_column same_case no_groups
            [] one_disclosure with
    | Ok res => dom (summary res) = full_summary_keys
    | Raise _ => True
    end.
Proof.
  assert (∃ r, r ∈ one_disclosure ∧ r ≠ ∅) as Hr.
  { eexists. split; [by apply elem_of_cons; left|]. decided. }
  split; [exact Hr|].
  apply (proj2 (proj2 (corporates_pit_empty parse_decimal keep_order any_column
                         same_case no_groups [])) one_disclosure Hr).
Defined.

(** The normalizer on a string that is not a number, and on a zero with the
    minimum tick as default. *)
Example normalize_text : normalize parse_decimal (VStr "abc") (int 0) = NaN.
Proof. vm_compute. reflexivity. Qed.

Example normalize_zero_tick : normalize parse_decimal (VStr "0") min_tick = min_tick.
Proof. vm_compute. reflexivity. Qed.

Example normalize_decimal : normalize parse_decimal (VStr "12.5") (int 0) = ratio 25 2.
Proof. vm_compute. f_equal. by apply Qc_is_canon. Qed.

(** The assembler on one disclosure: it returns, with the full summary. *)
Example one_disclosure_summary :
  match get_corporates_pit parse_decimal keep_order any_column same_case no_groups
          [] one_disclosure with
  | Ok res =>
      summary res !! "totalDisclosures" = Some (PCount 1)
      ∧ summary res !! "buyValueTotal" = Some (PScalar (VInt 0))
      ∧ summary res !! "companySummary" = Some (PRecord ∅)
  | Raise _ => False
  end.
Proof. vm_compute. repeat split. Qed.

(** Records without any field make an empty table: the first branch again. *)
Example empty_objects_summary :
  get_corporates_pit parse_decimal keep_order any_column same_case no_groups [] [∅; ∅]
  = Ok {| corporatesPIT := []; acqNameList := [];
          summary := {[ "totalDisclosures" := PCount 0 ]} |}.
Proof. vm_compute. reflexivity. Qed.

(** A transaction type without a [secVal] column: [df[...]["secVal"]] raises. *)
Example type_without_value_raises :
  get_corporates_pit parse_decimal keep_order any_column same_case no_groups []
    [ {[ "tdpTransactionType" := VStr "Buy" ]} ]
  = Raise KeyError.
Proof. vm_compute. reflexivity. Qed.


(** A well-formed summary does not come out either when another summary
    of the list has no side label. *)
Lemma one_missing_label_stops_all :
  enrich_contracts parse_decimal table_21000 jan30 [call_21000; strike_no_label]
  = Raise AttributeError.
Proof.
  apply enrich_contracts_raises. intros H.
  apply Forall_cons in H as [_ H]. apply Forall_cons in H as [[s Hs] _].
  vm_compute in Hs. discriminate.
Qed.

(** * The rest of the pipeline at work *)

(** X1 at work: the Tuesday after Monday 1 January 2024 is the next day. *)
Lemma get_next_weekday_witness :
  (0 ≤ 1 ≤ 6)%Z ∧ (1 ≤ ordinal new_year_2024)%Z
  ∧ (ordinal new_year_2024 + 7 ≤ max_ordinal)%Z
  ∧ ∃ d, get_next_weekday new_year_2024 1 = Some d
      ∧ (1 ≤ ordinal d - ordinal new_year_2024 ≤ 7)%Z
      ∧ weekday_of d = 1%Z
      ∧ time_of_day d = time_of_day new_year_2024
      ∧ (∀ o, (ordinal new_year_2024 < o < ordinal d)%Z → ((o - 1) mod 7)%Z ≠ 1%Z)
      ∧ (weekday_of new_year_2024 = 1%Z → ordinal d = (ordinal new_year_2024 + 7)%Z).
Proof.
  assert (0 ≤ 1 ≤ 6)%Z as H1 by lia.
  assert (1 ≤ ordinal new_year_2024)%Z as H2 by (vm_compute; discriminate).
  assert (ordinal new_year_2024 + 7 ≤ max_ordinal)%Z as H3 by (vm_compute; discriminate).
  exact (conj H1 (conj H2 (conj H3 (get_next_weekday_next new_year_2024 1 H1 H2 H3)))).
Defined.

Example next_tuesday_2024 :
  get_next_weekday new_year_2024 1
  = Some {| ordinal := 738887; time_of_day := 0 |}
  ∧ get_next_weekday new_year_2024 0
    = Some {| ordinal := 738893; time_of_day := 0 |}.
Proof. split; vm_compute; reflexivity. Qed.

(** The call summary at 21000 carries a text label. *)
Lemma call_21000_labelled : Forall has_label [call_21000].
Proof. repeat constructor. exists "Call". vm_compute. reflexivity. Defined.

(** X2 at work: the call summary at 21000. *)
Lemma enriched_quotes_witness :
  Forall has_label [call_21000]
  ∧ ∃ out, enrich_contracts parse_decimal table_21000 jan30 [call_21000] = Ok out
      ∧ Forall (λ r, quotes_numeric r ∧ displays_mirror r) out.
Proof.
  exact (conj call_21000_labelled
           (enriched_quotes parse_decimal table_21000 jan30 _ call_21000_labelled)).
Defined.

(** X3 at work: the call summary at 21000. *)
Lemma enriched_expiry_witness :
  Forall has_label [call_21000]
  ∧ ∃ out, enrich_contracts parse_decimal table_21000 jan30 [call_21000] = Ok out
      ∧ Forall2 (expiry_kept jan30) [call_21000] out.
Proof.
  exact (conj call_21000_labelled
           (enriched_expiry parse_decimal table_21000 jan30 _ call_21000_labelled)).
Defined.

(** X4 at work: a call at 21000 and a call with a null strike. *)
Lemma sorted_enriched_null_strike_witness :
  Forall has_label [call_21000; call_null_strike]
  ∧ (2 ≤ length [call_21000; call_null_strike])%nat
  ∧ (∃ c, c ∈ [call_21000; call_null_strike] ∧ c !! "strikePrice" = Some VNone)
  ∧ sorted_enriched parse_decimal table_21000 jan30 [call_21000; call_null_strike]
    = Raise TypeError.
Proof.
  assert (Forall has_label [call_21000; call_null_strike]) as Hl.
  { repeat constructor; exists "Call"; vm_compute; reflexivity. }
  assert (2 ≤ length [call_21000; call_null_strike])%nat as Hlen by (simpl; lia).
  assert (∃ c, c ∈ [call_21000; call_null_strike] ∧ c !! "strikePrice" = Some VNone)
    as Hnull.
  { exists call_null_strike. split; [|vm_compute; reflexivity].
    apply elem_of_cons. right. apply elem_of_cons. by left. }
  exact (conj Hl (conj Hlen (conj Hnull
           (sorted_enriched_null_strike parse_decimal table_21000 jan30 _ Hl Hlen Hnull)))).
Defined.

(** X5 at work: the call summary at 21000. *)
Lemma oi_sorted_keeps_records_witness :
  Forall has_label [call_21000]
  ∧ ∃ out, oi_sorted parse_decimal table_21000 jan30 [call_21000] = Ok out
      ∧ out ≡ₚ option_list (head (filter is_index
                 (enriched_record parse_decimal table_21000 jan30 <$> [call_21000])))
               ++ filter (λ c, ¬ is_index c)
                    (enriched_record parse_decimal table_21000 jan30 <$> [call_21000]).
Proof.
  exact (conj call_21000_labelled
           (oi_sorted_keeps_records parse_decimal table_21000 jan30 _ call_21000_labelled)).
Defined.

(** X7 at work: the chain with one call row at 21000. *)
Lemma enrich_from_chain_rows_witness :
  Forall has_label [call_21000]
  ∧ ∃ out, enrich_from_chain parse_decimal jan30 chain_21000 [call_21000] = Ok out
      ∧ Forall2 (λ c r, match chain_source parse_decimal jan30 chain_21000 c with
                        | Some opt => carries_row parse_decimal opt r
                        | None => kept parse_decimal c r
                        end) [call_21000] out.
Proof.
  exact (conj call_21000_labelled
           (enrich_from_chain_rows parse_decimal jan30 chain_21000 _ call_21000_labelled)).
Defined.

(** X10 at work: two gainers, with the stable descending sort. *)
Lemma volume_gainers_ranked_witness :
  sorts_descending stable_desc
  ∧ "week1volChange" ∈ df_columns gainers ∧ "symbol" ∈ df_columns gainers
  ∧ ∃ res top, get_volume_gainers parse_decimal stable_desc VNone gainers = Ok res
      ∧ snapshot_rows res ≡ₚ clean_df parse_decimal (frame_of gainers) volume_gainer_fields
      ∧ StronglySorted
          (λ a b, (val_num (df_cell b "week1volChange")
                   ≤ val_num (df_cell a "week1volChange"))%Qc)
          (snapshot_rows res)
      ∧ head (snapshot_rows res) = Some top
      ∧ snapshot_summary res !! "topSymbol" = Some (PScalar (df_cell top "symbol"))
      ∧ snapshot_summary res !! "totalCount" = Some (PCount (length gainers))
      ∧ snapshot_summary res !! "timestamp" = Some (PScalar VNone).
Proof.
  assert ("week1volChange" ∈ df_columns gainers) as H1 by decided.
  assert ("symbol" ∈ df_columns gainers) as H2 by decided.
  exact (conj stable_desc_sorts (conj H1 (conj H2
           (volume_gainers_ranked parse_decimal stable_desc VNone gainers
              stable_desc_sorts H1 H2)))).
Defined.

(** X11 at work: two securities, with the stable descending sort. *)
Lemma most_active_ranked_witness :
  sorts_descending stable_desc
  ∧ "totalTradedValue" ∈ df_columns actives ∧ "symbol" ∈ df_columns actives
  ∧ ∃ res top, get_most_active_securities parse_decimal stable_desc VNone actives = Ok res
      ∧ snapshot_rows res ≡ₚ clean_df parse_decimal (frame_of actives) most_active_fields
      ∧ StronglySorted
          (λ a b, (val_num (df_cell b "totalTradedValue")
                   ≤ val_num (df_cell a "totalTradedValue"))%Qc)
          (snapshot_rows res)
      ∧ head (snapshot_rows res) = Some top
      ∧ snapshot_summary res !! "topSymbol" = Some (PScalar (df_cell top "symbol"))
      ∧ snapshot_summary res !! "topTurnover"
        = Some (PScalar (df_cell top "totalTradedValue"))
      ∧ is_finite (df_cell top "totalTradedValue")
      ∧ snapshot_summary res !! "totalCount" = Some (PCount (length actives)).
Proof.
  assert ("totalTradedValue" ∈ df_columns actives) as H1 by decided.
  assert ("symbol" ∈ df_columns actives) as H2 by decided.
  exact (conj stable_desc_sorts (conj H1 (conj H2
           (most_active_ranked parse_decimal stable_desc VNone actives
              stable_desc_sorts H1 H2)))).
Defined.


(** X12 at work: the payload with no record. *)
Lemma snapshot_edges_witness :
  sorts_descending stable_desc
  ∧ (df_empty [] = true →
       get_volume_gainers parse_decimal stable_desc VNone []
       = Ok {| snapshot_rows := frame_of [];
               snapshot_summary :=
                 list_to_map [ ("topSymbol", PScalar VNone);
                               ("totalCount", PCount (length ([] : list dict)));
                               ("timestamp", PScalar VNone) ] |}
       ∧ get_most_active_securities parse_decimal stable_desc VNone []
         = Ok {| snapshot_rows := frame_of [];
                 snapshot_summary :=
                   list_to_map [ ("topSymbol", PScalar VNone);
                                 ("topTurnover", PScalar VNone);
                                 ("totalCount", PCount (length ([] : list dict)));
                                 ("timestamp", PScalar VNone) ] |})
  ∧ (df_empty [] = false → "symbol" ∉ df_columns [] →
       get_volume_gainers parse_decimal stable_desc VNone [] = Raise KeyError
       ∧ get_most_active_securities parse_decimal stable_desc VNone [] = Raise KeyError)
  ∧ (df_empty [] = false → "totalTradedValue" ∉ df_columns [] →
       get_most_active_securities parse_decimal stable_desc VNone [] = Raise KeyError).
Proof.
  exact (conj stable_desc_sorts
           (snapshot_edges parse_decimal stable_desc VNone [] stable_desc_sorts)).
Defined.

(** X14 at work: three entries, one of them without a date. *)
Lemma news_order_witness :
  (∀ e d, e ∈ News.py_slice_to 10 [older_entry; undated_entry; newer_entry] →
     (News.news_of no_article keep_text read_date e).2 = Some d →
     News.aware d = false)
  ∧ ∃ ranked,
      News.ranked_news no_article keep_text read_date 10
        [older_entry; undated_entry; newer_entry] = Ok ranked
      ∧ News.get_news no_article keep_text read_date 10
          [older_entry; undated_entry; newer_entry] = Ok (ranked.*1)
      ∧ ranked ≡ₚ News.news_of no_article keep_text read_date
                    <$> News.py_slice_to 10 [older_entry; undated_entry; newer_entry]
      ∧ StronglySorted News.before ranked
      ∧ ∀ k, filter (λ x, News.date_key x = k) ranked
             = filter (λ x, News.date_key x = k)
                 (News.news_of no_article keep_text read_date
                    <$> News.py_slice_to 10 [older_entry; undated_entry; newer_entry]).
Proof.
  assert (∀ e d, e ∈ News.py_slice_to 10 [older_entry; undated_entry; newer_entry] →
            (News.news_of no_article keep_text read_date e).2 = Some d →
            News.aware d = false) as Htz.
  { intros e d He. change (e ∈ [older_entry; undated_entry; newer_entry]) in He.
    rewrite !elem_of_cons, elem_of_nil in He.
    destruct He as [->|[->|[->|[]]]]; vm_compute; intros [= <-]; reflexivity. }
  exact (conj Htz (news_order no_article keep_text read_date 10 _ false Htz)).
Defined.

(** The undated item comes first, then the newer, then the older. *)
Example news_undated_first :
  ∃ out, News.get_news no_article keep_text read_date 10
           [older_entry; undated_entry; newer_entry] = Ok out
       ∧ News.title <$> out = ["Undated"; "Newer"; "Older"].
Proof. eexists. split; vm_compute; reflexivity. Qed.

(** X15 at work: a date without a time zone and one with. *)
Lemma news_mixed_dates_witness :
  (News.news_of no_article keep_text read_date older_entry).2
  = Some {| News.instant := 1; News.aware := false |}
  ∧ (News.news_of no_article keep_text read_date zoned_entry).2
    = Some {| News.instant := 3; News.aware := true |}
  ∧ false ≠ true ∧ (2 ≤ 10)%Z
  ∧ News.get_news no_article keep_text read_date 10 [older_entry; zoned_entry]
    = Raise TypeError.
Proof.
  assert ((News.news_of no_article keep_text read_date older_entry).2
          = Some {| News.instant := 1; News.aware := false |}) as H1
    by (vm_compute; reflexivity).
  assert ((News.news_of no_article keep_text read_date zoned_entry).2
          = Some {| News.instant := 3; News.aware := true |}) as H2
    by (vm_compute; reflexivity).
  assert (false ≠ true) as H3 by discriminate.
  assert (2 ≤ 10)%Z as H4 by lia.
  exact (conj H1 (conj H2 (conj H3 (conj H4
           (news_mixed_dates no_article keep_text read_date 10 _ _ _ _ H1 H2 H3 H4))))).
Defined.


(** Records with a figure but no symbol: both snapshots raise. *)
Example snapshots_without_symbol :
  get_volume_gainers parse_decimal stable_desc VNone
    [ {[ "week1volChange" := VInt 3 ]} ] = Raise KeyError
  ∧ get_most_active_securities parse_decimal stable_desc VNone
      [ {[ "totalTradedValue" := VInt 3 ]} ] = Raise KeyError.
Proof. split; vm_compute; reflexivity. Qed.

(** Two records without any field: no top symbol, and a count of two. *)
Example gainers_without_fields :
  ∃ res, get_volume_gainers parse_decimal stable_desc VNone [∅; ∅] = Ok res
    ∧ snapshot_summary res !! "topSymbol" = Some (PScalar VNone)
    ∧ snapshot_summary res !! "totalCount" = Some (PCount 2).
Proof. eexists. split; [vm_compute; reflexivity|]. split; vm_compute; reflexivity. Qed.

(** The gainer with the larger change comes first, its figure read from
    the text. *)
Example gainers_top_symbol :
  ∃ res, get_volume_gainers parse_decimal stable_desc VNone gainers = Ok res
    ∧ snapshot_summary res !! "topSymbol" = Some (PScalar (VStr "BBB"))
    ∧ (λ r, df_cell r "symbol") <$> snapshot_rows res = [VStr "BBB"; VStr "AAA"].
Proof. eexists. split; [vm_compute; reflexivity|]. split; vm_compute; reflexivity. Qed.
